(** * BingeHouse: the movie-butler chain

    A shallow embedding of
    [supabase/functions/process-movie-query/movie-butler-chain.ts]
    (class [MovieButlerChain]) and the properties its specification
    states about it.

    Conventions of the embedding.
    - A JavaScript string is a [string]; its characters are code units
      below 256 (Latin-1).  [toLowerCase], [trim] and the regular
      expression classes are the ECMAScript ones restricted to that range.
    - A regular expression literal is kept as its source text and parsed
      by [Regex.parse]; the double quote inside a character class is
      written with the escape [\x22], which denotes the same character.
    - External services (the Supabase client, the language-model chains,
      the OMDB HTTP API, the clock, the UUID and random sources) are
      fields of a [World] record; every request sent to Supabase is
      appended to a log kept in the chain state.
    - [this.log] only appends to [this.logs] and prints; it is left out.
    - For the chain the catalog lookup is the [fetchOMDB] field of the
      world.  The code of the lookup ([searchOMDB] and the functions it
      calls) is embedded on its own in the module [OMDB], over the answers
      of the HTTP API; the function that serves the requests ([index.ts])
      is [serve]. *)

From Stdlib Require Import String Ascii List ZArith QArith Lia Bool Permutation
  Sorted.
From stdpp Require Import base option list gmap strings.

Local Open Scope string_scope.
Local Open Scope list_scope.

(* ================================================================== *)
(** * Part I: definitions                                              *)
(* ================================================================== *)

(** ** JavaScript strings *)

Module JS.

Definition chars (s : string) : list ascii := list_ascii_of_string s.
Definition str (l : list ascii) : string := string_of_list_ascii l.

Definition code (c : ascii) : nat := nat_of_ascii c.

Definition between (lo hi : nat) (c : ascii) : bool :=
  (lo <=? code c)%nat && (code c <=? hi)%nat.

Definition isUpperAscii : ascii -> bool := between 65 90.
Definition isLowerAscii : ascii -> bool := between 97 122.
Definition isDigit : ascii -> bool := between 48 57.
Definition isLetter (c : ascii) : bool := isUpperAscii c || isLowerAscii c.

(** [\w]: letters, digits and the underscore. *)
Definition isWordChar (c : ascii) : bool :=
  isLetter c || isDigit c || (code c =? 95)%nat.

(** WhiteSpace and LineTerminator code points below 256: TAB, LF, VT, FF,
    CR, SP and NBSP.  This is the class of [\s] and of [trim]. *)
Definition isSpace (c : ascii) : bool :=
  between 9 13 c || (code c =? 32)%nat || (code c =? 160)%nat.

(** [.] matches everything but the line terminators. *)
Definition isLineTerminator (c : ascii) : bool :=
  (code c =? 10)%nat || (code c =? 13)%nat.

(** [toLowerCase] on one code unit: A-Z, and the Latin-1 capitals
    U+00C0..U+00DE except the multiplication sign U+00D7. *)
Definition lowerChar (c : ascii) : ascii :=
  if isUpperAscii c then ascii_of_nat (code c + 32)
  else if between 192 222 c && negb (code c =? 215)%nat
       then ascii_of_nat (code c + 32)
       else c.

Definition upperAsciiChar (c : ascii) : ascii :=
  if isLowerAscii c then ascii_of_nat (code c - 32) else c.

(** The other-case variant of an ASCII letter (used by the [i] flag). *)
Definition swapCase (c : ascii) : ascii :=
  if isUpperAscii c then ascii_of_nat (code c + 32)
  else if isLowerAscii c then ascii_of_nat (code c - 32)
  else c.

Definition toLowerCase (s : string) : string := str (map lowerChar (chars s)).

Fixpoint dropSpaces (l : list ascii) : list ascii :=
  match l with
  | c :: tl => if isSpace c then dropSpaces tl else l
  | [] => []
  end.

Definition trimChars (l : list ascii) : list ascii :=
  rev (dropSpaces (rev (dropSpaces l))).

Definition trim (s : string) : string := str (trimChars (chars s)).

Definition length (s : string) : nat := List.length (chars s).

Fixpoint isPrefix (p l : list ascii) : bool :=
  match p, l with
  | [], _ => true
  | a :: p', b :: l' => if Ascii.eqb a b then isPrefix p' l' else false
  | _ :: _, [] => false
  end.

Fixpoint isInfix (p l : list ascii) : bool :=
  isPrefix p l ||
  match l with
  | [] => false
  | _ :: tl => isInfix p tl
  end.

(** [s.includes(sub)] *)
Definition includes (s sub : string) : bool := isInfix (chars sub) (chars s).

Definition startsWith (s p : string) : bool := isPrefix (chars p) (chars s).

Definition endsWith (s p : string) : bool :=
  isPrefix (rev (chars p)) (rev (chars s)).

(** [s.substring(a, b)] for [a <= b]. *)
Definition substring (a b : nat) (s : string) : string :=
  str (take (b - a) (drop a (chars s))).

(** Index of the last element satisfying [p], scanning from index [i]. *)
Fixpoint lastIndexFrom (p : ascii -> bool) (i : nat) (l : list ascii)
  : option nat :=
  match l with
  | [] => None
  | c :: tl =>
      match lastIndexFrom p (S i) tl with
      | Some j => Some j
      | None => if p c then Some i else None
      end
  end.

(** [s.lastIndexOf(c)] for a one-character needle; [None] is JavaScript's -1. *)
Definition lastIndexOf (s : string) (c : ascii) : option nat :=
  lastIndexFrom (Ascii.eqb c) 0 (chars s).

(** [s.split(c)] for a one-character separator. *)
Fixpoint splitChars (sep : ascii) (cur : list ascii) (l : list ascii)
  : list (list ascii) :=
  match l with
  | [] => [rev cur]
  | c :: tl =>
      if Ascii.eqb c sep then rev cur :: splitChars sep [] tl
      else splitChars sep (c :: cur) tl
  end.

Definition split (s : string) (sep : ascii) : list string :=
  map str (splitChars sep [] (chars s)).

(** [parts.join(sep)] *)
Fixpoint join (sep : string) (parts : list string) : string :=
  match parts with
  | [] => ""
  | [x] => x
  | x :: tl => x ++ sep ++ join sep tl
  end.

(** [a || b] on strings: the empty string is falsy. *)
Definition orElse (a b : string) : string :=
  if String.eqb a "" then b else a.

(** [a || b] where [a] may be [undefined]. *)
Definition optOr (a : option string) (b : string) : string :=
  match a with
  | Some x => orElse x b
  | None => b
  end.

(** Truthiness of a string-or-null value such as [userId]. *)
Definition truthy (a : option string) : bool :=
  match a with
  | Some x => negb (String.eqb x "")
  | None => false
  end.

(** Decimal digits of a natural number ([String(n)] for integers). *)
Fixpoint natDigits (fuel n : nat) (acc : list ascii) : list ascii :=
  match fuel with
  | O => acc
  | S f =>
      let d := ascii_of_nat (48 + n mod 10) in
      if (n <? 10)%nat then d :: acc else natDigits f (n / 10) (d :: acc)
  end.

Definition natToString (n : nat) : string := str (natDigits (S n) n []).

End JS.

(** ** Regular expressions (the ECMAScript subset the chain uses) *)

Module Regex.
Import JS.

Inductive class_item : Type :=
| CRange (lo hi : ascii)          (* a-z, or a single character *)
| CSpace                          (* \s *)
| CDigit                          (* \d *)
| CWord.                          (* \w *)

Inductive regex : Type :=
| Empty
| Never                                        (* a pattern that failed to parse *)
| Any                                          (* . *)
| Class (neg : bool) (items : list class_item) (* [...], \s, \d, a literal *)
| Seq (r1 r2 : regex)
| Alt (r1 r2 : regex)
| Rep (min : nat) (max : option nat) (greedy : bool) (r : regex)
| Bol                                          (* ^ *)
| Eol                                          (* $ *)
| WordBoundary                                 (* \b *)
| NotAhead (r : regex).                        (* (?!...) *)

Definition Lit (c : ascii) : regex := Class false [CRange c c].

(** *** Parsing the source text of a pattern *)

Definition hexVal (c : ascii) : option nat :=
  if isDigit c then Some (code c - 48)
  else if between 97 102 c then Some (code c - 87)
  else if between 65 70 c then Some (code c - 55)
  else None.

(** An escape inside or outside a class: the items it denotes. *)
Definition escapeItems (c : ascii) : list class_item :=
  if Ascii.eqb c "s" then [CSpace]
  else if Ascii.eqb c "d" then [CDigit]
  else if Ascii.eqb c "w" then [CWord]
  else [CRange c c].

(** One class atom at the head of [s]: a character and the rest, or a
    class escape ([inr]). *)
Definition classAtom (s : list ascii)
  : option ((ascii + list class_item) * list ascii) :=
  match s with
  | "\"%char :: "x"%char :: h1 :: h2 :: tl =>
      match hexVal h1, hexVal h2 with
      | Some a, Some b => Some (inl (ascii_of_nat (16 * a + b)), tl)
      | _, _ => None
      end
  | "\"%char :: c :: tl =>
      match escapeItems c with
      | [CRange a _] => Some (inl a, tl)
      | its => Some (inr its, tl)
      end
  | c :: tl => Some (inl c, tl)
  | [] => None
  end.

(** The body of [[...]] up to the closing bracket. *)
Fixpoint parseClass (fuel : nat) (s : list ascii) (acc : list class_item)
  : option (list class_item * list ascii) :=
  match fuel with
  | O => None
  | S f =>
      match s with
      | "]"%char :: tl => Some (rev acc, tl)
      | _ =>
          match classAtom s with
          | Some (inr its, tl) => parseClass f tl (rev its ++ acc)
          | Some (inl lo, "-"%char :: tl) =>
              match tl with
              | "]"%char :: _ =>
                  parseClass f tl (CRange "-" "-" :: CRange lo lo :: acc)
              | _ =>
                  match classAtom tl with
                  | Some (inl hi, tl') => parseClass f tl' (CRange lo hi :: acc)
                  | _ => None
                  end
              end
          | Some (inl c, tl) => parseClass f tl (CRange c c :: acc)
          | None => None
          end
      end
  end.

Fixpoint parseNat (s : list ascii) (acc : nat) : nat * list ascii :=
  match s with
  | c :: tl => if isDigit c then parseNat tl (10 * acc + (code c - 48)) else (acc, s)
  | [] => (acc, s)
  end.

(** The quantifier that follows an atom, if any: [(min, max, rest)]. *)
Definition parseQuant (s : list ascii) : option (nat * option nat * list ascii) :=
  match s with
  | "*"%char :: tl => Some (0, None, tl)
  | "+"%char :: tl => Some (1, None, tl)
  | "?"%char :: tl => Some (0, Some 1, tl)
  | "{"%char :: tl =>
      let '(n, tl1) := parseNat tl 0 in
      match tl1 with
      | "}"%char :: tl2 => Some (n, Some n, tl2)
      | ","%char :: "}"%char :: tl2 => Some (n, None, tl2)
      | ","%char :: tl2 =>
          let '(m, tl3) := parseNat tl2 0 in
          match tl3 with
          | "}"%char :: tl4 => Some (n, Some m, tl4)
          | _ => None
          end
      | _ => None
      end
  | _ => None
  end.

Definition withQuant (r : regex) (s : list ascii) : regex * list ascii :=
  match parseQuant s with
  | Some (mn, mx, "?"%char :: tl) => (Rep mn mx false r, tl)
  | Some (mn, mx, tl) => (Rep mn mx true r, tl)
  | None => (r, s)
  end.

(** Disjunction, Alternative and Term of the ECMAScript grammar.  Capture
    groups and [(?:...)] both parse to their body: the chain never reads a
    capture that is not the whole match. *)
Fixpoint parseDisj (fuel : nat) (s : list ascii) : option (regex * list ascii) :=
  match fuel with
  | O => None
  | S f =>
      match parseAlt f s Empty with
      | Some (r1, "|"%char :: tl) =>
          match parseDisj f tl with
          | Some (r2, tl') => Some (Alt r1 r2, tl')
          | None => None
          end
      | res => res
      end
  end
with parseAlt (fuel : nat) (s : list ascii) (acc : regex)
  : option (regex * list ascii) :=
  match fuel with
  | O => None
  | S f =>
      match s with
      | [] => Some (acc, s)
      | "|"%char :: _ => Some (acc, s)
      | ")"%char :: _ => Some (acc, s)
      | _ =>
          match parseTerm f s with
          | Some (r, tl) =>
              parseAlt f tl (match acc with Empty => r | _ => Seq acc r end)
          | None => None
          end
      end
  end
with parseTerm (fuel : nat) (s : list ascii) : option (regex * list ascii) :=
  match fuel with
  | O => None
  | S f =>
      match s with
      | "^"%char :: tl => Some (Bol, tl)
      | "$"%char :: tl => Some (Eol, tl)
      | "\"%char :: "b"%char :: tl => Some (WordBoundary, tl)
      | "("%char :: "?"%char :: "!"%char :: tl =>
          match parseDisj f tl with
          | Some (r, ")"%char :: tl') => Some (NotAhead r, tl')
          | _ => None
          end
      | "("%char :: "?"%char :: ":"%char :: tl =>
          match parseDisj f tl with
          | Some (r, ")"%char :: tl') => Some (withQuant r tl')
          | _ => None
          end
      | "("%char :: tl =>
          match parseDisj f tl with
          | Some (r, ")"%char :: tl') => Some (withQuant r tl')
          | _ => None
          end
      | "["%char :: "^"%char :: tl =>
          match parseClass f tl [] with
          | Some (its, tl') => Some (withQuant (Class true its) tl')
          | None => None
          end
      | "["%char :: tl =>
          match parseClass f tl [] with
          | Some (its, tl') => Some (withQuant (Class false its) tl')
          | None => None
          end
      | "."%char :: tl => Some (withQuant Any tl)
      | "*"%char :: _ => None
      | "+"%char :: _ => None
      | "?"%char :: _ => None
      | _ =>
          match classAtom s with
          | Some (inl c, tl) => Some (withQuant (Lit c) tl)
          | Some (inr its, tl) => Some (withQuant (Class false its) tl)
          | None => None
          end
      end
  end.

Definition parse (pattern : string) : regex :=
  let s := chars pattern in
  match parseDisj (3 * List.length s + 3) s with
  | Some (r, []) => r
  | _ => Never
  end.

(** A RegExp object: the pattern and its [i] flag.  Whether a use is
    global ([g]) is told by the operation that is called ([matchAll],
    [replaceAll]). *)
Record RegExp : Type := mkRegExp { re_ast : regex; re_icase : bool }.

Definition re (pattern : string) : RegExp := mkRegExp (parse pattern) false.
Definition rei (pattern : string) : RegExp := mkRegExp (parse pattern) true.

(** *** Matching *)

(** A position in the subject: the character before it and what follows. *)
Definition pos : Type := option ascii * list ascii.

Definition itemMem (it : class_item) (c : ascii) : bool :=
  match it with
  | CRange lo hi => between (code lo) (code hi) c
  | CSpace => isSpace c
  | CDigit => isDigit c
  | CWord => isWordChar c
  end.

(** Membership in a class.  With the [i] flag a character matches when it
    or its other-case variant belongs to the set (Canonicalize of
    ECMA-262, 22.2.2.7.3, on ASCII letters). *)
Definition classMem (icase neg : bool) (items : list class_item) (c : ascii)
  : bool :=
  xorb neg (existsb (fun it => itemMem it c) items
            || (icase && existsb (fun it => itemMem it (swapCase c)) items)).

Definition isWordBefore (p : pos) : bool :=
  match fst p with Some c => isWordChar c | None => false end.
Definition isWordAfter (p : pos) : bool :=
  match snd p with c :: _ => isWordChar c | [] => false end.

Definition shorter (p q : pos) : bool :=
  (List.length (snd p) <? List.length (snd q))%nat.

(** Iterations of a quantified atom once the minimum is reached: an
    iteration that consumes nothing is rejected (RepeatMatcher, step 2.b). *)
Fixpoint repMore (step : pos -> list pos) (greedy : bool) (fuel : nat)
  (max : option nat) (p : pos) : list pos :=
  match fuel with
  | O => [p]
  | S f =>
      match max with
      | Some O => [p]
      | _ =>
          let more :=
            flat_map (repMore step greedy f (option_map Nat.pred max))
                     (List.filter (fun q => shorter q p) (step p)) in
          if greedy then more ++ [p] else p :: more
      end
  end.

Fixpoint repMin (step : pos -> list pos) (k : pos -> list pos) (min : nat)
  (p : pos) : list pos :=
  match min with
  | O => k p
  | S m => flat_map (repMin step k m) (step p)
  end.

(** All the positions at which a match of [r] started at [p] can end, in
    the order in which a backtracking matcher tries them. *)
Fixpoint run (icase : bool) (r : regex) (p : pos) : list pos :=
  match r with
  | Empty => [p]
  | Never => []
  | Any =>
      match snd p with
      | c :: tl => if isLineTerminator c then [] else [(Some c, tl)]
      | [] => []
      end
  | Class neg items =>
      match snd p with
      | c :: tl => if classMem icase neg items c then [(Some c, tl)] else []
      | [] => []
      end
  | Seq r1 r2 => flat_map (run icase r2) (run icase r1 p)
  | Alt r1 r2 => run icase r1 p ++ run icase r2 p
  | Rep mn mx greedy r1 =>
      repMin (run icase r1)
             (repMore (run icase r1) greedy (S (List.length (snd p)))
                      (option_map (fun m => m - mn) mx))
             mn p
  | Bol => match fst p with None => [p] | Some _ => [] end
  | Eol => match snd p with [] => [p] | _ :: _ => [] end
  | WordBoundary =>
      if xorb (isWordBefore p) (isWordAfter p) then [p] else []
  | NotAhead r1 => match run icase r1 p with [] => [p] | _ :: _ => [] end
  end.

(** The leftmost match at or after the current position: the number of
    characters skipped and the length of the match. *)
Fixpoint search (rx : RegExp) (skipped : nat) (prev : option ascii)
  (l : list ascii) : option (nat * nat) :=
  match run (re_icase rx) (re_ast rx) (prev, l) with
  | q :: _ => Some (skipped, List.length l - List.length (snd q))
  | [] =>
      match l with
      | [] => None
      | c :: tl => search rx (S skipped) (Some c) tl
      end
  end.

(** [rx.exec(s)]: start index and length of the first match. *)
Definition exec (rx : RegExp) (s : string) : option (nat * nat) :=
  search rx 0 None (chars s).

(** [rx.test(s)] *)
Definition test (rx : RegExp) (s : string) : bool :=
  match exec rx s with Some _ => true | None => false end.

(** [s.match(rx)[0]] for a pattern without the [g] flag. *)
Definition match0 (rx : RegExp) (s : string) : option string :=
  match exec rx s with
  | Some (i, n) => Some (substring i (i + n) s)
  | None => None
  end.

(** [s.replace(rx, by)] for a pattern without the [g] flag. *)
Definition replace (rx : RegExp) (by_ : string) (s : string) : string :=
  match exec rx s with
  | Some (i, n) =>
      substring 0 i s ++ by_ ++ substring (i + n) (JS.length s) s
  | None => s
  end.

(** Successive matches of a [g] pattern: [(text before, matched text)]
    pairs in order, and the text after the last match.  After an empty
    match the search resumes one character further. *)
Fixpoint scan (rx : RegExp) (fuel : nat) (prev : option ascii)
  (l : list ascii) : list (list ascii * list ascii) * list ascii :=
  match fuel with
  | O => ([], l)
  | S f =>
      match search rx 0 prev l with
      | None => ([], l)
      | Some (i, n) =>
          let before := take i l in
          let matched := take n (drop i l) in
          let rest := drop (i + n) l in
          match n, rest with
          | O, [] => ([(before, matched)], [])
          | O, c :: tl =>
              let '(ms, tail) := scan rx f (Some c) tl in
              match ms with
              | [] => ([(before, matched)], c :: tail)
              | (b, m) :: ms' => ((before, matched) :: (c :: b, m) :: ms', tail)
              end
          | S _, _ =>
              let '(ms, tail) := scan rx f (last (take (i + n) l)) rest in
              ((before, matched) :: ms, tail)
          end
      end
  end.

(** [s.match(rx)] for a [g] pattern: all the matched texts. *)
Definition matchAll (rx : RegExp) (s : string) : list string :=
  map (fun bm => str (snd bm))
      (fst (scan rx (S (JS.length s)) None (chars s))).

(** [s.replace(rx, by)] for a [g] pattern. *)
Definition replaceAll (rx : RegExp) (by_ : string) (s : string) : string :=
  let '(ms, tail) := scan rx (S (JS.length s)) None (chars s) in
  fold_right (fun bm acc => (str (fst bm) ++ by_ ++ acc)%string) (str tail) ms.

End Regex.

Import JS Regex.

(** ** Data model *)

Inductive Role : Type := RoleUser | RoleAssistant.

(** An entry of [ConversationMemory.messages]. *)
Record Message : Type := mkMessage {
  role : Role;
  content : string;
  timestamp : Z
}.

(** An entry of [ConversationMemory.discussedMovies].  [genre] and
    [rating] are optional in the interface; [title] is [undefined] when
    [saveAssistantMessage] is given a movie whose title is empty. *)
Record DiscussedMovie : Type := mkDiscussed {
  dm_title : option string;
  dm_genre : option string;
  dm_rating : option string
}.

Record UserPreferences : Type := mkPrefs {
  genres : list string;
  lastContext : string
}.

Record ConversationMemory : Type := mkConversation {
  messages : list Message;
  discussedMovies : list DiscussedMovie;
  userPreferences : UserPreferences;
  totalTokens : nat;
  turnCount : nat
}.

Record ChainContext : Type := mkContext {
  userId : option string;
  query : string;
  conversationId : string;
  sessionId : string
}.

(** A movie object as the catalog or the store returns it: a JavaScript
    object whose fields are strings ([Title], [title], [imdbRating],
    [imdbrating], [id], ...). *)
Abbreviation RawMovie := (gmap string string).

(** The result of [normalizeMovieData]. *)
Record Movie : Type := mkMovie {
  m_id : string;
  m_title : string;
  m_year : string;
  m_imdbID : string;
  m_poster : string;
  m_imdbRating : string;
  m_imdbVotes : string;
  m_plot : string;
  m_director : string;
  m_actors : string;
  m_genre : string;
  m_created_at : string
}.

(** The object [generateRecommendation] returns. *)
Record Recommendation : Type := mkRecommendation {
  r_id : string;
  r_movie_id : string;
  r_recommendation : string;
  r_worth_watching : bool;
  r_created_at : string;
  r_tokensUsed : nat
}.

(** ** Array helpers *)

(** [arr.slice(-n)]: the last [n] elements. *)
Definition sliceLast {A : Type} (n : nat) (l : list A) : list A :=
  drop (List.length l - n) l.

(** [arr.slice(0, -1)] *)
Definition sliceInit {A : Type} (l : list A) : list A :=
  take (List.length l - 1) l.

(** ** Conversation memory: the updates of [saveUserMessage] and
    [saveAssistantMessage] on one conversation object *)

(** [conversation.messages.push(m)] followed by the
    "keep only last 10 messages" cut. *)
Definition pushMessage (m : Message) (ms : list Message) : list Message :=
  let ms' := ms ++ [m] in
  if (10 <? List.length ms')%nat then sliceLast 10 ms' else ms'.

(** The body of [saveUserMessage] once the conversation is found. *)
Definition addUserMessage (now : Z) (message : string) (c : ConversationMemory)
  : ConversationMemory :=
  {| messages := pushMessage (mkMessage RoleUser message now) (messages c);
     discussedMovies := discussedMovies c;
     userPreferences := userPreferences c;
     totalTokens := totalTokens c;
     turnCount := S (turnCount c) |}.

(** The genre recorded for a discussed movie: [movieData.genre ||
    movieData.Genre || movieData.genres], cut at the first comma.  On a
    normalized movie only [genre] exists; [None] is [undefined]. *)
Definition firstGenre (m : Movie) : option string :=
  if String.eqb (m_genre m) "" then None
  else if includes (m_genre m) ","
       then match split (m_genre m) "," with
            | g :: _ => Some (trim g)
            | [] => Some (m_genre m)
            end
       else Some (m_genre m).

Definition movieEntry (m : Movie) : DiscussedMovie :=
  {| dm_title := if String.eqb (m_title m) "" then None else Some (m_title m);
     dm_genre := Some (optOr (firstGenre m) "Unknown");
     dm_rating := Some (orElse (m_imdbRating m) "N/A") |}.

(** [discussedMovies.push(entry)] and the "keep only last 5 movies" cut. *)
Definition pushMovie (e : DiscussedMovie) (ds : list DiscussedMovie)
  : list DiscussedMovie :=
  let ds' := ds ++ [e] in
  if (5 <? List.length ds')%nat then sliceLast 5 ds' else ds'.

Definition inStrings (x : string) (l : list string) : bool :=
  existsb (String.eqb x) l.

(** The "update user preferences" step. *)
Definition pushGenre (g : option string) (p : UserPreferences) : UserPreferences :=
  match g with
  | Some x =>
      if negb (String.eqb x "") && negb (String.eqb x "Unknown")
         && negb (inStrings x (genres p))
      then
        let gs := genres p ++ [x] in
        {| genres := if (3 <? List.length gs)%nat then sliceLast 3 gs else gs;
           lastContext := lastContext p |}
      else p
  | None => p
  end.

(** The in-memory part of [saveAssistantMessage]. *)
Definition addAssistantMessage (now : Z) (message : string)
  (movieData : option Movie) (c : ConversationMemory) : ConversationMemory :=
  let ms := pushMessage (mkMessage RoleAssistant message now) (messages c) in
  match movieData with
  | Some m =>
      {| messages := ms;
         discussedMovies := pushMovie (movieEntry m) (discussedMovies c);
         userPreferences := pushGenre (firstGenre m) (userPreferences c);
         totalTokens := totalTokens c;
         turnCount := turnCount c |}
  | None =>
      {| messages := ms;
         discussedMovies := discussedMovies c;
         userPreferences := userPreferences c;
         totalTokens := totalTokens c;
         turnCount := turnCount c |}
  end.

Definition emptyConversation : ConversationMemory :=
  {| messages := [];
     discussedMovies := [];
     userPreferences := {| genres := []; lastContext := "" |};
     totalTokens := 0;
     turnCount := 0 |}.

(** ** Query classifier: [detectGeneralConversation] *)

Definition generalPatterns : list RegExp := [
  rei "^(hi|hello|hey|thanks|thank you|ok|okay|cool|nice|great|awesome)$";
  rei "^(what do you think|any other|anything else|what about|how about)";
  rei "^(tell me more|more info|details|explain)";
  rei "^(recommend|suggest|any recommendations|what should i watch)";
  rei "^(give me|show me|find me)\s+(some|any)?\s*(recommendations|suggestions)";
  rei "^(suggest|recommend)\s+(a|an|some)?\s*(good|great|best|slow\s+burn|action|thriller|drama|comedy|horror|sci-fi|romance|mystery)\s*(movie|film)";
  rei "^(suggest|recommend)\s+(a|an|some)?\s*(slow\s+burn|underrated|hidden\s+gem|classic|recent|new|old)\s*(movie|film)?";
  rei "^(any\s+good|what\s+are\s+some\s+good|can\s+you\s+suggest|what\s+about\s+some)\s*(slow\s+burn|action|thriller|drama|comedy|horror|sci-fi|romance|mystery)?\s*(movies|films)"
].

Definition comparisonPatterns : list RegExp := [
  rei "^(which one is better|which is better|what's better|whats better)";
  rei "^(yes|yeah|yep|sure|no|nope|not really|maybe)$";
  rei "^(so this is better|is this better|better than)";
  rei "^(which one|which movie|what about)";
  rei "^(compare|comparison|vs|versus)";
  rei "^(what do you think about|your opinion|do you prefer)";
  rei "^(recommend|suggest)\s+(similar|something similar|more like)";
  rei "^(can you recommend|could you recommend|please recommend)\s+(similar|something)";
  rei "^[a-zA-Z\s'\x22-]+\s+or\s+[a-zA-Z\s'\x22-]+\??$";
  rei "^(that one|this one|the first one|the second one|that movie|this movie)";
  rei "^(more about|tell me more about|what else about)";
  rei "\b(forrest\s+gump|the\s+pianist)\s+or\s+\b";
  rei "which\s+is\s+better.*(forrest\s+gump|the\s+pianist)"
].

Definition recommendationPatterns : list RegExp := [
  rei "^(recommend|suggest|any recommendations|what should i watch)(?!\s+similar|\s+like)";
  rei "^(recommend something|suggest something|any good movies|something different|better movie)$";
  rei "^(give me|show me|find me)\s+(a|some|any)?\s*(good|better|different)?\s*(movie|film)";
  rei "^(can you recommend|could you recommend|please recommend)\s*(similar|something|a movie)";
  rei "^(recommend|suggest)\s+(similar|something similar)\s*(movie|film)?";
  rei "^(suggest|recommend)\s+(a|an|some)?\s*(good|great|best|slow\s+burn|action|thriller|drama|comedy|horror|sci-fi|romance|mystery)\s*(movie|film)";
  rei "^(suggest|recommend)\s+(a|an|some)?\s*(slow\s+burn|underrated|hidden\s+gem|classic|recent|new|old)\s*(movie|film)?";
  rei "^(any\s+good|what\s+are\s+some\s+good|can\s+you\s+suggest|what\s+about\s+some)\s*(slow\s+burn|action|thriller|drama|comedy|horror|sci-fi|romance|mystery)?\s*(movies|films)";
  rei "^(what\s+about|how\s+about)\s+(a|an|some)?\s*(good|slow\s+burn|action|thriller|drama|comedy)?\s*(movie|film)"
].

(** "Movie-specific queries that should trigger movie search". *)
Definition movieQueryPatterns : list RegExp := [
  rei "^(how is|how was|how's|hows)\s+[a-zA-Z]";
  rei "^(what about|tell me about|about)\s+[a-zA-Z][a-zA-Z\s:'-]+$";
  rei "^(give recommendation for|review)\s+[a-zA-Z]";
  rei "^[a-zA-Z][a-zA-Z\s:'-]+$";
  rei "(movie|film)\s+[a-zA-Z]";
  rei "[a-zA-Z]+\s+(movie|film)$"
].

Definition movieContextPatterns : list RegExp := [
  rei "^(no|nope|not that|different|wrong|another)\s+[a-zA-Z]";
  rei "(recent|latest|newer|new one|newest)\s+[a-zA-Z]";
  rei "(original|first|older|classic)\s+[a-zA-Z]";
  rei "(that movie|that film|this movie|this film)";
  rei "(for .+|about .+)";
  rei "(korean|japanese|french|italian|spanish|chinese).*(movie|film)";
  rei "(movie|film).*(korean|japanese|french|italian|spanish|chinese)";
  re  "20\d{2}";
  rei "goosebumps.*movie";
  rei "movie.*goosebumps";
  rei "(sequel|its sequel|part 2|part ii|part two)\s+[a-zA-Z]";
  rei "^[A-Z][a-zA-Z\s:'-]+\s+(19\d{2}|20\d{2})$";
  rei "^(it's|its)\s+(part\s+two|part\s+2|part\s+ii|sequel)";
  rei "(part\s+two|part\s+2|part\s+ii)$";
  rei "(glass\s+onion|onion\s+glass)"
].

(** [patterns.some(pattern => pattern.test(s))] *)
Definition anyTest (patterns : list RegExp) (s : string) : bool :=
  existsb (fun p => test p s) patterns.

Definition movieKeywords : list string := [
  "movie"; "film"; "watch"; "seen"; "director"; "actor"; "actress";
  "rating"; "imdb"; "review"; "plot"; "genre"; "cast"; "trailer"
].

Definition containsMovieKeywords (query : string) : bool :=
  let lowerQuery := toLowerCase query in
  existsb (fun keyword => includes lowerQuery keyword) movieKeywords.

(** [true] is "general conversation", [false] sends the query to title
    extraction. *)
Definition detectGeneralConversation (query : string) : bool :=
  let q := trim query in
  (* Check for movie-specific queries first *)
  let isMovieQuery := anyTest movieQueryPatterns q in
  if isMovieQuery then false
  else
    let isGeneral := anyTest generalPatterns q in
    let isComparison := anyTest comparisonPatterns q in
    let isRecommendationRequest := anyTest recommendationPatterns q in
    let isMovieContext := anyTest movieContextPatterns q in
    let isShort := (JS.length q <? 50)%nat in
    let hasMovieKeywords := containsMovieKeywords query in
    let isContextualResponse := test (rei "^(yes|yeah|yep|sure|no|nope)$") q in
    let hasMovieTitlePattern :=
      test (rei "^[A-Z][a-z\s:'-]+(\s\d{4})?$") q && (3 <? JS.length q)%nat in
    if isComparison then true
    else if isContextualResponse then true
    else if isRecommendationRequest && negb isMovieContext then true
    else if (isMovieContext || hasMovieTitlePattern)
            && negb isComparison && negb isContextualResponse then false
    else isGeneral || isComparison || isContextualResponse
         || (isShort && negb hasMovieKeywords && negb hasMovieTitlePattern
             && negb isMovieQuery).

Definition greetingPatterns : list string := [
  "hi"; "hello"; "hey"; "hi there"; "hello there";
  "good morning"; "good afternoon"; "good evening";
  "how are you"; "whats up"; "what's up"; "sup";
  "how is goosebumps"; "how are goosebumps"; "goosebumps"
].

Definition isGeneralGreeting (query : string) : bool :=
  let normalizedQuery := trim (toLowerCase query) in
  existsb (fun pattern =>
             String.eqb normalizedQuery pattern
             || startsWith normalizedQuery (pattern ++ " ")
             || endsWith normalizedQuery (" " ++ pattern))
          greetingPatterns.

(** ** Title resolver: the pure parts *)

(** The outcome of a call that may throw. *)
Inductive result (A : Type) : Type :=
| Ok (a : A)
| Throw (message : string).
Arguments Ok {A} a.
Arguments Throw {A} message.

Definition bindR {A B : Type} (r : result A) (k : A -> result B) : result B :=
  match r with
  | Ok a => k a
  | Throw e => Throw e
  end.

(** [movie.title.toLowerCase()]: a TypeError when the title is [undefined]. *)
Definition titleLower (m : DiscussedMovie) : result string :=
  match dm_title m with
  | Some t => Ok (toLowerCase t)
  | None => Throw "Cannot read properties of undefined (reading 'toLowerCase')"
  end.

(** [getBaseTitle] of [handleContextualQueries]. *)
Definition getBaseTitle (title : string) : string :=
  trim
    (replace (re "\s*\d+$") ""
       (replace (rei "\s*part\s+\d+") ""
          (replace (re "\s*-\s*.+$") ""
             (replace (re ":\s*.+$") ""
                (replace (re "\s*\(\d{4}\)") "" title))))).

Inductive ContextKind : Type :=
| direct_reference | sequel | sequel_inquiry | specific_movie_mention
| recommendation | clarification | recent | original | year_specific
| country_specific | comparison.

Definition contextualPatterns : list (list string * ContextKind) := [
  (["that movie"; "that film"; "it"; "this movie"; "this film"], direct_reference);
  (["sequel"; "its sequel"; "the sequel"; "follow up"; "next one"; "part 2";
    "part ii"; "part two"; "second one"; "second part"; "it's part two";
    "part two"], sequel);
  (["any sequel"; "there any sequel"; "are there sequel"; "have sequel";
    "sequels exist"], sequel_inquiry);
  (["glass onion"; "onion glass"], specific_movie_mention);
  (["recommendation"; "recommend"; "suggest"; "similar"; "like that";
    "different"; "another"; "else"], recommendation);
  (["no"; "not that"; "wrong"; "different"; "korean"; "korean movie";
    "korean version"], clarification);
  (["recent"; "latest"; "newer"; "new one"; "newest"], recent);
  (["original"; "first"; "older"; "classic"], original);
  (["2023"; "2024"; "2025"; "1984"], year_specific);
  (["korean"; "japanese"; "french"; "italian"; "spanish"; "chinese"],
   country_specific);
  (["better"; "which is better"; "compare"; "vs"; "versus"], comparison)
].

(** The static franchise-to-sequels table, in the order of its keys. *)
Definition sequelMap : list (string * list string) := [
  ("wonder woman", ["Wonder Woman 1984"; "Wonder Woman: 1984"]);
  ("sherlock holmes", ["Sherlock Holmes: A Game of Shadows"]);
  ("mission impossible",
   ["Mission: Impossible - Dead Reckoning Part One";
    "Mission: Impossible - Fallout"]);
  ("top gun", ["Top Gun: Maverick"]);
  ("avatar", ["Avatar: The Way of Water"]);
  ("batman begins", ["The Dark Knight"; "The Dark Knight Rises"]);
  ("the dark knight", ["The Dark Knight Rises"]);
  ("batman", ["Batman Returns"; "Batman Forever"; "The Dark Knight"]);
  ("spider-man", ["Spider-Man 2"; "Spider-Man 3"; "Spider-Man: No Way Home"]);
  ("iron man", ["Iron Man 2"; "Iron Man 3"]);
  ("thor", ["Thor: The Dark World"; "Thor: Ragnarok"; "Thor: Love and Thunder"]);
  ("captain america",
   ["Captain America: The Winter Soldier"; "Captain America: Civil War"]);
  ("guardians of the galaxy",
   ["Guardians of the Galaxy Vol. 2"; "Guardians of the Galaxy Vol. 3"]);
  ("toy story", ["Toy Story 2"; "Toy Story 3"; "Toy Story 4"]);
  ("john wick",
   ["John Wick: Chapter 2"; "John Wick: Chapter 3"; "John Wick: Chapter 4"]);
  ("fast and furious",
   ["2 Fast 2 Furious"; "Fast & Furious"; "Fast Five"; "Fast X"]);
  ("the matrix",
   ["The Matrix Reloaded"; "The Matrix Revolutions"; "The Matrix Resurrections"]);
  ("terminator",
   ["Terminator 2: Judgment Day"; "Terminator 3: Rise of the Machines"]);
  ("alien", ["Aliens"; "Alien 3"; "Alien: Resurrection"]);
  ("star wars", ["The Empire Strikes Back"; "Return of the Jedi"]);
  ("back to the future",
   ["Back to the Future Part II"; "Back to the Future Part III"]);
  ("the godfather", ["The Godfather Part II"; "The Godfather Part III"]);
  ("knives out", ["Glass Onion: A Knives Out Mystery"; "Glass Onion"])
].

(** [previousMovies.some(prev => prev.title.toLowerCase() === lower)] *)
Fixpoint someTitleIs (previousMovies : list DiscussedMovie) (lower : string)
  : result bool :=
  match previousMovies with
  | [] => Ok false
  | prev :: tl =>
      bindR (titleLower prev) (fun t =>
        if String.eqb t lower then Ok true else someTitleIs tl lower)
  end.

(** [sequels.find(sequel => !previousMovies.some(...) && lastTitle !== sequel)]
    with both sides lower-cased; [None] is [undefined]. *)
Fixpoint findUndiscussed (previousMovies : list DiscussedMovie)
  (lastLower : string) (sequels : list string) : result (option string) :=
  match sequels with
  | [] => Ok None
  | s :: tl =>
      bindR (someTitleIs previousMovies (toLowerCase s)) (fun discussed =>
        if negb discussed && negb (String.eqb lastLower (toLowerCase s))
        then Ok (Some s)
        else findUndiscussed previousMovies lastLower tl)
  end.

(** The loop over [Object.entries(sequelMap)]: the sequel of the first
    franchise that matches, [None] when no franchise does or when the
    value found is falsy. *)
Fixpoint lookupSequel (previousMovies : list DiscussedMovie)
  (lastLower baseLower : string) (table : list (string * list string))
  : result (option string) :=
  match table with
  | [] => Ok None
  | (franchise, sequels) :: tl =>
      if String.eqb baseLower franchise || includes baseLower franchise
         || includes franchise baseLower
      then
        bindR (findUndiscussed previousMovies lastLower sequels)
          (fun undiscussed =>
             match undiscussed with
             | Some s => Ok (if String.eqb s "" then head sequels else Some s)
             | None => Ok (head sequels)
             end)
      else lookupSequel previousMovies lastLower baseLower tl
  end.

Definition truthyString (o : option string) : option string :=
  match o with
  | Some s => if String.eqb s "" then None else Some s
  | None => None
  end.

Definition includesAny (s : string) (patterns : list string) : bool :=
  existsb (fun p => includes s p) patterns.

(** The body of the loop over [contextualPatterns] for one entry whose
    patterns occur in the query: [Some r] is [return r], [None] lets the
    loop go on. *)
Definition contextualCase (query lowerQuery : string) (lastTitle : string)
  (previousMovies : list DiscussedMovie) (patterns : list string)
  (context : ContextKind) : result (option (option string)) :=
  let baseTitle := getBaseTitle lastTitle in
  match context with
  | specific_movie_mention =>
      if includes lowerQuery "glass onion" || includes lowerQuery "onion glass"
      then Ok (Some (Some "Glass Onion"))
      else Ok (Some None)
  | direct_reference => Ok (Some (Some lastTitle))
  | recommendation | comparison => Ok (Some None)
  | sequel | sequel_inquiry =>
      bindR (lookupSequel previousMovies (toLowerCase lastTitle)
                          (toLowerCase baseTitle) sequelMap)
        (fun found =>
           match truthyString found with
           | None => Ok (Some (Some (baseTitle +:+ " 2")))
           | Some s => Ok (Some (Some s))
           end)
  | clarification =>
      if includes lowerQuery "korean"
      then Ok (Some (Some (getBaseTitle lastTitle +:+ " Korean")))
      else if includes lowerQuery "different" || includes lowerQuery "another"
      then Ok (Some None)
      else Ok (Some (Some (getBaseTitle lastTitle)))
  | country_specific =>
      match find (fun p => includes lowerQuery p) patterns with
      | Some country => Ok (Some (Some (getBaseTitle lastTitle +:+ " " +:+ country)))
      | None => Ok (Some (Some (getBaseTitle lastTitle +:+ " undefined")))
      end
  | recent => Ok (Some (Some baseTitle))
  | year_specific =>
      match match0 (re "\b(19\d{2}|20\d{2})\b") query with
      | Some year => Ok (Some (Some (baseTitle +:+ " " +:+ year)))
      | None => Ok None
      end
  | original => Ok None
  end.

Fixpoint contextualLoop (query lowerQuery : string) (lastTitle : string)
  (previousMovies : list DiscussedMovie)
  (table : list (list string * ContextKind)) : result (option string) :=
  match table with
  | [] => Ok None
  | (patterns, context) :: tl =>
      if includesAny lowerQuery patterns
      then
        bindR (contextualCase query lowerQuery lastTitle previousMovies
                              patterns context)
          (fun r =>
             match r with
             | Some answer => Ok answer
             | None =>
                 contextualLoop query lowerQuery lastTitle previousMovies tl
             end)
      else contextualLoop query lowerQuery lastTitle previousMovies tl
  end.

Definition directMoviePattern : RegExp :=
  rei "([a-zA-Z][a-zA-Z\s:'-]+(?:\s+\d{4}|\s+1984|\s+returns|\s+rises|\s+begins))".

(** [handleContextualQueries] on the conversation found in the store
    ([None]: no such conversation).  The result [None] is [null].  With
    an [undefined] last title the first [lastMovie.title.toLowerCase()]
    throws, whichever branch reaches it. *)
Definition handleContextualQueries (query : string)
  (conversation : option ConversationMemory) : result (option string) :=
  match conversation with
  | None => Ok None
  | Some conv =>
      match last (discussedMovies conv) with
      | None => Ok None
      | Some lastMovie =>
          let lowerQuery := trim (toLowerCase query) in
          let previousMovies := sliceInit (discussedMovies conv) in
          bindR (titleLower lastMovie) (fun lastLower =>
            let lastTitle := default "" (dm_title lastMovie) in
            let afterDirect : result (option string) :=
              if includes lowerQuery lastLower
              then
                if includes lowerQuery "different"
                   || includes lowerQuery "another"
                   || includes lowerQuery "else"
                   || includes lowerQuery "sequel"
                   || includes lowerQuery "1984"
                then Ok None
                else Ok (Some lastTitle)
              else
                contextualLoop query lowerQuery lastTitle previousMovies
                               contextualPatterns in
            match match0 directMoviePattern query with
            | Some matched =>
                if (3 <? JS.length matched)%nat
                   && negb (String.eqb (toLowerCase (trim matched)) lastLower)
                then Ok (Some (trim matched))
                else afterDirect
            | None => afterDirect
            end)
      end
  end.

(** *** Regex fallback *)

Definition commonWords : list string := [
  "the"; "a"; "an"; "is"; "are"; "was"; "were"; "will"; "would"; "should";
  "could";
  "yes"; "no"; "ok"; "okay"; "sure"; "yeah"; "yep"; "nope";
  "how"; "what"; "when"; "where"; "why"; "who"; "which";
  "sequel"; "sequels"; "recommendation"; "recommend"; "suggest";
  "better"; "good"; "bad"; "great"; "awesome"; "terrible";
  "recent"; "latest"; "new"; "old"; "classic"; "modern"
].

Definition isCommonWord (word : string) : bool :=
  inStrings (toLowerCase word) commonWords.

Definition directPatterns : list RegExp := [
  rei "^([a-zA-Z][a-zA-Z\s:'-]*?)\s+(19\d{2}|20\d{2})$";
  rei "^([a-zA-Z][a-zA-Z\s:'-]*?)\s+with\s+([a-zA-Z\s]+)$";
  rei "^([a-zA-Z][a-zA-Z\s:'-]*?)\s+(19\d{2}|20\d{2})\s+with\s+([a-zA-Z\s]+)$"
].

Definition specificMentions : list (string * string) := [
  ("glass onion", "Glass Onion");
  ("onion glass", "Glass Onion");
  ("part two", "part two");
  ("part 2", "part 2");
  ("part ii", "part ii")
].

(** The [g] patterns of the "more general patterns" list. *)
Definition specificPatterns : list RegExp := [
  rei "^(?:how\s+is|how\s+was|how's|hows)\s+([a-zA-Z0-9\s&:'-]+?)(?:\s*\??)$";
  rei "^(?:give\s+recommendation\s+for|recommend|review)\s+([a-zA-Z0-9\s&:'-]+?)(?:\s*\??)$";
  rei "^(?:what\s+about|tell\s+me\s+about|about)\s+([a-zA-Z0-9\s&:'-]+?)(?:\s*\??)$";
  re  "\b([A-Z][a-zA-Z\s&:'-]*(?:\s+1984|\s+19\d{2}|\s+20\d{2}))\b";
  rei "(?:movie|film)\s+[\x22\x22\x22]([^\x22\x22\x22]+)[\x22\x22\x22]";
  rei "[\x22\x22\x22]([^\x22\x22\x22]+)[\x22\x22\x22](?:\s+(?:movie|film))?";
  rei "([a-zA-Z\s]+)\s+(korean|japanese|chinese|french|italian|spanish)\s*(?:movie|film)?";
  rei "(korean|japanese|chinese|french|italian|spanish)\s+([a-zA-Z\s]+)(?:\s+movie|\s+film)?"
].

Definition cleanMatch (matched : string) : string :=
  let cleaned := trim (replaceAll (re "[\x22\x22\x22]") "" matched) in
  trim (replaceAll (rei "\b(movie|film)\b") "" cleaned).

Definition keepTitle (title : string) : bool :=
  (2 <? JS.length title)%nat && negb (isCommonWord title).

Fixpoint firstTitles (query : string) (patterns : list RegExp)
  : option (list string) :=
  match patterns with
  | [] => None
  | pattern :: tl =>
      let titles := List.filter keepTitle
                                (map cleanMatch (matchAll pattern query)) in
      match titles with
      | [] => firstTitles query tl
      | _ :: _ => Some titles
      end
  end.

Definition extractTitlesWithRegex (query : string) : list string :=
  if anyTest directPatterns (trim query) then [trim query]
  else
    let queryLower := trim (toLowerCase query) in
    match find (fun mt => includes queryLower (fst mt)) specificMentions with
    | Some (_, title) => [title]
    | None =>
        match firstTitles query specificPatterns with
        | Some titles => titles
        | None =>
            let fallbackTitle :=
              trim (replaceAll (rei "\b(movie|film)\b") "" (trim query)) in
            if isCommonWord fallbackTitle || (JS.length fallbackTitle <? 3)%nat
            then []
            else [fallbackTitle]
        end
    end.

(** The direct bypass test of [extractMovieTitles]. *)
Definition directMovieWithSpecifics : RegExp :=
  rei "^(ace|mean\s+girls|[a-zA-Z][a-zA-Z\s:'-]*)\s+(19\d{2}|20\d{2}|with\s+[a-zA-Z\s]+)$".

Definition sentinels : list string := [
  "COMPARISON_QUESTION"; "SIMPLE_RESPONSE"; "PREFERENCE_QUESTION";
  "GENERAL_RECOMMENDATION"; "SIMILAR_RECOMMENDATION"; "FOLLOW_UP_QUESTION"
].

Definition newline : string := String (ascii_of_nat 10) "".

Definition roleName (r : Role) : string :=
  match r with RoleUser => "user" | RoleAssistant => "assistant" end.

(** The context string [extractMovieTitles] sends with the query. *)
Definition conversationContextOf (conversation : option ConversationMemory)
  : string :=
  match conversation with
  | Some conv =>
      if (0 <? List.length (messages conv))%nat
      then
        let recent := sliceLast 4 (messages conv) in
        let base :=
          join newline
               (map (fun msg => roleName (role msg) +:+ ": " +:+ content msg) recent) in
        if (0 <? List.length (discussedMovies conv))%nat
        then
          base +:+ newline +:+ newline +:+ "Recently discussed: "
          +:+ join ", "
               (map (fun m => default "undefined" (dm_title m) +:+ " ("
                              +:+ optOr (dm_genre m) "Unknown" +:+ ")")
                    (sliceLast 2 (discussedMovies conv)))
        else base
      else ""
  | None => ""
  end.

(** ** Numbers: [parseFloat] *)

(** A Number value: NaN, an infinity, or a finite double given by its
    exact rational value. *)
Inductive JSNumber : Type :=
| NaN
| Infinity (negative : bool)
| Finite (q : Q).

(** The double nearest to [n / d] for [0 <= n] and [0 < d]: round to
    nearest, ties to even, 53 bits of precision, exponents from -1022
    (subnormals below) and overflow to Infinity from [2^1024]. *)
Definition roundDouble (n d : Z) : JSNumber :=
  if (n =? 0)%Z then Finite 0
  else
    let e0 := (Z.log2 n - Z.log2 d)%Z in
    let atLeast :=
      if (0 <=? e0)%Z then (d * 2 ^ e0 <=? n)%Z else (d <=? n * 2 ^ (- e0))%Z in
    let e := Z.max (if atLeast then e0 else e0 - 1)%Z (-1022)%Z in
    let sh := (52 - e)%Z in
    let num := if (0 <=? sh)%Z then (n * 2 ^ sh)%Z else n in
    let den := if (0 <=? sh)%Z then d else (d * 2 ^ (- sh))%Z in
    let m := (num / den)%Z in
    let r := (num mod den)%Z in
    let m' := if (den <? 2 * r)%Z || ((2 * r =? den)%Z && Z.odd m)
              then (m + 1)%Z else m in
    if (0 <=? sh)%Z
    then Finite (m' # Z.to_pos (2 ^ sh))
    else if (2 ^ 1024 <=? m' * 2 ^ (- sh))%Z then Infinity false
         else Finite (inject_Z (m' * 2 ^ (- sh))).

Fixpoint spanDigits (l : list ascii) : list ascii * list ascii :=
  match l with
  | c :: tl =>
      if isDigit c then let '(ds, r) := spanDigits tl in (c :: ds, r)
      else ([], l)
  | [] => ([], [])
  end.

Definition digitsValue (ds : list ascii) : Z :=
  fold_left (fun acc c => (10 * acc + Z.of_nat (code c - 48))%Z) ds 0%Z.

(** The ExponentPart at the head of [l], when it is complete. *)
Definition exponentPart (l : list ascii) : Z :=
  match l with
  | c :: tl =>
      if Ascii.eqb c "e" || Ascii.eqb c "E"
      then
        match tl with
        | "-"%char :: tl' =>
            match spanDigits tl' with
            | ([], _) => 0%Z
            | (ds, _) => (- digitsValue ds)%Z
            end
        | "+"%char :: tl' => digitsValue (fst (spanDigits tl'))
        | _ => digitsValue (fst (spanDigits tl))
        end
      else 0%Z
  | [] => 0%Z
  end.

Definition negateNumber (x : JSNumber) : JSNumber :=
  match x with
  | NaN => NaN
  | Infinity s => Infinity (negb s)
  | Finite q => Finite (- q)
  end.

(** The unsigned part of a StrDecimalLiteral: the longest prefix of [l]
    that is one. *)
Definition parseUnsigned (l : list ascii) : JSNumber :=
  if isPrefix (chars "Infinity") l then Infinity false
  else
    let '(intDigits, r1) := spanDigits l in
    let '(fracDigits, r2) :=
      match r1 with
      | "."%char :: r => spanDigits r
      | _ => ([], r1)
      end in
    match intDigits ++ fracDigits with
    | [] => NaN
    | ds =>
        let e := (exponentPart r2 - Z.of_nat (List.length fracDigits))%Z in
        if (0 <=? e)%Z then roundDouble (digitsValue ds * 10 ^ e) 1
        else roundDouble (digitsValue ds) (10 ^ (- e))
    end.

(** [parseFloat(s)] *)
Definition parseFloat (s : string) : JSNumber :=
  match dropSpaces (chars s) with
  | "-"%char :: tl => negateNumber (parseUnsigned tl)
  | "+"%char :: tl => parseUnsigned tl
  | l => parseUnsigned l
  end.

(** [x >= y] for a Number [x] and a finite [y]. *)
Definition numberGe (x : JSNumber) (y : Q) : bool :=
  match x with
  | NaN => false
  | Infinity negative => negb negative
  | Finite q => Qle_bool y q
  end.

(** [parseFloat(movieData.imdbRating || '0') >= 7.0] *)
Definition worthWatchingOf (rating : string) : bool :=
  numberGe (parseFloat (orElse rating "0")) 7.

(** ** Recommendation generator: the pure parts *)

(** The variables of the recommendation prompt. *)
Record RecommendationInput : Type := mkRecInput {
  in_contextInfo : string;
  in_title : string;
  in_year : string;
  in_rating : string;
  in_genre : string;
  in_plot : string
}.

Definition MAX_RECOMMENDATION_LENGTH : nat := 600.

(** The "safe truncation" of the generated text. *)
Definition truncateRecommendation (recommendationText : string) : string :=
  if (MAX_RECOMMENDATION_LENGTH <? JS.length recommendationText)%nat
  then
    let truncated := substring 0 MAX_RECOMMENDATION_LENGTH recommendationText in
    match lastIndexOf truncated "." with
    | Some lastSentence =>
        if (200 <? lastSentence)%nat
        then substring 0 (lastSentence + 1) truncated
        else substring 0 (MAX_RECOMMENDATION_LENGTH - 3) truncated +:+ "..."
    | None => substring 0 (MAX_RECOMMENDATION_LENGTH - 3) truncated +:+ "..."
    end
  else recommendationText.

(** The "genre-based movie recommendation database". *)
Definition genreMovies : list (string * list string) := [
  ("Action", ["John Wick"; "Mad Max: Fury Road"; "The Dark Knight"; "Terminator 2"]);
  ("Drama", ["The Shawshank Redemption"; "Forrest Gump"; "Goodfellas"; "Casablanca"]);
  ("Comedy", ["The Grand Budapest Hotel"; "Parasite"; "Superbad"; "Groundhog Day"]);
  ("Thriller", ["Gone Girl"; "Zodiac"; "Se7en"; "The Silence of the Lambs"]);
  ("Horror", ["Hereditary"; "The Conjuring"; "Get Out"; "A Quiet Place"]);
  ("Sci-Fi", ["Blade Runner 2049"; "Inception"; "Interstellar"; "The Matrix"]);
  ("Fantasy", ["The Lord of the Rings"; "Pan's Labyrinth"; "The Shape of Water"; "Big Fish"]);
  ("Romance", ["Before Sunset"; "Eternal Sunshine"; "Her"; "La La Land"]);
  ("Crime", ["Pulp Fiction"; "The Godfather"; "Fargo"; "No Country for Old Men"]);
  ("Animation", ["Spider-Man: Into the Spider-Verse"; "WALL-E"; "Your Name"; "Spirited Away"]);
  ("Adventure", ["Indiana Jones"; "Jurassic Park"; "Pirates of the Caribbean"; "Guardians of the Galaxy"]);
  ("War", ["Saving Private Ryan"; "Apocalypse Now"; "Dunkirk"; "1917"]);
  ("Documentary", ["Free Solo"; "Won't You Be My Neighbor?"; "The Act of Killing"; "March of the Penguins"]);
  ("Biography", ["The Social Network"; "Steve Jobs"; "Malcolm X"; "Gandhi"]);
  ("Mystery", ["Knives Out"; "The Prestige"; "Shutter Island"; "Prisoners"])
].

Definition fallbackPopular : list string :=
  ["The Dark Knight"; "Inception"; "Pulp Fiction"].

(** The first entry of [genreMovies] whose key contains the genre or is
    contained in it, case-insensitively. *)
Definition matchGenre (genre : string) : option (string * list string) :=
  let lowerGenre := toLowerCase genre in
  find (fun entry =>
          includes lowerGenre (toLowerCase (fst entry))
          || includes (toLowerCase (fst entry)) lowerGenre)
       genreMovies.

(** [[...movies].sort(() => 0.5 - Math.random())].  The comparator does
    not look at its arguments: each call draws the next [Math.random()],
    and its result [0.5 - r] is negative exactly when the draw is above
    0.5.  ECMAScript leaves the calls a sort makes, hence its result for
    such a comparator, to the engine.  The function runs on Deno, whose
    engine is V8; on an array of fewer than 64 elements the sort of V8
    (TimSort, [third_party/v8/builtins/array-sort.tq]) is one
    [CountAndMakeRun] followed by one [BinaryInsertionSort]:
    - the first comparison, of the second element with the first, tells
      whether the leading run is descending (a negative result) or
      ascending; the run goes on as long as the comparison of the next
      element with the one before it agrees, and the comparison that ends
      the run is made all the same; a descending run is reversed;
    - every element after the run is inserted into the sorted prefix at
      the point a binary search finds: the pivot is compared with the
      middle element, and a negative result keeps the left half.
    The rows of the table have four elements.  The second component of
    every result is the clock after the draws. *)
Definition negativeOrder (random : nat -> Q) (i : nat) : bool :=
  negb (Qle_bool (random i) (1 # 2)).

(** The loop of [CountAndMakeRun]: how many of the elements after the
    second belong to the leading run. *)
Fixpoint extendRun (random : nat -> Q) (isDescending : bool)
  (rest : list string) (i : nat) : nat * nat :=
  match rest with
  | [] => (0, i)
  | _ :: tl =>
      if Bool.eqb (negativeOrder random i) isDescending
      then let '(n, j) := extendRun random isDescending tl (S i) in (S n, j)
      else (0, S i)
  end.

(** The [while (left < right)] loop of [BinaryInsertionSort]; the
    interval shrinks at every turn, so [right - left] turns are enough. *)
Fixpoint binarySearch (random : nat -> Q) (fuel left right i : nat)
  : nat * nat :=
  match fuel with
  | O => (left, i)
  | S f =>
      if (left <? right)%nat
      then
        let mid := left + (right - left) / 2 in
        if negativeOrder random i
        then binarySearch random f left mid (S i)
        else binarySearch random f (mid + 1) right (S i)
      else (left, i)
  end.

(** [BinaryInsertionSort]: [sorted] is the prefix already in order. *)
Fixpoint binaryInsertionSort (random : nat -> Q) (sorted rest : list string)
  (i : nat) : list string * nat :=
  match rest with
  | [] => (sorted, i)
  | pivot :: tl =>
      let '(point, j) :=
        binarySearch random (List.length sorted) 0 (List.length sorted) i in
      binaryInsertionSort random
        (take point sorted ++ pivot :: drop point sorted) tl j
  end.

Definition sortRandom (random : nat -> Q) (l : list string) (i : nat)
  : list string * nat :=
  match l with
  | _ :: _ :: rest =>
      let isDescending := negativeOrder random i in
      let '(n, j) := extendRun random isDescending rest (S i) in
      let run := take (2 + n) l in
      binaryInsertionSort random (if isDescending then rev run else run)
                          (drop (2 + n) l) j
  | _ => (l, i)
  end.

(** [getSimilarMoviesByGenre]: the titles, and the clock after the draws. *)
Definition getSimilarMoviesByGenre (random : nat -> Q) (genre : string)
  (i : nat) : list string * nat :=
  match matchGenre genre with
  | Some (_, movies) =>
      let '(shuffled, j) := sortRandom random movies i in
      (take 3 shuffled, j)
  | None => (fallbackPopular, i)
  end.

Definition dq : string := String (ascii_of_nat 34) "".

(** The template of the fallback recommendation. *)
Definition fallbackText (movieData : Movie) (similarMovies : list string)
  : string :=
  let worthWatching := worthWatchingOf (m_imdbRating movieData) in
  let quality :=
    if worthWatching
    then "Worth watching with solid ratings and engaging content."
    else "Consider carefully as ratings suggest mixed reception." in
  dq +:+ m_title movieData +:+ dq +:+ " (" +:+ m_year movieData +:+ ") - "
  +:+ quality +:+ " Appeals to fans of " +:+ m_genre movieData
  +:+ " cinema and those seeking "
  +:+ (if worthWatching then "quality entertainment" else "alternative viewing")
  +:+ ". Similar movies: " +:+ join ", " (take 3 similarMovies) +:+ ".".

(** The context line of the recommendation prompt. *)
Definition contextInfoOf (conversation : option ConversationMemory)
  (movieData : Movie) : string :=
  (match conversation with
   | Some conv =>
       (if (0 <? List.length (genres (userPreferences conv)))%nat
        then "User likes: " +:+ join ", " (genres (userPreferences conv)) +:+ ". "
        else "")
       +:+ (match last (discussedMovies conv) with
            | Some recentMovie =>
                "Recently discussed: "
                +:+ default "undefined" (dm_title recentMovie) +:+ ". "
            | None => ""
            end)
   | None => ""
   end)
  +:+ (if String.eqb (m_genre movieData) "" then ""
       else "Focus genre: " +:+ m_genre movieData +:+ ". ").

(** The variables [generateRecommendation] passes to the chain. *)
Definition recommendationInputOf (conversation : option ConversationMemory)
  (movieData : Movie) : RecommendationInput :=
  {| in_contextInfo := contextInfoOf conversation movieData;
     in_title := m_title movieData;
     in_year := m_year movieData;
     in_rating := m_imdbRating movieData;
     in_genre := m_genre movieData;
     in_plot := m_plot movieData |}.

(** ** Catalog lookup: the pure parts *)

(** [extractBaseTitle] *)
Definition extractBaseTitle (title : string) : string :=
  trim
    (replace (rei "\s+starring\s+.+$") ""
       (replace (rei "\s+with\s+.+$") ""
          (replace (re "\s*-\s*.+$") ""
             (replace (re ":\s*.+$") ""
                (replace (re "\s*\(\d{4}\)") ""
                   (replace (re "\s*\d{4}$") "" title)))))).

Definition normalizeTitle (s : string) : string :=
  trim (replaceAll (re "[^\w\s]") "" (toLowerCase s)).

Definition absDiff (a b : nat) : nat := (a - b) + (b - a).

(** The score [findBestTitleMatch] gives a candidate title. *)
Definition titleScore (searchNormalized movieNormalized : string) : Z :=
  let commonWords :=
    List.length
      (List.filter (fun word => includes movieNormalized word
                                && (2 <? JS.length word)%nat)
                   (split searchNormalized " ")) in
  (Z.of_nat commonWords * 10
   - Z.of_nat (absDiff (JS.length searchNormalized) (JS.length movieNormalized)))%Z.

Fixpoint bestMatchLoop (searchNormalized : string) (movies : list RawMovie)
  (bestMatch : RawMovie) (bestScore : Z) : result RawMovie :=
  match movies with
  | [] => Ok bestMatch
  | movie :: tl =>
      match movie !! "title" with
      | None => Throw "Cannot read properties of undefined (reading 'toLowerCase')"
      | Some t =>
          let score := titleScore searchNormalized (normalizeTitle t) in
          if (bestScore <? score)%Z
          then bestMatchLoop searchNormalized tl movie score
          else bestMatchLoop searchNormalized tl bestMatch bestScore
      end
  end.

(** [findBestTitleMatch] on a non-empty list of rows. *)
Definition findBestTitleMatch (searchTitle : string) (movies : list RawMovie)
  : result RawMovie :=
  bestMatchLoop (normalizeTitle searchTitle) movies (default ∅ (head movies)) 0.

Definition searchPatterns (title : string) : list string := [
  "%" +:+ title +:+ "%";
  "%" +:+ replaceAll (re ":") "" title +:+ "%";
  "%" +:+ replaceAll (re "\s+") "%" title +:+ "%"
].

(** [a.X || a.x || fallback] on a raw movie object. *)
Definition field2 (movieData : RawMovie) (k1 k2 fallback : string) : string :=
  optOr (movieData !! k1) (optOr (movieData !! k2) fallback).



(** ** The outside world and the chain state *)

(** What a LangChain chain call returns: [text] (or [response]) and
    [llmOutput?.tokenUsage?.totalTokens]. *)
Record LlmReply : Type := mkLlmReply {
  llm_text : option string;
  llm_totalTokens : option nat
}.

Inductive Table : Type := Movies | Recommendations | Conversations.

Inductive DbVerb : Type := Select | Insert | Upsert.

(** The serialized conversation of the [conversations] table. *)
Record ConversationRow : Type := mkConversationRow {
  cr_messages : option (list Message);
  cr_discussed_movies : option (list DiscussedMovie);
  cr_user_preferences : option UserPreferences;
  cr_total_tokens : option nat;
  cr_turns : option nat
}.

Inductive DbPayload : Type :=
| NoPayload
| MoviePayload (row : RawMovie)
| RecommendationPayload (movie_id recommendation : string) (worth_watching : bool)
| ConversationPayload (conversation_id : string) (user_id : option string)
                      (conversation : ConversationMemory).

(** One request sent through the Supabase client: [from(table)], the
    verb, the filters ([(operator, column, value)]) and the payload. *)
Record DbRequest : Type := mkRequest {
  rq_table : Table;
  rq_verb : DbVerb;
  rq_filters : list (string * string * string);
  rq_payload : DbPayload
}.

Record DbError : Type := mkDbError { err_code : string; err_message : string }.

Inductive DbData : Type :=
| DNull
| DRow (row : RawMovie)
| DRows (rows : list RawMovie)
| DConversation (row : ConversationRow).

(** The [{ data, error }] object a Supabase request resolves to. *)
Record DbReply : Type := mkReply { data : DbData; error : option DbError }.

(** The collaborators of the chain.  Every call is numbered by the clock
    of the chain state, so that a collaborator may answer differently
    each time it is asked.  [fetchOMDB] is the outcome of [searchOMDB] for
    a list of titles: its title analysis, search variations, sorting and
    actor matching only decide which catalog entry the HTTP API yields,
    and it touches neither the chain state nor Supabase. *)
Record World : Type := mkWorld {
  dateNow : nat -> Z;
  toISOString : nat -> string;
  randomUUID : nat -> string;
  mathRandom : nat -> Q;
  supabase : nat -> DbRequest -> result DbReply;
  titleExtractionChain : nat -> string -> string -> result LlmReply;
  recommendationChain : nat -> RecommendationInput -> result LlmReply;
  conversationChain : nat -> list (Role * string) -> string -> result LlmReply;
  omdbApiKey : string;
  fetchOMDB : nat -> list string -> option RawMovie
}.

(** The fields of a [MovieButlerChain] instance that change, and the log
    of the requests it has sent to Supabase, oldest first. *)
Record ChainState : Type := mkState {
  conversationStore : gmap string ConversationMemory;
  chatHistory : list (Role * string);
  requests : list DbRequest;
  clock : nat
}.

(** A method of the chain: it may change the state and may throw; the
    changes made before a throw stay. *)
Definition M (A : Type) : Type := ChainState -> result A * ChainState.

Definition ret {A : Type} (a : A) : M A := fun st => (Ok a, st).

Definition bind {A B : Type} (m : M A) (k : A -> M B) : M B :=
  fun st =>
    match m st with
    | (Ok a, st') => k a st'
    | (Throw e, st') => (Throw e, st')
    end.

Definition throw {A : Type} (e : string) : M A := fun st => (Throw e, st).

(** [try { m } catch (error) { handler(error.message) }] *)
Definition tryCatch {A : Type} (m : M A) (handler : string -> M A) : M A :=
  fun st =>
    match m st with
    | (Ok a, st') => (Ok a, st')
    | (Throw e, st') => handler e st'
    end.

Declare Scope chain_scope.
Delimit Scope chain_scope with chain.
Notation "'let*' x := m 'in' k" := (bind m (fun x => k))
  (at level 10, x name, m at level 100, k at level 200, only parsing)
  : chain_scope.
Local Open Scope chain_scope.

Definition liftResult {A : Type} (r : result A) : M A := fun st => (r, st).

(** The number of the next call, which is then used up. *)
Definition tick : M nat :=
  fun st =>
    (Ok (clock st),
     {| conversationStore := conversationStore st;
        chatHistory := chatHistory st;
        requests := requests st;
        clock := S (clock st) |}).

Definition getStore (conversationId : string) : M (option ConversationMemory) :=
  fun st => (Ok (conversationStore st !! conversationId), st).

(** [this.conversationStore.set(conversationId, conversation)], also the
    effect of mutating the stored object in place. *)
Definition setStore (conversationId : string) (c : ConversationMemory) : M unit :=
  fun st =>
    (Ok tt,
     {| conversationStore := <[conversationId := c]> (conversationStore st);
        chatHistory := chatHistory st;
        requests := requests st;
        clock := clock st |}).

Definition getHistory : M (list (Role * string)) :=
  fun st => (Ok (chatHistory st), st).

Definition setHistory (h : list (Role * string)) : M unit :=
  fun st =>
    (Ok tt,
     {| conversationStore := conversationStore st;
        chatHistory := h;
        requests := requests st;
        clock := clock st |}).

Definition logRequest (rq : DbRequest) : M unit :=
  fun st =>
    (Ok tt,
     {| conversationStore := conversationStore st;
        chatHistory := chatHistory st;
        requests := requests st ++ [rq];
        clock := clock st |}).

(** Interpretation of [data] by the code that receives it. *)
Definition asRow (d : DbData) : option RawMovie :=
  match d with
  | DNull => None
  | DRow r => Some r
  | DRows _ => Some ∅
  | DConversation _ => Some ∅
  end.

Definition asRows (d : DbData) : list RawMovie :=
  match d with
  | DRows l => l
  | _ => []
  end.

Definition asConversation (d : DbData) : option ConversationRow :=
  match d with
  | DNull => None
  | DConversation c => Some c
  | _ => Some (mkConversationRow None None None None None)
  end.

Section Chain.

Context (W : World).

Definition now : M Z := let* n := tick in ret (dateNow W n).
Definition isoNow : M string := let* n := tick in ret (toISOString W n).
Definition newUUID : M string := let* n := tick in ret (randomUUID W n).

(** [await this.supabase.from(table)...]: the request is sent (and
    logged) and the reply, or the exception, comes from the world. *)
Definition request (rq : DbRequest) : M DbReply :=
  let* n := tick in let* _ := logRequest rq in liftResult (supabase W n rq).

(** *** Conversation store *)

Definition errorIsNot (code : string) (e : option DbError) : bool :=
  match e with
  | Some err => negb (String.eqb (err_code err) code)
  | None => false
  end.

Definition conversationOfRow (row : ConversationRow) : ConversationMemory :=
  {| messages := default [] (cr_messages row);
     discussedMovies := default [] (cr_discussed_movies row);
     userPreferences :=
       default {| genres := []; lastContext := "" |} (cr_user_preferences row);
     totalTokens := default 0 (cr_total_tokens row);
     turnCount := default 0 (cr_turns row) |}.

Definition loadConversation (conversationId : string) : M ConversationMemory :=
  let* stored := getStore conversationId in
  match stored with
  | Some conversation => ret conversation
  | None =>
      let* loaded :=
        tryCatch
          (let* reply := request (mkRequest Conversations Select
                               [("eq", "conversation_id", conversationId)]
                               NoPayload) in
           match asConversation (data reply) with
           | Some row =>
               let conversation := conversationOfRow row in
               let* _ := setStore conversationId conversation in
               ret (Some conversation)
           | None => ret None
           end)
          (fun _ => ret None) in
      match loaded with
      | Some conversation => ret conversation
      | None =>
          let* _ := setStore conversationId emptyConversation in
          ret emptyConversation
      end
  end.

Definition saveUserMessage (conversationId message : string) : M unit :=
  let* stored := getStore conversationId in
  match stored with
  | None => ret tt
  | Some conversation =>
      let* t := now in
      setStore conversationId (addUserMessage t message conversation)
  end.

(** Never throws: the request is wrapped in [try]/[catch] and its error
    is only logged. *)
Definition saveConversationToDatabase (conversationId : string)
  (conversation : ConversationMemory) (user : option string) : M unit :=
  tryCatch
    (let* i1 := isoNow in
     let* i2 := isoNow in
     let* _ := request (mkRequest Conversations Upsert []
                        (ConversationPayload conversationId
                           (if truthy user then user else None) conversation)) in
     ret tt)
    (fun _ => ret tt).

Definition saveAssistantMessage (conversationId message : string)
  (movieData : option Movie) (user : option string) : M unit :=
  let* stored := getStore conversationId in
  match stored with
  | None => ret tt
  | Some conversation =>
      let* t := now in
      let conversation' := addAssistantMessage t message movieData conversation in
      let* _ := setStore conversationId conversation' in
      saveConversationToDatabase conversationId conversation' user
  end.

(** *** General conversation *)

Definition defaultReply : string :=
  "I'm here to help you discover great movies! What film interests you?".

Definition describeMovie (m : DiscussedMovie) : string :=
  String (ascii_of_nat 34) "" +:+ default "undefined" (dm_title m)
  +:+ String (ascii_of_nat 34) "" +:+ " (" +:+ optOr (dm_genre m) "Unknown"
  +:+ ", " +:+ optOr (dm_rating m) "N/A" +:+ "/10)".

(** The rebuild of the LangChain window memory from the stored
    conversation. *)
Definition rebuiltHistory (conv : ConversationMemory) : list (Role * string) :=
  let previousMessages := sliceLast 8 (sliceInit (messages conv)) in
  map (fun msg => (role msg, content msg)) previousMessages
  ++ (if (0 <? List.length (discussedMovies conv))%nat
      then [(RoleAssistant,
             "Context: Recently discussed movies: "
             +:+ join ", " (map describeMovie (sliceLast 3 (discussedMovies conv))))]
      else []).

(** The reply of [handleGeneralConversation] and of the early exits of
    [processQuery]: [message] and, when present, [conversation]. *)
Record ChatReply : Type := mkChatReply {
  cr_message : string;
  cr_conversation : option (nat * nat)
}.

Definition handleGeneralConversation (context : ChainContext) : M ChatReply :=
  tryCatch
    (let* conversation := getStore (conversationId context) in
     let isNewConversation :=
       match conversation with
       | Some conv => (List.length (messages conv) <=? 1)%nat
       | None => true
       end in
     let* currentMemory := getHistory in
     let* _ :=
       match conversation with
       | Some conv =>
           let shouldRebuildMemory :=
             (List.length currentMemory =? 0)%nat
             || (List.length currentMemory + 1 <? List.length (messages conv))%nat in
           if shouldRebuildMemory && (1 <? List.length (messages conv))%nat
           then setHistory (rebuiltHistory conv)
           else ret tt
       | None => ret tt
       end in
     let* history := getHistory in
     let* n := tick in
     let* response := liftResult (conversationChain W n history (query context)) in
     (* the chain saves the exchange in its memory *)
     let* _ := setHistory (history ++ [(RoleUser, query context);
                                       (RoleAssistant, default "" (llm_text response))]) in
     let tokensUsed := default 0 (llm_totalTokens response) in
     let generated :=
       match llm_text response with
       | Some t => orElse (trim t) defaultReply
       | None => defaultReply
       end in
     let responseText :=
       if isNewConversation && isGeneralGreeting (query context)
       then "Hello! I'm your movie advisor. What film has caught your interest today?"
       else generated in
     let* _ :=
       match conversation with
       | Some conv =>
           setStore (conversationId context)
             {| messages := messages conv;
                discussedMovies := discussedMovies conv;
                userPreferences := userPreferences conv;
                totalTokens := totalTokens conv + tokensUsed;
                turnCount := turnCount conv |}
       | None => ret tt
       end in
     let* _ := saveAssistantMessage (conversationId context) responseText None
                                    (userId context) in
     let* final := getStore (conversationId context) in
     ret {| cr_message := responseText;
            cr_conversation :=
              Some (match final with
                    | Some conv =>
                        (if (turnCount conv =? 0)%nat then 1 else turnCount conv,
                         if (totalTokens conv =? 0)%nat then tokensUsed
                         else totalTokens conv)
                    | None => (1, tokensUsed)
                    end) |})
    (fun _ =>
       let* _ := saveAssistantMessage (conversationId context) defaultReply None
                                      (userId context) in
       ret {| cr_message := defaultReply; cr_conversation := None |}).

(** *** Title resolver *)

Definition addTokens (conversationId : string) (tokensUsed : nat) : M unit :=
  let* conversation := getStore conversationId in
  match conversation with
  | Some conv =>
      setStore conversationId
        {| messages := messages conv;
           discussedMovies := discussedMovies conv;
           userPreferences := userPreferences conv;
           totalTokens := totalTokens conv + tokensUsed;
           turnCount := turnCount conv |}
  | None => ret tt
  end.

Definition extractMovieTitles (query conversationId : string) : M (list string) :=
  (* direct movie queries with year/actor bypass contextual handling *)
  if test directMovieWithSpecifics (trim query)
  then ret [trim query]
  else
    let* stored := getStore conversationId in
    let* contextualTitle := liftResult (handleContextualQueries query stored) in
    match truthyString contextualTitle with
    | Some title => ret [title]
    | None =>
        let* conversation := getStore conversationId in
        let conversationContext := conversationContextOf conversation in
        let* fromModel :=
          tryCatch
            (let* n := tick in
             let* reply :=
               liftResult (titleExtractionChain W n conversationContext query) in
             let tokensUsed := default 0 (llm_totalTokens reply) in
             let extractedTitle := option_map trim (llm_text reply) in
             match extractedTitle with
             | Some title =>
                 if inStrings title sentinels
                 then
                   let* _ := addTokens conversationId tokensUsed in
                   ret (Some [])
                 else if (0 <? JS.length title)%nat && negb (String.eqb title "N/A")
                 then
                   let* _ := addTokens conversationId tokensUsed in
                   ret (Some [title])
                 else ret None
             | None => ret None
             end)
            (fun _ => ret None) in
        match fromModel with
        | Some titles => ret titles
        | None => ret (extractTitlesWithRegex query)
        end
    end.



(** *** Catalog lookup *)

Definition movieSelect (op value : string) (user : string) : DbRequest :=
  mkRequest Movies Select [(op, "title", value); ("eq", "user_id", user)] NoPayload.

(** The three fuzzy queries for one title: the best match of the first
    query that answers with rows and no error. *)
Fixpoint fuzzySearch (title user : string) (patterns : list string)
  : M (option RawMovie) :=
  match patterns with
  | [] => ret None
  | pattern :: tl =>
      let* reply := request (movieSelect "ilike" pattern user) in
      match error reply with
      | Some _ => fuzzySearch title user tl
      | None =>
          match asRows (data reply) with
          | [] => fuzzySearch title user tl
          | fuzzyMatches =>
              let* bestMatch := liftResult (findBestTitleMatch title fuzzyMatches) in
              ret (Some bestMatch)
          end
      end
  end.

Fixpoint searchTitles (titles : list string) (user : string)
  : M (option RawMovie) :=
  match titles with
  | [] => ret None
  | title :: tl =>
      let* reply := request (movieSelect "ilike" title user) in
      match asRow (data reply) with
      | Some exactMatch => ret (Some exactMatch)
      | None =>
          let* fuzzy := fuzzySearch title user (searchPatterns title) in
          match fuzzy with
          | Some bestMatch => ret (Some bestMatch)
          | None => searchTitles tl user
          end
      end
  end.

(** [searchDatabase]: without a user id nothing is asked. *)
Definition searchDatabase (titles : list string) (user : option string)
  : M (option RawMovie) :=
  match user with
  | Some u =>
      if String.eqb u "" then ret None
      else tryCatch (searchTitles titles u) (fun _ => ret None)
  | None => ret None
  end.

Definition recommendationSelect (movieId : string) : DbRequest :=
  mkRequest Recommendations Select [("eq", "movie_id", movieId)] NoPayload.

Definition getExistingRecommendation (movieData : Movie) (user : option string)
  : M (option RawMovie) :=
  tryCatch
    (if truthy user && negb (String.eqb (m_imdbID movieData) "")
     then
       let* r1 := request (mkRequest Movies Select
                             [("eq", "user_id", default "" user);
                              ("eq", "imdbid", m_imdbID movieData)] NoPayload) in
       if errorIsNot "PGRST116" (error r1) then ret None
       else
         match asRow (data r1) with
         | Some userMovie =>
             let* r2 := request (recommendationSelect
                                   (default "undefined" (userMovie !! "id"))) in
             if errorIsNot "PGRST116" (error r2) then ret None
             else ret (asRow (data r2))
         | None => ret None
         end
     else
       let* r := request (recommendationSelect (m_id movieData)) in
       if errorIsNot "PGRST116" (error r) then ret None
       else ret (asRow (data r)))
    (fun _ => ret None).

Definition searchOMDB (titles : list string) : M (option RawMovie) :=
  if String.eqb (omdbApiKey W) "" then ret None
  else let* n := tick in ret (fetchOMDB W n titles).

Definition normalizeMovieData (movieData : RawMovie) : M Movie :=
  let* id :=
    match truthyString (movieData !! "id") with
    | Some id => ret id
    | None => newUUID
    end in
  let* created :=
    match truthyString (movieData !! "created_at") with
    | Some t => ret t
    | None => isoNow
    end in
  ret {| m_id := id;
         m_title := field2 movieData "Title" "title" "";
         m_year := field2 movieData "Year" "year" "";
         m_imdbID := field2 movieData "imdbID" "imdbid" "";
         m_poster := field2 movieData "Poster" "poster" "";
         m_imdbRating := field2 movieData "imdbRating" "imdbrating" "N/A";
         m_imdbVotes := field2 movieData "imdbVotes" "imdbvotes" "";
         m_plot := field2 movieData "Plot" "plot" "";
         m_director := field2 movieData "Director" "director" "";
         m_actors := field2 movieData "Actors" "actors" "";
         m_genre := field2 movieData "Genre" "genre" "";
         m_created_at := created |}.

(** *** Recommendation generator *)

(** [this.getSimilarMoviesByGenre(genre)], drawing from [Math.random]. *)
Definition similarMovies (genre : string) : M (list string) :=
  fun st =>
    let '(titles, j) := getSimilarMoviesByGenre (mathRandom W) genre (clock st) in
    (Ok titles,
     {| conversationStore := conversationStore st;
        chatHistory := chatHistory st;
        requests := requests st;
        clock := j |}).

(** The [catch] branch of [generateRecommendation]. *)
Definition fallbackRecommendation (movieData : Movie) : M Recommendation :=
  let* similar := similarMovies (orElse (m_genre movieData) "Drama") in
  let worthWatching := worthWatchingOf (m_imdbRating movieData) in
  let* id := newUUID in
  let* created := isoNow in
  ret {| r_id := id;
         r_movie_id := m_id movieData;
         r_recommendation := fallbackText movieData similar;
         r_worth_watching := worthWatching;
         r_created_at := created;
         r_tokensUsed := 0 |}.

Definition generateRecommendation (movieData : Movie) (conversationId : string)
  : M Recommendation :=
  tryCatch
    (let* conversation := getStore conversationId in
     let* n := tick in
     let* response :=
       liftResult
         (recommendationChain W n (recommendationInputOf conversation movieData)) in
     let tokensUsed := default 0 (llm_totalTokens response) in
     let recommendationText :=
       truncateRecommendation
         (match llm_text response with Some t => trim t | None => "" end) in
     let worthWatching := worthWatchingOf (m_imdbRating movieData) in
     let* _ := addTokens conversationId tokensUsed in
     let* id := newUUID in
     let* created := isoNow in
     ret {| r_id := id;
            r_movie_id := m_id movieData;
            r_recommendation := recommendationText;
            r_worth_watching := worthWatching;
            r_created_at := created;
            r_tokensUsed := tokensUsed |})
    (fun _ => fallbackRecommendation movieData).

(** *** Persistence of a movie *)

Record SavedData : Type := mkSaved {
  sv_success : bool;
  sv_movieId : option string
}.

Definition movieRow (movieData : Movie) (user : string) : RawMovie :=
  list_to_map [
    ("title", m_title movieData); ("year", m_year movieData);
    ("imdbid", m_imdbID movieData); ("poster", m_poster movieData);
    ("imdbrating", m_imdbRating movieData); ("imdbvotes", m_imdbVotes movieData);
    ("plot", m_plot movieData); ("director", m_director movieData);
    ("actors", m_actors movieData); ("genre", m_genre movieData);
    ("user_id", user)
  ].

Definition saveToDatabase (movieData : Movie) (user : string) : M SavedData :=
  tryCatch
    (let* found := request (mkRequest Movies Select
                              [("eq", "user_id", user);
                               ("eq", "imdbid", m_imdbID movieData)] NoPayload) in
     match asRow (data found) with
     | Some existingUserMovie =>
         ret {| sv_success := true; sv_movieId := existingUserMovie !! "id" |}
     | None =>
         let* saved := request (mkRequest Movies Insert []
                                  (MoviePayload (movieRow movieData user))) in
         match error saved with
         | Some _ => ret {| sv_success := false; sv_movieId := Some (m_id movieData) |}
         | None =>
             match asRow (data saved) with
             | Some dbMovie =>
                 ret {| sv_success := true; sv_movieId := dbMovie !! "id" |}
             | None => throw "Cannot read properties of null (reading 'id')"
             end
         end
     end)
    (fun _ => ret {| sv_success := false; sv_movieId := None |}).

Definition withId (movieData : Movie) (id : string) : Movie :=
  {| m_id := id;
     m_title := m_title movieData; m_year := m_year movieData;
     m_imdbID := m_imdbID movieData; m_poster := m_poster movieData;
     m_imdbRating := m_imdbRating movieData; m_imdbVotes := m_imdbVotes movieData;
     m_plot := m_plot movieData; m_director := m_director movieData;
     m_actors := m_actors movieData; m_genre := m_genre movieData;
     m_created_at := m_created_at movieData |}.

(** *** [processQuery] *)

(** The recommendation part of the final response. *)
Record RecommendationRecord : Type := mkRecRecord {
  rec_id : option string;
  rec_movie_id : string;
  rec_recommendation : option string;
  rec_worth_watching : option string;
  rec_created_at : option string
}.

Inductive Response : Type :=
| ChatResponse (reply : ChatReply)
| MovieResponse (message : string) (movie : Movie)
                (recommendation : RecommendationRecord)
                (turnCount totalTokens : nat)
| ErrorResponse (error : string).

Definition lastDiscussed (conversationId : string) : M (option DiscussedMovie) :=
  let* conversation := getStore conversationId in
  ret (match conversation with
       | Some conv => last (discussedMovies conv)
       | None => None
       end).

Definition shownTitle (m : DiscussedMovie) : string :=
  default "undefined" (dm_title m).

(** The reply when no title was extracted. *)
Definition noTitleMessage (query : string) (lastMovie : option DiscussedMovie)
  : string :=
  match lastMovie with
  | Some m =>
      if test (rei "sequel|next|follow.up|part\s+2|part\s+ii|1984") query
      then "I understand you're looking for a sequel or different version of "
           +:+ dq +:+ shownTitle m +:+ dq
           +:+ ". Could you be more specific? For example, try "
           +:+ dq +:+ "Wonder Woman 1984" +:+ dq
           +:+ " if you're looking for that specific movie."
      else "I'm not sure which movie you're referring to. Are you asking about "
           +:+ dq +:+ shownTitle m +:+ dq
           +:+ " or a different film? Please clarify."
  | None =>
      "I couldn't identify a movie in your query. Could you please specify which movie you're asking about?"
  end.

(** The reply when neither the store nor the catalog knows the title. *)
Definition notFoundMessage (query title : string)
  (lastMovie : option DiscussedMovie) : string :=
  match lastMovie with
  | Some m =>
      if includes (toLowerCase title) "korean"
         || includes (toLowerCase title) "japanese"
         || includes (toLowerCase query) "korean"
         || includes (toLowerCase query) "japanese"
      then "I couldn't find a Korean version of " +:+ dq +:+ shownTitle m +:+ dq
           +:+ ". You might be thinking of a different Korean film with a similar theme. Could you provide more details or try searching for specific Korean movie titles?"
      else "I couldn't find " +:+ dq +:+ title +:+ dq
           +:+ ". Are you looking for something similar to "
           +:+ dq +:+ shownTitle m +:+ dq
           +:+ " that we discussed earlier, or a completely different movie?"
  | None =>
      "I couldn't find information about " +:+ dq +:+ title +:+ dq
      +:+ ". Could you check the spelling or try asking about a different movie?"
  end.

(** The anti-repetition check: does the extracted title repeat the last
    movie while the user asks for something different? *)
Definition repeatsLastMovie (query : string) (movieTitles : list string)
  (lastMovie : option DiscussedMovie) : result bool :=
  match lastMovie, movieTitles with
  | Some m, first :: _ =>
      if test (rei "sequel|different|another|else|1984|new|next") query
      then
        let extractedTitle := toLowerCase first in
        bindR (titleLower m) (fun lastTitle =>
          Ok (String.eqb extractedTitle lastTitle
              || String.eqb (extractBaseTitle extractedTitle)
                            (extractBaseTitle lastTitle)))
      else Ok false
  | _, _ => Ok false
  end.

(** [discussedMovies.some(m => m.title.toLowerCase() === lower)] *)
Definition isRepeated (conversation : option ConversationMemory) (lower : string)
  : result bool :=
  match conversation with
  | Some conv => someTitleIs (discussedMovies conv) lower
  | None => Ok false
  end.

Definition chatOnly (context : ChainContext) (message : string) : M Response :=
  let* _ := saveAssistantMessage (conversationId context) message None
                                 (userId context) in
  ret (ChatResponse {| cr_message := message; cr_conversation := None |}).

(** The part of [processQuery] that follows a successful lookup. *)
Definition recommendMovie (context : ChainContext) (movieData : RawMovie)
  : M Response :=
  let* normalized := normalizeMovieData movieData in
  let* normalizedMovie :=
    match userId context with
    | Some u =>
        if String.eqb u "" then ret normalized
        else
          let* savedData := saveToDatabase normalized u in
          match truthyString (sv_movieId savedData) with
          | Some id => ret (withId normalized id)
          | None => ret normalized
          end
    | None => ret normalized
    end in
  let* existing := getExistingRecommendation normalizedMovie (userId context) in
  match existing with
  | Some existingRecommendation =>
      let chatMessage :=
        "Here's my detailed recommendation for " +:+ dq
        +:+ m_title normalizedMovie +:+ dq +:+ " ("
        +:+ m_year normalizedMovie +:+ ")." in
      let* conversation := getStore (conversationId context) in
      let* _ := saveAssistantMessage (conversationId context) chatMessage
                                     (Some normalizedMovie) (userId context) in
      ret (MovieResponse chatMessage normalizedMovie
             {| rec_id := existingRecommendation !! "id";
                rec_movie_id := m_id normalizedMovie;
                rec_recommendation := existingRecommendation !! "recommendation";
                rec_worth_watching := existingRecommendation !! "worth_watching";
                rec_created_at := existingRecommendation !! "created_at" |}
             (S (default 0 (option_map turnCount conversation)))
             (default 0 (option_map totalTokens conversation)))
  | None =>
      let* recommendation :=
        generateRecommendation normalizedMovie (conversationId context) in
      let* _ :=
        if truthy (userId context)
           && negb (String.eqb (m_id normalizedMovie) "")
        then
          let* _ := request (mkRequest Recommendations Insert []
                               (RecommendationPayload
                                  (m_id normalizedMovie)
                                  (r_recommendation recommendation)
                                  (r_worth_watching recommendation))) in
          ret tt
        else ret tt in
      let* currentConversation := getStore (conversationId context) in
      let* isRepeatedMovie :=
        liftResult (isRepeated currentConversation
                               (toLowerCase (m_title normalizedMovie))) in
      let assistantMessage :=
        if isRepeatedMovie
        then "Here's the detailed recommendation for " +:+ dq
             +:+ m_title normalizedMovie +:+ dq +:+ " again."
        else "Great choice! Here's my detailed take on " +:+ dq
             +:+ m_title normalizedMovie +:+ dq +:+ " ("
             +:+ m_year normalizedMovie +:+ ")." in
      let* _ := saveAssistantMessage (conversationId context) assistantMessage
                                     (Some normalizedMovie) (userId context) in
      let* conversation := getStore (conversationId context) in
      ret (MovieResponse assistantMessage normalizedMovie
             {| rec_id := Some (r_id recommendation);
                rec_movie_id := m_id normalizedMovie;
                rec_recommendation := Some (r_recommendation recommendation);
                rec_worth_watching :=
                  Some (if r_worth_watching recommendation then "true" else "false");
                rec_created_at := Some (r_created_at recommendation) |}
             (S (default 0 (option_map turnCount conversation)))
             (default 0 (option_map totalTokens conversation)
              + r_tokensUsed recommendation))
  end.

(** The movie path of [processQuery]: steps 4 to 13. *)
Definition processMovieQuery (context : ChainContext) : M Response :=
  let* movieTitles := extractMovieTitles (query context) (conversationId context) in
  match movieTitles with
  | [] =>
      let* lastMovie := lastDiscussed (conversationId context) in
      chatOnly context (noTitleMessage (query context) lastMovie)
  | first :: _ =>
      let* lastMovie := lastDiscussed (conversationId context) in
      let* repeated :=
        liftResult (repeatsLastMovie (query context) movieTitles lastMovie) in
      if (repeated : bool)
      then
        chatOnly context
          ("I see you mentioned " +:+ dq +:+ first +:+ dq
           +:+ ", but it seems like you might be looking for a different movie or sequel. Could you be more specific? For example, if you're looking for Wonder Woman's sequel, try "
           +:+ dq +:+ "Wonder Woman 1984" +:+ dq +:+ ".")
      else
        let* fromStore := searchDatabase movieTitles (userId context) in
        let* movieData :=
          match fromStore with
          | Some row => ret (Some row)
          | None => searchOMDB movieTitles
          end in
        match movieData with
        | None =>
            let* lastMovie' := lastDiscussed (conversationId context) in
            chatOnly context (notFoundMessage (query context) first lastMovie')
        | Some row => recommendMovie context row
        end
  end.

Definition processQuery (context : ChainContext) : M Response :=
  tryCatch
    (let* _ := loadConversation (conversationId context) in
     let* _ := saveUserMessage (conversationId context) (query context) in
     if detectGeneralConversation (query context)
     then
       let* reply := handleGeneralConversation context in
       ret (ChatResponse reply)
     else processMovieQuery context)
    (fun _ =>
       ret (ErrorResponse
              "An error occurred while processing your request. Please try again.")).

End Chain.

(** ** Notions used by the statements *)







(** ** Sample collaborators and data for the examples *)

(** A world whose language model and store fail on every call and whose
    random source always answers [r]. *)
Definition failingWorld (r : Q) : World :=
  {| dateNow := fun n => Z.of_nat n;
     toISOString := fun _ => "2025-06-05T07:07:47.000Z";
     randomUUID := fun n => "uuid-" +:+ natToString n;
     mathRandom := fun _ => r;
     supabase := fun _ _ => Throw "network error";
     titleExtractionChain := fun _ _ _ => Throw "model error";
     recommendationChain := fun _ _ => Throw "model error";
     conversationChain := fun _ _ _ => Throw "model error";
     omdbApiKey := "key";
     fetchOMDB := fun _ _ => None |}.

(** A world whose title-extraction chain answers [title], whose
    recommendation chain answers [text] and whose catalog knows at most
    one movie. *)
Definition answeringWorld (title text : string) (catalog : option RawMovie)
  : World :=
  {| dateNow := fun n => Z.of_nat n;
     toISOString := fun _ => "2025-06-05T07:07:47.000Z";
     randomUUID := fun n => "uuid-" +:+ natToString n;
     mathRandom := fun _ => 0%Q;
     supabase := fun _ _ => Ok {| data := DNull; error := None |};
     titleExtractionChain :=
       fun _ _ _ => Ok {| llm_text := Some title; llm_totalTokens := Some 12 |};
     recommendationChain :=
       fun _ _ => Ok {| llm_text := Some text; llm_totalTokens := Some 40 |};
     conversationChain :=
       fun _ _ _ => Ok {| llm_text := Some "Hello"; llm_totalTokens := Some 5 |};
     omdbApiKey := "key";
     fetchOMDB := fun _ _ => catalog |}.

Definition emptyState : ChainState :=
  {| conversationStore := ∅; chatHistory := []; requests := []; clock := 0 |}.

Definition sampleMovie (rating genre : string) : Movie :=
  {| m_id := "m1"; m_title := "Heat"; m_year := "1995"; m_imdbID := "tt0113277";
     m_poster := ""; m_imdbRating := rating; m_imdbVotes := "700,000";
     m_plot := "A group of professional bank robbers."; m_director := "Michael Mann";
     m_actors := "Al Pacino, Robert De Niro"; m_genre := genre;
     m_created_at := "2025-06-05T07:07:47.000Z" |}.

(** A conversation whose discussed movies have the given titles. *)
Definition conversationAbout (titles : list string) : ConversationMemory :=
  {| messages := [];
     discussedMovies := map (fun t => mkDiscussed (Some t) (Some "Action") (Some "7.4")) titles;
     userPreferences := {| genres := []; lastContext := "" |};
     totalTokens := 0;
     turnCount := 0 |}.

Definition stateWith (id : string) (c : ConversationMemory) : ChainState :=
  {| conversationStore := {[ id := c ]}; chatHistory := []; requests := [];
     clock := 0 |}.

(** A generated text of 879 characters, full stops all along. *)
Definition longText : string :=
  String.concat "" (repeat "Heat is a crime saga. " 40).

(** A genre text matches a genre of the table when, letter case aside,
    one of the two contains the other. *)
Definition genreMatches (genre key : string) : bool :=
  includes (toLowerCase genre) (toLowerCase key)
  || includes (toLowerCase key) (toLowerCase genre).

(** The three similar titles of a fallback text are three distinct titles
    of the genre row that matched, or the fixed popular titles. *)
Definition similarFrom (genre : string) (titles : list string) : Prop :=
  match matchGenre genre with
  | Some (_, row) =>
      List.length titles = 3 /\ NoDup titles /\ (forall t, In t titles -> In t row)
  | None => titles = fallbackPopular
  end.

(** The position reached from one whose previous character is [prev]
    after reading [l]. *)
Fixpoint after (prev : option ascii) (l : list ascii) : option ascii :=
  match l with
  | [] => prev
  | c :: tl => after (Some c) tl
  end.

(** The two shapes of a "direct movie query with specifics", stated on
    the characters of the trimmed query.  A title is a letter followed by
    letters, white space, colons, apostrophes and hyphens; a year is 19 or
    20 followed by two digits; a name is made of letters and white
    space; the word "with" is read case-insensitively. *)
Definition isTitleChar (c : ascii) : bool :=
  isLetter c || isSpace c || Ascii.eqb c ":" || Ascii.eqb c "'" || Ascii.eqb c "-".

Definition isNameChar (c : ascii) : bool := isLetter c || isSpace c.

Inductive WordsYear : list ascii -> Prop :=
| words_year (first : ascii) (rest gap : list ascii) (c1 c2 d1 d2 : ascii) :
    isLetter first = true ->
    forallb isTitleChar rest = true ->
    gap <> [] -> forallb isSpace gap = true ->
    (c1 = "1"%char /\ c2 = "9"%char) \/ (c1 = "2"%char /\ c2 = "0"%char) ->
    isDigit d1 = true -> isDigit d2 = true ->
    WordsYear (first :: rest ++ gap ++ [c1; c2; d1; d2]).

Inductive WordsWithName : list ascii -> Prop :=
| words_with_name (first : ascii) (rest gap1 : list ascii) (w i t h : ascii)
                  (gap2 name : list ascii) :
    isLetter first = true ->
    forallb isTitleChar rest = true ->
    gap1 <> [] -> forallb isSpace gap1 = true ->
    map lowerChar [w; i; t; h] = chars "with" ->
    gap2 <> [] -> forallb isSpace gap2 = true ->
    name <> [] -> forallb isNameChar name = true ->
    WordsWithName (first :: rest ++ gap1 ++ [w; i; t; h] ++ gap2 ++ name).

(** The parts of the bypass pattern, named for the proofs. *)
Definition titleRegex : regex :=
  Seq (Class false [CRange "a" "z"; CRange "A" "Z"])
      (Rep 0 None true
         (Class false [CRange "a" "z"; CRange "A" "Z"; CSpace; CRange ":" ":";
                       CRange "'" "'"; CRange "-" "-"])).

Definition gapRegex : regex := Rep 1 None true (Class false [CSpace]).

Definition yearRegex (c1 c2 : ascii) : regex :=
  Seq (Seq (Lit c1) (Lit c2)) (Rep 2 (Some 2) true (Class false [CDigit])).

Definition withNameRegex : regex :=
  Seq (Seq (Seq (Seq (Seq (Lit "w") (Lit "i")) (Lit "t")) (Lit "h")) gapRegex)
      (Rep 1 None true (Class false [CRange "a" "z"; CRange "A" "Z"; CSpace])).

(** What a guest's query may send to the store: requests on the
    [conversations] table and reads of [recommendations]. *)
Definition guestRequest (rq : DbRequest) : Prop :=
  rq_table rq = Conversations
  \/ (rq_table rq = Recommendations /\ rq_verb rq = Select).

(** A method sends only requests that satisfy [P]. *)
Definition sendsOnly {A : Type} (P : DbRequest -> Prop) (m : M A) : Prop :=
  forall st, exists sent,
    requests (snd (m st)) = requests st ++ sent /\ Forall P sent.

Definition guestCatalog : RawMovie :=
  list_to_map [("Title", "Inception"); ("Year", "2010"); ("imdbID", "tt1375666");
               ("imdbRating", "8.8"); ("Genre", "Action, Sci-Fi")].

Definition guestContext : ChainContext :=
  {| userId := None; query := "Inception"; conversationId := "c1";
     sessionId := "s1" |}.

(** ** Integers ([parseInt]) and URI components *)

(** An integer-valued Number is an integer of [Z]: doubles are exact on
    the integers below [2^53], which covers the lengths, the years and
    the year differences computed here (a [Year] of sixteen digits or
    more would be rounded by JavaScript).  [None] is NaN. *)
Definition hexDigitValue (c : ascii) : option Z :=
  if isDigit c then Some (Z.of_nat (code c - 48))
  else if between 97 102 c then Some (Z.of_nat (code c - 87))
  else if between 65 70 c then Some (Z.of_nat (code c - 55))
  else None.

(** The value of the longest prefix of hexadecimal digits, NaN when it
    is empty. *)
Fixpoint hexValue (acc : option Z) (l : list ascii) : option Z :=
  match l with
  | c :: tl =>
      match hexDigitValue c with
      | Some d => hexValue (Some (16 * default 0%Z acc + d)%Z) tl
      | None => acc
      end
  | [] => acc
  end.

Definition decimalValue (l : list ascii) : option Z :=
  match spanDigits l with
  | ([], _) => None
  | (ds, _) => Some (digitsValue ds)
  end.

Definition parseIntUnsigned (l : list ascii) : option Z :=
  match l with
  | "0"%char :: x :: tl =>
      if Ascii.eqb x "x" || Ascii.eqb x "X" then hexValue None tl
      else decimalValue l
  | _ => decimalValue l
  end.

(** [parseInt(s)] without a radix. *)
Definition parseInt (s : string) : option Z :=
  match dropSpaces (chars s) with
  | "-"%char :: tl => option_map Z.opp (parseIntUnsigned tl)
  | "+"%char :: tl => parseIntUnsigned tl
  | l => parseIntUnsigned l
  end.

(** [encodeURIComponent]: the unreserved characters stay, every other
    character becomes the percent-escapes of its UTF-8 bytes (two bytes
    from U+0080 to U+00FF). *)
Definition isUnreserved (c : ascii) : bool :=
  isLetter c || isDigit c
  || existsb (Ascii.eqb c) (chars "-_.!~*'()").

Definition hexChar (n : nat) : ascii :=
  if (n <? 10)%nat then ascii_of_nat (48 + n) else ascii_of_nat (55 + n).

Definition percentByte (byte : nat) : list ascii :=
  ["%"%char; hexChar (byte / 16); hexChar (byte mod 16)].

Definition encodeChar (c : ascii) : list ascii :=
  if isUnreserved c then [c]
  else if (code c <? 128)%nat then percentByte (code c)
  else percentByte (192 + code c / 64) ++ percentByte (128 + code c mod 64).

Definition encodeURIComponent (s : string) : string :=
  str (flat_map encodeChar (chars s)).

(** ** Capture of a group *)

(** For a pattern that is a sequence of three parts, the first way, in
    backtracking order, to match them one after the other from [p]: the
    positions after the first and after the second part. *)
Definition firstSplit (icase : bool) (r1 r2 r3 : regex) (p : pos)
  : option (pos * pos) :=
  head (flat_map
          (fun q1 =>
             flat_map (fun q2 => map (fun _ => (q1, q2)) (run icase r3 q2))
                      (run icase r2 q1))
          (run icase r1 p)).

Fixpoint searchSplit (icase : bool) (r1 r2 r3 : regex) (prev : option ascii)
  (l : list ascii) : option (pos * pos) :=
  match firstSplit icase r1 r2 r3 (prev, l) with
  | Some found => Some found
  | None =>
      match l with
      | [] => None
      | c :: tl => searchSplit icase r1 r2 r3 (Some c) tl
      end
  end.

(** The text captured by the middle part in the leftmost match. *)
Definition middleGroup (icase : bool) (r1 r2 r3 : regex) (s : string)
  : option string :=
  match searchSplit icase r1 r2 r3 None (chars s) with
  | Some (q1, q2) =>
      Some (str (take (List.length (snd q1) - List.length (snd q2)) (snd q1)))
  | None => None
  end.

(** ** Catalog lookup: title analysis *)

Definition yearPattern : RegExp := re "\b(19\d{2}|20\d{2})\b".

(** [/\b(with|starring)\s+([A-Za-z\s]+?)(?:\s|$)/i] and its three parts:
    what precedes the second group, the group, and what follows it. *)
Definition actorPattern : RegExp :=
  rei "\b(with|starring)\s+([A-Za-z\s]+?)(?:\s|$)".

Definition actorIntro : regex := parse "\b(with|starring)\s+".
Definition actorName : regex := parse "([A-Za-z\s]+?)".
Definition actorEnd : regex := parse "(?:\s|$)".

(** [actorMatch[2]], when the pattern matches. *)
Definition actorGroup (title : string) : option string :=
  middleGroup true actorIntro actorName actorEnd title.

(** [yearMatch ? yearMatch[1] : null]: the group is the whole match. *)
Definition requestedYearOf (title : string) : option string :=
  match0 yearPattern title.

(** [actorMatch ? actorMatch[2].trim() : null] *)
Definition requestedActorOf (title : string) : option string :=
  option_map trim (actorGroup title).

(** ** Catalog lookup: actor matching *)

(** A JavaScript array, or an array of arrays, that is filled by
    assignments to its indices: the cells that have been assigned. *)
Abbreviation Matrix := (gmap nat (gmap nat nat)).

(** [matrix[i][j]], [None] when the cell has not been assigned. *)
Definition cell (matrix : Matrix) (i j : nat) : option nat :=
  match matrix !! i with
  | Some row => row !! j
  | None => None
  end.

(** [matrix[i][j] = v], [None] when the row [matrix[i]] does not exist. *)
Definition setCell (i j v : nat) (matrix : Matrix) : option Matrix :=
  match matrix !! i with
  | Some row => Some (<[i := <[j := v]> row]> matrix)
  | None => None
  end.

(** A loop whose body may stop the computation. *)
Fixpoint foldM {A B : Type} (f : B -> A -> option B) (b : B) (l : list A)
  : option B :=
  match l with
  | [] => Some b
  | x :: tl =>
      match f b x with
      | Some b' => foldM f b' tl
      | None => None
      end
  end.

(** [for (let i = 0; i <= str2.length; i++) matrix[i] = [i]] *)
Definition initRows (n2 : nat) : Matrix :=
  fold_left (fun matrix i => <[i := {[0 := i]}]> matrix) (seq 0 (S n2)) ∅.

(** [for (let j = 0; j <= str1.length; j++) matrix[0][j] = j] *)
Definition initColumns (n1 : nat) (matrix : Matrix) : option Matrix :=
  foldM (fun matrix j => setCell 0 j j matrix) matrix (seq 0 (S n1)).

(** [s.charAt(i) === t.charAt(j)]: past the end [charAt] is the empty
    string. *)
Definition sameCharAt (s : list ascii) (i : nat) (t : list ascii) (j : nat)
  : bool :=
  match s !! i, t !! j with
  | Some a, Some b => Ascii.eqb a b
  | None, None => true
  | _, _ => false
  end.

(** The body of the inner loop. *)
Definition fillCell (str1 str2 : list ascii) (i j : nat) (matrix : Matrix)
  : option Matrix :=
  if sameCharAt str2 (i - 1) str1 (j - 1)
  then
    match cell matrix (i - 1) (j - 1) with
    | Some d => setCell i j d matrix
    | None => None
    end
  else
    match cell matrix (i - 1) (j - 1), cell matrix i (j - 1),
          cell matrix (i - 1) j with
    | Some a, Some b, Some c =>
        setCell i j (Nat.min (a + 1) (Nat.min (b + 1) (c + 1))) matrix
    | _, _, _ => None
    end.

Definition fillRow (str1 str2 : list ascii) (i : nat) (matrix : Matrix)
  : option Matrix :=
  foldM (fun matrix j => fillCell str1 str2 i j matrix) matrix
        (seq 1 (List.length str1)).

(** [getEditDistance]; [None] would be a read of a cell that was never
    assigned. *)
Definition getEditDistance (str1 str2 : string) : option nat :=
  let s1 := chars str1 in
  let s2 := chars str2 in
  match initColumns (List.length s1) (initRows (List.length s2)) with
  | Some matrix =>
      match foldM (fun matrix i => fillRow s1 s2 i matrix) matrix
                  (seq 1 (List.length s2)) with
      | Some filled => cell filled (List.length s2) (List.length s1)
      | None => None
      end
  | None => None
  end.

(** [n / d] for integers [n] and [0 < d], correctly rounded. *)
Definition divideIntegers (n d : Z) : JSNumber :=
  if (n <? 0)%Z then negateNumber (roundDouble (- n) d) else roundDouble n d.

(** [x > y] *)
Definition numberGt (x y : JSNumber) : bool :=
  match x, y with
  | NaN, _ => false
  | _, NaN => false
  | Infinity a, Infinity b => negb a && b
  | Infinity a, Finite _ => negb a
  | Finite _, Infinity b => b
  | Finite p, Finite q => negb (Qle_bool p q)
  end.

Definition calculateSimilarity (str1 str2 : string) : JSNumber :=
  let longer := if (JS.length str2 <? JS.length str1)%nat then str1 else str2 in
  let shorter := if (JS.length str2 <? JS.length str1)%nat then str2 else str1 in
  if (JS.length longer =? 0)%nat then Finite 1
  else
    match getEditDistance longer shorter with
    | Some editDistance =>
        divideIntegers (Z.of_nat (JS.length longer) - Z.of_nat editDistance)
                       (Z.of_nat (JS.length longer))
    | None => NaN
    end.

(** [normalize] of [fuzzyActorMatch]. *)
Definition normalizeName (name : string) : string :=
  trim (replaceAll (re "[^a-z\s]") "" (toLowerCase name)).

Definition fuzzyActorMatch (actor1 actor2 : string) : bool :=
  let norm1 := normalizeName actor1 in
  let norm2 := normalizeName actor2 in
  includes norm1 norm2 || includes norm2 norm1
  || numberGt (calculateSimilarity norm1 norm2) (roundDouble 7 10).

(** The actor check of [searchOMDB]: [actors] is [detailData.Actors || '']. *)
Definition actorMatches (actors requestedActor : string) : bool :=
  let actorNames :=
    map (fun name => toLowerCase (trim name)) (split actors ",") in
  let requestedActorLower := toLowerCase requestedActor in
  existsb (fun actor =>
             includes actor requestedActorLower
             || includes requestedActorLower actor
             || fuzzyActorMatch actor requestedActorLower)
          actorNames.

(** ** Catalog lookup: search variations *)

Definition countryPattern : RegExp :=
  rei "(korean|japanese|chinese|french|italian|spanish)".

Definition franchiseMap : list (string * list string) := [
  ("wonder woman", ["Wonder Woman 1984"; "Wonder Woman: 1984"]);
  ("mission impossible",
   ["Mission: Impossible - Dead Reckoning Part One";
    "Mission: Impossible - Fallout"; "Mission: Impossible - Rogue Nation"]);
  ("top gun", ["Top Gun: Maverick"]);
  ("batman", ["The Batman"; "The Dark Knight Rises"; "Batman Returns"]);
  ("spider-man",
   ["Spider-Man: No Way Home"; "Spider-Man: Far From Home"; "Spider-Man 2"]);
  ("fast", ["Fast X"; "Fast & Furious Presents: Hobbs & Shaw"]);
  ("john wick",
   ["John Wick: Chapter 4"; "John Wick: Chapter 3"; "John Wick: Chapter 2"]);
  ("avatar", ["Avatar: The Way of Water"]);
  ("iron man", ["Iron Man 2"; "Iron Man 3"]);
  ("thor", ["Thor: The Dark World"; "Thor: Ragnarok"; "Thor: Love and Thunder"]);
  ("captain america",
   ["Captain America: The Winter Soldier"; "Captain America: Civil War"]);
  ("guardians of the galaxy",
   ["Guardians of the Galaxy Vol. 2"; "Guardians of the Galaxy Vol. 3"]);
  ("toy story", ["Toy Story 2"; "Toy Story 3"; "Toy Story 4"]);
  ("the matrix",
   ["The Matrix Reloaded"; "The Matrix Revolutions"; "The Matrix Resurrections"]);
  ("terminator",
   ["Terminator 2: Judgment Day"; "Terminator 3: Rise of the Machines"]);
  ("alien", ["Aliens"; "Alien 3"; "Alien: Resurrection"]);
  ("star wars", ["The Empire Strikes Back"; "Return of the Jedi"]);
  ("back to the future",
   ["Back to the Future Part II"; "Back to the Future Part III"]);
  ("the godfather", ["The Godfather Part II"; "The Godfather Part III"]);
  ("taxi driver", ["Taxi Driver"; "A Taxi Driver"])
].

Definition specificMovieMappings : list (string * list string) := [
  ("wonder woman 1984", ["Wonder Woman 1984"; "Wonder Woman: 1984"]);
  ("top gun maverick", ["Top Gun: Maverick"]);
  ("batman begins", ["Batman Begins"]);
  ("the dark knight", ["The Dark Knight"]);
  ("dark knight rises", ["The Dark Knight Rises"]);
  ("spider-man no way home", ["Spider-Man: No Way Home"]);
  ("mission impossible fallout", ["Mission: Impossible - Fallout"]);
  ("john wick 4", ["John Wick: Chapter 4"]);
  ("avatar 2", ["Avatar: The Way of Water"])
].

(** The values of the first entry whose key occurs in [text]; [None]
    when no key does. *)
Definition firstMapping (text : string) (table : list (string * list string))
  : option (list string) :=
  option_map snd (find (fun entry => includes text (fst entry)) table).

(** [String(n)] for an integer. *)
Definition intToString (n : Z) : string :=
  if (n <? 0)%Z then "-" +:+ natToString (Z.to_nat (- n))
  else natToString (Z.to_nat n).

Definition wonderWoman1984 (year baseTitle : string) : list string :=
  if String.eqb year "1984" && includes (toLowerCase baseTitle) "wonder woman"
  then ["Wonder Woman 1984"; "Wonder Woman: 1984"]
  else [].

(** The variations pushed for a title that names a country. *)
Definition countryVariations (title : string) : list string :=
  match match0 countryPattern title with
  | Some country =>
      let titleWithoutCountry := trim (replaceAll countryPattern "" title) in
      (if String.eqb (toLowerCase country) "korean"
       then
         (if includes (toLowerCase titleWithoutCountry) "taxi driver"
          then ["A Taxi Driver"; "Taxi Driver 2017"; "Taeksi Woonjunsa"]
          else if includes (toLowerCase titleWithoutCountry) "oldboy"
          then ["Oldboy"; "Oldboy 2003"]
          else if includes (toLowerCase titleWithoutCountry) "parasite"
          then ["Parasite"; "Parasite 2019"; "Gisaengchung"]
          else [])
         ++ [titleWithoutCountry +:+ " Korean";
             titleWithoutCountry +:+ " South Korea"]
       else [])
      ++ [titleWithoutCountry]
  | None => []
  end.

(** The "universal sequel patterns", before the cut to the first six. *)
Definition universalVariations (baseTitle : string) (yearMatch : option string)
  : list string :=
  [baseTitle +:+ " 2"; baseTitle +:+ " II"; baseTitle +:+ " Part 2";
   baseTitle +:+ " Part II"; baseTitle +:+ ": Part Two";
   baseTitle +:+ " Returns"; baseTitle +:+ " Rises"; baseTitle +:+ " Reloaded";
   baseTitle +:+ " Forever"; baseTitle +:+ " Revenge";
   baseTitle +:+ " Strikes Back"]
  ++ match yearMatch with
     | Some y =>
         let baseWithoutYear := trim (replace (re "\d{4}") "" baseTitle) in
         let yearText (k : Z) :=
           match parseInt y with
           | Some year => intToString (year + k)
           | None => "NaN"
           end in
         [baseWithoutYear +:+ " " +:+ yearText 1%Z;
          baseWithoutYear +:+ " " +:+ yearText 2%Z;
          baseWithoutYear +:+ " " +:+ yearText 3%Z]
     | None => []
     end.

Definition generateOMDBSearchVariations (title : string) : list string :=
  let baseTitle := extractBaseTitle title in
  let yearMatch := match0 yearPattern title in
  (* year-specific searches *)
  (match yearMatch with
   | Some year =>
       (match parseInt year with
        | Some y =>
            if (2020 <=? y)%Z
            then [baseTitle +:+ " " +:+ year;
                  baseTitle +:+ " (" +:+ year +:+ ")"]
            else []
        | None => []
        end)
       ++ wonderWoman1984 year baseTitle
   | None => []
   end)
  (* actor-specific searches *)
  ++ (match actorGroup title with
      | Some group =>
          let actor := trim group in
          [baseTitle +:+ " " +:+ actor;
           baseTitle +:+ " starring " +:+ actor]
      | None => []
      end)
  (* the title without its year *)
  ++ (if test (re "\d{4}") title then [baseTitle] else [])
  (* country-specific searches *)
  ++ countryVariations title
  (* specific year patterns *)
  ++ (match match0 (re "(\d{4})") title with
      | Some year =>
          wonderWoman1984 year baseTitle ++ [baseTitle +:+ " " +:+ year]
      | None => []
      end)
  (* predefined franchises, or the universal patterns *)
  ++ (match firstMapping (toLowerCase baseTitle) franchiseMap with
      | Some movies => movies
      | None => take 6 (universalVariations baseTitle yearMatch)
      end)
  (* direct specific movie requests *)
  ++ default [] (firstMapping (toLowerCase title) specificMovieMappings).

(** ** Catalog lookup: ordering of the search results *)

(** [array.sort(compare)] for a consistent comparator, for which
    ECMAScript fixes the result: the stable sort.  [compare a b < 0] puts
    [a] before [b]. *)
Fixpoint insertBy {A : Type} (compare : A -> A -> Z) (x : A) (sorted : list A)
  : list A :=
  match sorted with
  | [] => [x]
  | y :: tl =>
      if (compare x y <? 0)%Z then x :: sorted
      else y :: insertBy compare x tl
  end.

Definition sortBy {A : Type} (compare : A -> A -> Z) (l : list A) : list A :=
  fold_left (fun sorted x => insertBy compare x sorted) l [].

(** [parseInt(movie.Year) || 0] *)
Definition yearOf (movie : RawMovie) : Z :=
  match movie !! "Year" with
  | Some y => default 0%Z (parseInt y)
  | None => 0%Z
  end.

(** The comparator for a requested year. *)
Definition compareByYear (requestedYearInt : Z) (a b : RawMovie) : Z :=
  let yearA := yearOf a in
  let yearB := yearOf b in
  if (yearA =? requestedYearInt)%Z && negb (yearB =? requestedYearInt)%Z
  then (-1)%Z
  else if (yearB =? requestedYearInt)%Z && negb (yearA =? requestedYearInt)%Z
  then 1%Z
  else (Z.abs (yearA - requestedYearInt) - Z.abs (yearB - requestedYearInt))%Z.

(** The comparator of a "recent" query: newest first. *)
Definition compareNewest (a b : RawMovie) : Z := (yearOf b - yearOf a)%Z.

Definition isRecentQuery (searchTitle : string) : bool :=
  includes (toLowerCase searchTitle) "recent"
  || includes (toLowerCase searchTitle) "latest"
  || test (re "20(2[3-9]|[3-9]\d)") searchTitle.

(** [sortOMDBResults].  A requested year is four digits; were its
    [parseInt] NaN, every comparison would be NaN and the order kept. *)
Definition sortOMDBResults (results : list RawMovie) (searchTitle : string)
  : list RawMovie :=
  match requestedYearOf searchTitle with
  | Some requestedYear =>
      match parseInt requestedYear with
      | Some requestedYearInt => sortBy (compareByYear requestedYearInt) results
      | None => results
      end
  | None =>
      if isRecentQuery searchTitle then sortBy compareNewest results
      else results
  end.

(** Is an optional value present? *)
Definition given {A : Type} (o : option A) : bool :=
  match o with Some _ => true | None => false end.

(** ** Catalog lookup: the requests to the OMDB API *)

Module OMDB.

(** A parsed JSON answer of the API: its string fields and, for a
    search, the array [Search]. *)
Record Json : Type := mkJson {
  fields : RawMovie;
  Search : option (list RawMovie)
}.

(** The URLs fetched so far, oldest first, and the number of the next
    call. *)
Record Net : Type := mkNet {
  fetched : list string;
  calls : nat
}.

Definition F (A : Type) : Type := Net -> result A * Net.

Definition ret {A : Type} (a : A) : F A := fun st => (Ok a, st).

Definition bind {A B : Type} (m : F A) (k : A -> F B) : F B :=
  fun st =>
    match m st with
    | (Ok a, st') => k a st'
    | (Throw e, st') => (Throw e, st')
    end.

Definition tryCatch {A : Type} (m : F A) (handler : string -> F A) : F A :=
  fun st =>
    match m st with
    | (Ok a, st') => (Ok a, st')
    | (Throw e, st') => handler e st'
    end.

Declare Scope fetch_scope.
Delimit Scope fetch_scope with fetch.
Notation "'let*' x := m 'in' k" := (bind m (fun x => k))
  (at level 10, x name, m at level 100, k at level 200, only parsing)
  : fetch_scope.
Local Open Scope fetch_scope.

Section Lookup.

(** [await (await fetch(url)).json()]: the answer to the call of a given
    number, or the exception ([fetch] or [json] rejecting). *)
Context (fetch : nat -> string -> result Json).
Context (omdbApiKey : string).

Definition fetchJson (url : string) : F Json :=
  fun st =>
    (fetch (calls st) url,
     {| fetched := fetched st ++ [url]; calls := S (calls st) |}).

Definition api (parameter value : string) : string :=
  "https://www.omdbapi.com/?" +:+ parameter +:+ "=" +:+ value
  +:+ "&apikey=" +:+ omdbApiKey.

(** [data.Response === "True"] *)
Definition isTrue (d : Json) : bool :=
  match fields d !! "Response" with
  | Some r => String.eqb r "True"
  | None => false
  end.

(** [data.Response === "True" && data.Search?.length > 0] *)
Definition hasResults (d : Json) : bool :=
  isTrue d && match Search d with Some (_ :: _) => true | _ => false end.

(** The year filter: the same [Year], or one year apart at most. *)
Definition withinOneYear (requestedYear : string) (movie : RawMovie) : bool :=
  match movie !! "Year" with
  | Some y =>
      String.eqb y requestedYear
      || match parseInt y, parseInt requestedYear with
         | Some a, Some b => (Z.abs (a - b) <=? 1)%Z
         | _, _ => false
         end
  | None => false
  end.

(** The search for a title with a year or an actor.  [Some (Some d)] is
    [return d], [Some None] is [continue] (the actor does not match) and
    [None] goes on with the exact search. *)
Definition specificSearch (title : string)
  (requestedYear requestedActor : option string)
  : F (option (option RawMovie)) :=
  let baseTitle := extractBaseTitle title in
  let* searchData := fetchJson (api "s" (encodeURIComponent baseTitle)) in
  if hasResults searchData
  then
    let results := default [] (Search searchData) in
    let filteredResults :=
      match requestedYear with
      | Some y => List.filter (withinOneYear y) results
      | None => results
      end in
    match filteredResults with
    | targetMovie :: _ =>
        let* detailData :=
          fetchJson (api "i" (default "undefined" (targetMovie !! "imdbID"))) in
        if isTrue detailData
        then
          match requestedActor with
          | Some actor =>
              if actorMatches (optOr (fields detailData !! "Actors") "") actor
              then ret (Some (Some (fields detailData)))
              else ret (Some None)
          | None => ret (Some (Some (fields detailData)))
          end
        else ret None
    | [] => ret None
    end
  else ret None.

(** The loop over the search variations. *)
Fixpoint tryVariations (variations : list string) : F (option RawMovie) :=
  match variations with
  | [] => ret None
  | variation :: tl =>
      let* variationData := fetchJson (api "t" (encodeURIComponent variation)) in
      if isTrue variationData then ret (Some (fields variationData))
      else tryVariations tl
  end.

(** The search API "for broader results". *)
Definition broadSearch (title : string) : F (option RawMovie) :=
  let* searchData :=
    fetchJson (api "s" (encodeURIComponent (extractBaseTitle title))) in
  if hasResults searchData
  then
    match sortOMDBResults (default [] (Search searchData)) title with
    | firstResult :: _ =>
        let* detailData :=
          fetchJson (api "i" (default "undefined" (firstResult !! "imdbID"))) in
        if isTrue detailData then ret (Some (fields detailData)) else ret None
    | [] => ret None
    end
  else ret None.

(** The body of the loop over the titles, with its [try]/[catch]:
    [Some d] is [return d], [None] goes on with the next title. *)
Definition lookupTitle (title : string) : F (option RawMovie) :=
  tryCatch
    (let requestedYear := truthyString (requestedYearOf title) in
     let requestedActor := truthyString (requestedActorOf title) in
     let* specific :=
       if given requestedYear || given requestedActor
       then specificSearch title requestedYear requestedActor
       else ret None in
     match specific with
     | Some outcome => ret outcome
     | None =>
         let* exactData := fetchJson (api "t" (encodeURIComponent title)) in
         if isTrue exactData then ret (Some (fields exactData))
         else
           let* fromVariation :=
             tryVariations (generateOMDBSearchVariations title) in
           match fromVariation with
           | Some variationData => ret (Some variationData)
           | None =>
               if negb (given requestedYear)
                  && negb (given requestedActor)
               then broadSearch title
               else ret None
           end
     end)
    (fun _ => ret None).

Fixpoint lookupTitles (titles : list string) : F (option RawMovie) :=
  match titles with
  | [] => ret None
  | title :: tl =>
      let* found := lookupTitle title in
      match found with
      | Some movieData => ret (Some movieData)
      | None => lookupTitles tl
      end
  end.

(** [searchOMDB]: [None] is [null]. *)
Definition searchOMDB (titles : list string) : F (option RawMovie) :=
  if String.eqb omdbApiKey "" then ret None else lookupTitles titles.

End Lookup.

End OMDB.

(** ** The edge function (index.ts) *)

(** The JSON body of a request: the fields of [RequestPayload], each a
    string; a field that is absent or [null] is [None]. *)
Record RequestPayload : Type := mkPayload {
  p_query : option string;
  p_userId : option string;
  p_conversationId : option string;
  p_sessionId : option string
}.

(** A request: its method and what reading its body gives.  [req.json()]
    rejects a body that is not JSON, and reading [payload.query] throws
    when the body is [null]: both are a [Throw] here. *)
Record HttpRequest : Type := mkHttpRequest {
  req_method : string;
  req_json : result RequestPayload
}.

Inductive ResponseBody : Type :=
| NoBody
| ErrorBody (message : string) (details : option string)
| DataBody (result : Response).

(** A response; the CORS headers, the same on every response, are left
    out. *)
Record HttpResponse : Type := mkHttpResponse {
  res_status : nat;
  res_body : ResponseBody
}.

(** The state a chain starts with: [new Map()] and a new buffer memory.
    The log of requests and the clock belong to the world. *)
Definition newChain : M unit :=
  fun st =>
    (Ok tt,
     {| conversationStore := ∅;
        chatHistory := [];
        requests := requests st;
        clock := clock st |}).

Section EdgeFunction.
Context (W : World).

(** Whether the constructors that [new MovieButlerChain()] calls (the
    clients of the store and of the language model) throw: the
    environment decides. *)
Context (construct : result unit).

Definition badRequest (message : string) : HttpResponse :=
  {| res_status := 400; res_body := ErrorBody message None |}.

(** The body of the [try] once the payload is read. *)
Definition answer (payload : RequestPayload) : M HttpResponse :=
  if negb (truthy (p_query payload))
  then ret (badRequest "Query is required")
  else if negb (truthy (p_conversationId payload))
  then ret (badRequest "Conversation ID is required")
  else
    let* session :=
      match truthyString (p_sessionId payload) with
      | Some s => ret s
      | None => let* t := now W in ret ("session_" +:+ intToString t)
      end in
    let context :=
      {| userId := p_userId payload;
         query := trim (default "" (p_query payload));
         conversationId := default "" (p_conversationId payload);
         sessionId := session |} in
    let* _ := liftResult construct in
    let* _ := newChain in
    let* result := processQuery W context in
    ret {| res_status := 200; res_body := DataBody result |}.

(** The function given to [Deno.serve]. *)
Definition serve (req : HttpRequest) (st : ChainState)
  : HttpResponse * ChainState :=
  if String.eqb (req_method req) "OPTIONS"
  then ({| res_status := 200; res_body := NoBody |}, st)
  else
    match (let* payload := liftResult (req_json req) in answer payload) st with
    | (Ok response, st') => (response, st')
    | (Throw e, st') =>
        ({| res_status := 500;
            res_body := ErrorBody "Internal server error" (Some e) |}, st')
    end.

End EdgeFunction.

(** ** Notions used by the statements on the catalog lookup *)

(** The recurrence by which [getEditDistance] fills its matrix, on two
    prefixes read from their last character back. *)
Fixpoint distRev (a b : list ascii) {struct a} : nat :=
  match a with
  | [] => List.length b
  | x :: a' =>
      (fix inner (b : list ascii) : nat :=
         match b with
         | [] => S (List.length a')
         | y :: b' =>
             if Ascii.eqb x y then distRev a' b'
             else S (Nat.min (distRev a' b')
                             (Nat.min (inner b') (distRev a' b)))
         end) b
  end.

(** The entry the filled matrix holds at row [i] and column [j]: the
    distance between the first [i] characters of [str2] and the first
    [j] characters of [str1]. *)
Definition prefixDistance (str1 str2 : list ascii) (i j : nat) : nat :=
  distRev (rev (take i str2)) (rev (take j str1)).

(** The matrix of [getEditDistance] when row [i] has been filled up to
    column [j] and the rows before it entirely. *)
Definition filledUpTo (str1 str2 : list ascii) (i j : nat) (matrix : Matrix)
  : Prop :=
  forall i' j',
    i' <= List.length str2 -> j' <= List.length str1 ->
    i' < i \/ (i' = i /\ j' <= j) \/ j' = 0 ->
    cell matrix i' j' = Some (prefixDistance str1 str2 i' j').

(** A character that may stand in a URI component as it is: unreserved,
    or the percent sign of an escape. *)
Definition urlSafe (c : ascii) : bool := isUnreserved c || Ascii.eqb c "%".

(** A URL of the OMDB API carrying the key: a lookup by identifier, or a
    search or a lookup by title whose text is percent-encoded. *)
Definition omdbUrl (key url : string) : Prop :=
  exists parameter value,
    url = OMDB.api key parameter value
    /\ (parameter = "i"
        \/ ((parameter = "s" \/ parameter = "t")
            /\ forallb urlSafe (chars value) = true)).

(** A record the API answered with [Response: "True"]. *)
Definition responseTrue (movie : RawMovie) : Prop :=
  movie !! "Response" = Some "True".

(** A lookup fetches only URLs that satisfy [P], and what it returns
    satisfies [Q]. *)
Definition fetchesOnly {A : Type} (P : string -> Prop) (Q : A -> Prop)
  (m : OMDB.F A) : Prop :=
  forall st, exists urls,
    OMDB.fetched (snd (m st)) = OMDB.fetched st ++ urls
    /\ Forall P urls
    /\ forall a, fst (m st) = Ok a -> Q a.

(** ** Notions used by the statements on the store *)

(** A request on the [movies] table that is confined to the rows of one
    user: a read filtered by [user_id], or the insertion of a row of that
    user.  Requests on the other tables are not concerned. *)
Definition ownedBy (user : string) (rq : DbRequest) : Prop :=
  rq_table rq = Movies ->
  In ("eq", "user_id", user) (rq_filters rq)
  \/ exists row, rq_payload rq = MoviePayload row /\ row !! "user_id" = Some user.

(** A read of the [movies] rows of one user. *)
Definition readsMoviesOf (user : string) (rq : DbRequest) : Prop :=
  rq_table rq = Movies /\ rq_verb rq = Select
  /\ In ("eq", "user_id", user) (rq_filters rq).

(** ** Notions used by the statements on the conversation memory *)

(** Every run of a method relates the state before it to the state after
    it by [R], whether it returns or throws. *)
Definition keeps {A : Type} (R : ChainState -> ChainState -> Prop) (m : M A)
  : Prop :=
  forall st, R st (snd (m st)).

(** The conversation [id], when it is stored, stays stored with the same
    number of turns and no fewer tokens. *)
Definition sameTurns (id : string) (st st' : ChainState) : Prop :=
  forall c,
    conversationStore st !! id = Some c ->
    exists c',
      conversationStore st' !! id = Some c'
      /\ turnCount c' = turnCount c
      /\ totalTokens c <= totalTokens c'.

(** The score [findBestTitleMatch] gives a row, 0 for a row without a
    title. *)
Definition rowScore (searchTitle : string) (movie : RawMovie) : Z :=
  match movie !! "title" with
  | Some t => titleScore (normalizeTitle searchTitle) (normalizeTitle t)
  | None => 0%Z
  end.

(** The preferred genres are distinct, at most three, and none of them is
    empty or "Unknown". *)
Definition genresInvariant (p : UserPreferences) : Prop :=
  NoDup (genres p) /\ List.length (genres p) <= 3
  /\ Forall (fun g => g <> "" /\ g <> "Unknown") (genres p).

(** What a response tells the user, when it is not an error. *)
Definition replyMessage (response : Response) : option string :=
  match response with
  | ChatResponse reply => Some (cr_message reply)
  | MovieResponse message _ _ _ _ => Some message
  | ErrorResponse _ => None
  end.

(** The last message stored for the conversation [id] is [message], said
    by the assistant. *)
Definition lastReply (id message : string) (st : ChainState) : Prop :=
  exists c t,
    conversationStore st !! id = Some c
    /\ last (messages c) = Some (mkMessage RoleAssistant message t).

(** From a state that stores the conversation [id], a method that returns
    a response leaves the message of the response as the last reply. *)
Definition answers (id : string) (m : M Response) : Prop :=
  forall st response st' message,
    is_Some (conversationStore st !! id) ->
    m st = (Ok response, st') ->
    replyMessage response = Some message ->
    lastReply id message st'.

(** ** Sample data for the examples of the catalog lookup *)

(** Three catalog rows of a text search for "Dune". *)
Definition duneRows : list RawMovie :=
  [ {[ "Title" := "Dune"; "Year" := "1984" ]};
    {[ "Title" := "Dune: Part Two"; "Year" := "2024" ]};
    {[ "Title" := "Dune"; "Year" := "2021" ]} ].

(** A network on which every request fails. *)
Definition networkDown : nat -> string -> result OMDB.Json :=
  fun _ _ => Throw "connection refused".

Definition freshNet : OMDB.Net := {| OMDB.fetched := []; OMDB.calls := 0 |}.

(** A signed-in user asking for a comparison. *)
Definition comparisonContext : ChainContext :=
  {| userId := Some "user-1"; query := "which is better?";
     conversationId := "conv-7"; sessionId := "session-7" |}.

(** A signed-in user asking about a movie. *)
Definition memberContext : ChainContext :=
  {| userId := Some "user-1"; query := "Is Inception worth watching?";
     conversationId := "conv-8"; sessionId := "session-8" |}.

(** ** Positions of a regular-expression match *)

(** [q] is reached from [p] by reading some characters: what follows [q]
    is what follows [p] without them, and the character before [q] is the
    last one read. *)
Definition reach (p q : pos) : Prop :=
  exists consumed,
    snd p = consumed ++ snd q
    /\ fst q = match last consumed with Some c => Some c | None => fst p end.

(** The position follows a white-space character. *)
Definition afterSpace (q : pos) : Prop :=
  exists c, fst q = Some c /\ isSpace c = true.

(** What the regex fallback may return as a title. *)
Definition plausibleTitle (title : string) : Prop :=
  3 <= JS.length title /\ isCommonWord title = false.

(** ** Sample requests *)

(** A request whose query is three spaces. *)
Definition blankRequest : HttpRequest :=
  {| req_method := "POST";
     req_json := Ok {| p_query := Some "   "; p_userId := None;
                       p_conversationId := Some "conv-9";
                       p_sessionId := None |} |}.

(** A request about a movie, sent by a guest. *)
Definition movieRequest : HttpRequest :=
  {| req_method := "POST";
     req_json := Ok {| p_query := Some " Is Inception worth watching? ";
                       p_userId := None;
                       p_conversationId := Some "conv-10";
                       p_sessionId := Some "session-10" |} |}.

(* ================================================================== *)
(** * Part II: lemmas and theorems                                     *)
(* ================================================================== *)

(** ** The embedding on sample inputs *)

Example parse_bare_title :
  parse "^[a-zA-Z][a-zA-Z\s:'-]+$"
  = Seq (Seq (Seq Bol (Class false [CRange "a" "z"; CRange "A" "Z"]))
             (Rep 1 None true
                (Class false [CRange "a" "z"; CRange "A" "Z"; CSpace;
                              CRange ":" ":"; CRange "'" "'"; CRange "-" "-"])))
        Eol.
Proof. vm_compute. reflexivity. Qed.

Example every_pattern_parses :
  forallb (fun rx => match re_ast rx with Never => false | _ => true end)
          (generalPatterns ++ comparisonPatterns ++ recommendationPatterns
           ++ movieQueryPatterns ++ movieContextPatterns ++ directPatterns
           ++ specificPatterns ++ [directMoviePattern; directMovieWithSpecifics])
  = true.
Proof. vm_compute. reflexivity. Qed.

Example lookahead_rejects_similar :
  map (test (rei "^(recommend|suggest)(?!\s+similar|\s+like)"))
      ["recommend a movie"; "recommend similar"; "Suggest like this"]
  = [true; false; false].
Proof. vm_compute. reflexivity. Qed.

Example first_match_is_leftmost_and_greedy :
  match0 directMoviePattern "how about wonder woman 1984 please"
  = Some "how about wonder woman 1984"
  /\ match0 (re "\b(19\d{2}|20\d{2})\b") "Ace from 2025 or 1999" = Some "2025"
  /\ match0 (re "\b(19\d{2}|20\d{2})\b") "Ace20251" = None.
Proof. repeat split; vm_compute; reflexivity. Qed.

Example global_match_and_replace :
  matchAll (re "\b([A-Z][a-zA-Z\s&:'-]*(?:\s+1984|\s+19\d{2}|\s+20\d{2}))\b")
           "28 Days Later 2002"
  = ["Days Later 2002"]
  /\ replaceAll (rei "\b(movie|film)\b") "" "the Movie about film and filming"
     = "the  about  and filming"
  /\ replaceAll (re "\s+") "%" "Top  Gun Maverick" = "Top%Gun%Maverick"
  /\ matchAll (re "a*") "baac" = [""; "aa"; ""; ""]
  /\ replaceAll (re "a*") "-" "baac" = "-b--c-".
Proof. repeat split; vm_compute; reflexivity. Qed.

Example parseFloat_samples :
  map (fun s => numberGe (parseFloat s) 7)
      ["8.5"; "7"; "7.0"; " 7.5/10"; "6.9"; "N/A"; ""; "-8"; ".5"; "1e1";
       "Infinity"; "6.9999999999999999999999"]
  = [true; true; true; true; false; false; false; false; false; true;
     true; true]
  /\ parseFloat "0.5" = Finite (4503599627370496 # 9007199254740992)
  /\ parseFloat "abc" = NaN.
Proof. repeat split; vm_compute; reflexivity. Qed.

Example base_titles :
  getBaseTitle "Mission: Impossible - Fallout (2018)" = "Mission"
  /\ getBaseTitle "Toy Story 3" = "Toy Story"
  /\ extractBaseTitle "Ace 2025 with Vijay Sethupathi" = "Ace 2025"
  /\ extractBaseTitle "wonder woman 1984" = "wonder woman".
Proof. repeat split; vm_compute; reflexivity. Qed.

Example classifier_samples :
  map detectGeneralConversation
      ["which is better?"; "Batman or Superman?"; "k"; "Inception";
       "tell me about Heat"; "Heat 1995"]
  = [true; true; true; false; false; false].
Proof. vm_compute. reflexivity. Qed.

(** ** Conversation memory bounds *)

Section MemoryBounds.

Lemma sliceLast_length {A : Type} (n : nat) (l : list A) :
  List.length (sliceLast n l) = Nat.min n (List.length l).
Proof. unfold sliceLast. rewrite length_drop. lia. Qed.

Lemma sliceLast_suffix {A : Type} (n : nat) (l : list A) :
  exists evicted, l = evicted ++ sliceLast n l.
Proof.
  exists (take (List.length l - n) l). unfold sliceLast.
  symmetry. apply take_drop.
Qed.


Lemma pushMessage_sliceLast (m : Message) (ms : list Message) :
  pushMessage m ms = sliceLast 10 (ms ++ [m]).
Proof.
  unfold pushMessage.
  destruct (10 <? List.length (ms ++ [m]))%nat eqn:E; [reflexivity|].
  apply Nat.ltb_ge in E. unfold sliceLast.
  replace (List.length (ms ++ [m]) - 10) with 0 by lia. reflexivity.
Qed.




End MemoryBounds.





Lemma saveUserMessage_state W id message st :
  exists st', saveUserMessage W id message st = (Ok tt, st')
    /\ (forall id', id' <> id ->
          conversationStore st' !! id' = conversationStore st !! id')
    /\ conversationStore st' !! id
       = option_map (addUserMessage (dateNow W (clock st)) message)
                    (conversationStore st !! id).
Proof.
  unfold saveUserMessage, bind, getStore.
  destruct (conversationStore st !! id) as [c|] eqn:E; simpl.
  - eexists. split; [reflexivity|]. simpl. split.
    + intros id' Hne. rewrite lookup_insert_ne; auto.
    + rewrite lookup_insert_eq. reflexivity.
  - eexists. split; [reflexivity|]. split; [reflexivity|]. exact E.
Qed.

Lemma saveConversationToDatabase_store W id c user st :
  exists st', saveConversationToDatabase W id c user st = (Ok tt, st')
    /\ conversationStore st' = conversationStore st.
Proof.
  unfold saveConversationToDatabase, tryCatch, bind, isoNow, request, tick,
    logRequest, liftResult, ret. simpl.
  destruct (supabase W _ _); simpl; eexists; split; reflexivity.
Qed.

Lemma saveAssistantMessage_state W id message movieData user st :
  exists st', saveAssistantMessage W id message movieData user st = (Ok tt, st')
    /\ (forall id', id' <> id ->
          conversationStore st' !! id' = conversationStore st !! id')
    /\ conversationStore st' !! id
       = option_map (addAssistantMessage (dateNow W (clock st)) message movieData)
                    (conversationStore st !! id).
Proof.
  unfold saveAssistantMessage, bind, getStore.
  destruct (conversationStore st !! id) as [c|] eqn:E; simpl.
  - match goal with
    | |- context [saveConversationToDatabase W id ?c' user ?s] =>
        destruct (saveConversationToDatabase_store W id c' user s)
          as (st' & Hrun & Hstore)
    end.
    rewrite Hrun. eexists. split; [reflexivity|]. rewrite Hstore. simpl. split.
    + intros id' Hne. rewrite lookup_insert_ne; auto.
    + rewrite lookup_insert_eq. reflexivity.
  - eexists. split; [reflexivity|]. split; [reflexivity|]. exact E.
Qed.







(** ** JavaScript strings: basic facts *)

Section StringFacts.

Lemma chars_str (l : list ascii) : chars (str l) = l.
Proof. apply list_ascii_of_string_of_list_ascii. Qed.

Lemma str_chars (s : string) : str (chars s) = s.
Proof. apply string_of_list_ascii_of_string. Qed.

Lemma chars_inj (s t : string) : chars s = chars t -> s = t.
Proof. intros H. rewrite <- (str_chars s), <- (str_chars t), H. reflexivity. Qed.

Lemma chars_app (s t : string) : chars (s +:+ t) = chars s ++ chars t.
Proof. induction s as [|c s IH]; simpl; [reflexivity|]. f_equal. exact IH. Qed.

Lemma length_str (l : list ascii) : JS.length (str l) = List.length l.
Proof. unfold JS.length. rewrite chars_str. reflexivity. Qed.

Lemma chars_substring (a b : nat) (s : string) :
  chars (substring a b s) = take (b - a) (drop a (chars s)).
Proof. unfold substring. apply chars_str. Qed.

Lemma ascii_eqb_eq (a b : ascii) : Ascii.eqb a b = true <-> a = b.
Proof. apply Ascii.eqb_eq. Qed.

Lemma lastIndexFrom_Some (p : ascii -> bool) (l : list ascii) :
  forall i j,
    lastIndexFrom p i l = Some j ->
    exists k c,
      j = i + k /\ l !! k = Some c /\ p c = true
      /\ forall k' c', k < k' -> l !! k' = Some c' -> p c' = false.
Proof.
  induction l as [|x l IH]; intros i j H; simpl in H; [discriminate|].
  destruct (lastIndexFrom p (S i) l) as [j'|] eqn:E.
  - injection H as <-. destruct (IH _ _ E) as (k & c & -> & Hk & Hp & Hmax).
    exists (S k), c. split; [lia|]. split; [exact Hk|]. split; [exact Hp|].
    intros [|k'] c' Hlt Hl; [lia|]. simpl in Hl. eapply Hmax; [|exact Hl]. lia.
  - destruct (p x) eqn:Hx; [|discriminate]. injection H as <-.
    exists 0, x. split; [lia|]. split; [reflexivity|]. split; [exact Hx|].
    intros [|k'] c' Hlt Hl; [lia|]. simpl in Hl.
    clear -E Hl. revert E Hl. generalize (S i). revert k'.
    induction l as [|y l IHl]; intros k' n E Hl; [destruct k'; discriminate|].
    simpl in E. destruct (lastIndexFrom p (S n) l) eqn:E'; [discriminate|].
    destruct (p y) eqn:Hy; [discriminate|].
    destruct k' as [|k']; simpl in Hl; [congruence|]. eapply IHl; eauto.
Qed.

Lemma lastIndexFrom_None (p : ascii -> bool) (l : list ascii) :
  forall i, lastIndexFrom p i l = None ->
            forall k c, l !! k = Some c -> p c = false.
Proof.
  induction l as [|x l IH]; intros i H k c Hk; [destruct k; discriminate|].
  simpl in H. destruct (lastIndexFrom p (S i) l) eqn:E; [discriminate|].
  destruct (p x) eqn:Hx; [discriminate|].
  destruct k as [|k]; simpl in Hk; [congruence|]. eapply IH; eauto.
Qed.

End StringFacts.

(** ** Truncation of the generated text *)

Lemma truncateRecommendation_short (s : string) :
  JS.length s <= 600 -> truncateRecommendation s = s.
Proof.
  intros H. unfold truncateRecommendation, MAX_RECOMMENDATION_LENGTH.
  destruct (600 <? JS.length s)%nat eqn:E; [|reflexivity].
  apply Nat.ltb_lt in E. lia.
Qed.

Lemma truncateRecommendation_long (s : string) :
  600 < JS.length s ->
  (exists i,
      200 < i < 600 /\ chars s !! i = Some "."%char
      /\ (forall j, i < j < 600 -> chars s !! j <> Some "."%char)
      /\ chars (truncateRecommendation s) = take (i + 1) (chars s))
  \/ ((forall j, 200 < j < 600 -> chars s !! j <> Some "."%char)
      /\ chars (truncateRecommendation s) = take 597 (chars s) ++ chars "...").
Proof.
  intros Hlen. unfold truncateRecommendation, MAX_RECOMMENDATION_LENGTH.
  apply Nat.ltb_lt in Hlen as Hb. rewrite Hb. unfold JS.length in Hlen.
  unfold lastIndexOf. rewrite chars_substring, drop_0, Nat.sub_0_r.
  assert (Hhard :
    chars (substring 0 (600 - 3) (substring 0 600 s) +:+ "...")
    = take 597 (chars s) ++ chars "...").
  { rewrite chars_app, !chars_substring, !drop_0, !Nat.sub_0_r, take_take.
    reflexivity. }
  destruct (lastIndexFrom (Ascii.eqb ".") 0 (take 600 (chars s))) as [i|] eqn:E.
  - destruct (lastIndexFrom_Some _ _ _ _ E) as (k & c & -> & Hk & Hc & Hmax).
    rewrite Nat.add_0_l. apply ascii_eqb_eq in Hc. subst c.
    assert (Hk600 : k < 600).
    { apply lookup_lt_Some in Hk. rewrite length_take in Hk. lia. }
    rewrite lookup_take_lt in Hk by lia.
    destruct (200 <? k)%nat eqn:E200.
    + apply Nat.ltb_lt in E200. left. exists k.
      split; [lia|]. split; [exact Hk|]. split.
      * intros j [Hj1 Hj2] Hj.
        specialize (Hmax j "."%char Hj1). rewrite lookup_take_lt in Hmax by lia.
        specialize (Hmax Hj). discriminate.
      * rewrite !chars_substring, !drop_0, !Nat.sub_0_r, take_take.
        f_equal. lia.
    + apply Nat.ltb_ge in E200. right. split; [|exact Hhard].
      intros j [Hj1 Hj2] Hj.
      assert (Hlt : k < j) by lia.
      specialize (Hmax j "."%char Hlt). rewrite lookup_take_lt in Hmax by lia.
      specialize (Hmax Hj). discriminate.
  - right. split; [|exact Hhard].
    intros j [Hj1 Hj2] Hj.
    assert (H := lastIndexFrom_None _ _ _ E j "."%char).
    rewrite lookup_take_lt in H by lia. specialize (H Hj). discriminate.
Qed.

Lemma truncateRecommendation_length (s : string) :
  JS.length (truncateRecommendation s) <= 600.
Proof.
  destruct (decide (JS.length s <= 600)) as [Hle|Hgt].
  - rewrite truncateRecommendation_short; auto.
  - assert (Hlong : 600 < JS.length s) by lia.
    destruct (truncateRecommendation_long s Hlong) as [(i & Hi & _ & _ & E)|[_ E]];
      unfold JS.length; rewrite E.
    + rewrite length_take. lia.
    + rewrite length_app, length_take. cbn [chars list_ascii_of_string List.length].
      lia.
Qed.

(** ** Recommendation generator: what a run returns *)

Ltac run_chain :=
  cbv [generateRecommendation fallbackRecommendation similarMovies tryCatch bind
       ret throw liftResult tick getStore setStore addTokens newUUID isoNow now
       logRequest request];
  cbn [clock conversationStore chatHistory requests fst snd].

Lemma generateRecommendation_generated W movieData conversationId st reply :
  recommendationChain W (clock st)
    (recommendationInputOf (conversationStore st !! conversationId) movieData)
  = Ok reply ->
  exists st',
    generateRecommendation W movieData conversationId st
    = (Ok {| r_id := randomUUID W (S (clock st));
             r_movie_id := m_id movieData;
             r_recommendation :=
               truncateRecommendation
                 (match llm_text reply with Some t => trim t | None => "" end);
             r_worth_watching := worthWatchingOf (m_imdbRating movieData);
             r_created_at := toISOString W (S (S (clock st)));
             r_tokensUsed := default 0 (llm_totalTokens reply) |}, st').
Proof.
  intros H. run_chain. rewrite H.
  destruct (conversationStore st !! conversationId); eexists; reflexivity.
Qed.

Lemma generateRecommendation_fallback W movieData conversationId st e :
  recommendationChain W (clock st)
    (recommendationInputOf (conversationStore st !! conversationId) movieData)
  = Throw e ->
  exists st',
    generateRecommendation W movieData conversationId st
    = (let '(titles, j) :=
         getSimilarMoviesByGenre (mathRandom W)
           (orElse (m_genre movieData) "Drama") (S (clock st)) in
       Ok {| r_id := randomUUID W j;
             r_movie_id := m_id movieData;
             r_recommendation := fallbackText movieData titles;
             r_worth_watching := worthWatchingOf (m_imdbRating movieData);
             r_created_at := toISOString W (S j);
             r_tokensUsed := 0 |}, st').
Proof.
  intros H. run_chain. rewrite H.
  destruct (getSimilarMoviesByGenre _ _ _) as [titles j].
  eexists; reflexivity.
Qed.

(** Whatever the chain answers, a recommendation is returned. *)
Lemma generateRecommendation_total W movieData conversationId st :
  exists r st', generateRecommendation W movieData conversationId st = (Ok r, st').
Proof.
  destruct (recommendationChain W (clock st)
              (recommendationInputOf (conversationStore st !! conversationId)
                                     movieData)) as [reply|e] eqn:E.
  - destruct (generateRecommendation_generated _ _ _ _ _ E) as (st' & ->). eauto.
  - destruct (generateRecommendation_fallback _ _ _ _ _ E) as (st' & ->).
    destruct (getSimilarMoviesByGenre _ _ _). eauto.
Qed.

(** C8.  When the chain answers, the stored text is never longer than 600
    characters; and when the answer, once trimmed, is longer than 600
    characters, the stored text is that text cut just after its last full
    stop among the first 600 characters when that full stop lies past
    index 200, and otherwise its first 597 characters followed by three
    dots. *)
Theorem C8_truncation W movieData conversationId st reply :
  recommendationChain W (clock st)
    (recommendationInputOf (conversationStore st !! conversationId) movieData)
  = Ok reply ->
  exists r st',
    generateRecommendation W movieData conversationId st = (Ok r, st')
    /\ JS.length (r_recommendation r) <= 600
    /\ forall text,
         llm_text reply = Some text ->
         600 < JS.length (trim text) ->
         (exists i,
            200 < i < 600
            /\ chars (trim text) !! i = Some "."%char
            /\ (forall j, i < j < 600 -> chars (trim text) !! j <> Some "."%char)
            /\ chars (r_recommendation r) = take (i + 1) (chars (trim text)))
         \/ ((forall j, 200 < j < 600 -> chars (trim text) !! j <> Some "."%char)
             /\ chars (r_recommendation r)
                = take 597 (chars (trim text)) ++ chars "...").
Proof.
  intros Hcall.
  destruct (generateRecommendation_generated _ _ _ _ _ Hcall) as (st' & Hrun).
  eexists _, st'. split; [exact Hrun|]. cbn [r_recommendation].
  split; [apply truncateRecommendation_length|].
  intros text Htext Hlong. rewrite Htext.
  apply truncateRecommendation_long. exact Hlong.
Qed.

(** ** The random choice of similar titles *)

Ltac nodup_strings :=
  repeat (apply NoDup_cons_2;
          [rewrite ?not_elem_of_cons; repeat split; try discriminate;
           apply not_elem_of_nil|]);
  apply NoDup_nil_2.

Section SimilarTitles.

Variable random : nat -> Q.

(** The binary search never runs out of turns: any number of turns that
    is at least the width of the interval gives the same insertion
    point. *)
Lemma binarySearch_enough (fuel : nat) :
  forall fuel' left right i,
    right - left <= fuel -> right - left <= fuel' ->
    binarySearch random fuel left right i = binarySearch random fuel' left right i.
Proof.
  induction fuel as [|fuel IH]; intros fuel' left right i H H'.
  - destruct fuel' as [|fuel']; cbn [binarySearch]; [reflexivity|].
    destruct (left <? right)%nat eqn:E; [|reflexivity].
    apply Nat.ltb_lt in E. lia.
  - cbn [binarySearch]. destruct (left <? right)%nat eqn:E.
    + destruct fuel' as [|fuel']; [apply Nat.ltb_lt in E; lia|].
      cbn [binarySearch]. rewrite E. apply Nat.ltb_lt in E.
      assert (Hhalf : (right - left) / 2 < right - left)
        by (apply Nat.div_lt; lia).
      destruct (negativeOrder random i); apply IH; lia.
    + destruct fuel' as [|fuel']; cbn [binarySearch]; [reflexivity|].
      rewrite E. reflexivity.
Qed.

Lemma binaryInsertionSort_perm (rest sorted : list string) (i : nat) :
  Permutation (fst (binaryInsertionSort random sorted rest i)) (sorted ++ rest).
Proof.
  revert sorted i. induction rest as [|pivot tl IH]; intros sorted i; simpl.
  - rewrite app_nil_r. reflexivity.
  - destruct (binarySearch random (List.length sorted) 0 (List.length sorted) i)
      as [point j].
    rewrite IH. rewrite <- app_assoc. simpl.
    rewrite <- (take_drop point sorted) at 3. rewrite <- !app_assoc.
    apply Permutation_app_head. apply Permutation_middle.
Qed.

Lemma sortRandom_perm (l : list string) (i : nat) :
  Permutation (fst (sortRandom random l i)) l.
Proof.
  unfold sortRandom. destruct l as [|a [|b rest]]; [reflexivity|reflexivity|].
  destruct (extendRun random (negativeOrder random i) rest (S i)) as [n j].
  rewrite binaryInsertionSort_perm.
  transitivity (take (2 + n) (a :: b :: rest) ++ drop (2 + n) (a :: b :: rest));
    [|rewrite take_drop; reflexivity].
  apply Permutation_app_tail.
  destruct (negativeOrder random i); [|reflexivity].
  symmetry. apply Permutation_rev.
Qed.

(** Every row of the genre table has four distinct titles; there are
    fifteen rows. *)
Lemma genreMovies_rows :
  List.length genreMovies = 15
  /\ Forall (fun entry => List.length (snd entry) = 4 /\ NoDup (snd entry))
            genreMovies.
Proof.
  split; [reflexivity|].
  unfold genreMovies.
  repeat (constructor; [split; [reflexivity|nodup_strings]|]).
  constructor.
Qed.

Lemma matchGenre_row (genre key : string) (row : list string) :
  matchGenre genre = Some (key, row) ->
  In (key, row) genreMovies /\ List.length row = 4 /\ NoDup row.
Proof.
  intros H. unfold matchGenre in H. apply find_some in H as [Hin _].
  split; [exact Hin|].
  destruct genreMovies_rows as [_ Hrows].
  rewrite Forall_forall in Hrows. apply list_elem_of_In in Hin.
  exact (Hrows _ Hin).
Qed.

Lemma getSimilarMoviesByGenre_from (genre : string) (i : nat) :
  similarFrom genre (fst (getSimilarMoviesByGenre random genre i)).
Proof.
  unfold similarFrom, getSimilarMoviesByGenre.
  destruct (matchGenre genre) as [[key row]|] eqn:E; [|reflexivity].
  destruct (matchGenre_row _ _ _ E) as (_ & Hlen & Hnd).
  pose proof (sortRandom_perm row i) as Hperm.
  destruct (sortRandom random row i) as [shuffled j]. simpl in *.
  split; [|split].
  - rewrite length_take, (Permutation_length Hperm). lia.
  - apply (sublist_NoDup _ shuffled); [|apply sublist_take].
    rewrite Hperm. exact Hnd.
  - intros t Ht. apply (Permutation_in _ Hperm).
    apply list_elem_of_In. apply list_elem_of_In in Ht.
    exact (subseteq_take 3 shuffled t Ht).
Qed.

Lemma similarFrom_length (genre : string) (titles : list string) :
  similarFrom genre titles -> List.length titles = 3.
Proof.
  unfold similarFrom. destruct (matchGenre genre) as [[key row]|].
  - intros (H & _). exact H.
  - intros ->. reflexivity.
Qed.

End SimilarTitles.

Section RandomSource.

Lemma negativeOrder_ext (f g : nat -> Q) :
  (forall n, f n = g n) -> forall i, negativeOrder f i = negativeOrder g i.
Proof. intros Hfg i. unfold negativeOrder. rewrite Hfg. reflexivity. Qed.

Lemma extendRun_ext (f g : nat -> Q) (isDescending : bool) (rest : list string) :
  (forall n, f n = g n) ->
  forall i, extendRun f isDescending rest i = extendRun g isDescending rest i.
Proof.
  intros Hfg. induction rest as [|x tl IH]; intros i; simpl; [reflexivity|].
  rewrite (negativeOrder_ext f g Hfg), IH. reflexivity.
Qed.

Lemma binarySearch_ext (f g : nat -> Q) (fuel : nat) :
  (forall n, f n = g n) ->
  forall left right i,
    binarySearch f fuel left right i = binarySearch g fuel left right i.
Proof.
  intros Hfg. induction fuel as [|fuel IH]; intros left right i; simpl;
    [reflexivity|].
  rewrite (negativeOrder_ext f g Hfg), !IH. reflexivity.
Qed.

Lemma binaryInsertionSort_ext (f g : nat -> Q) (rest : list string) :
  (forall n, f n = g n) ->
  forall sorted i,
    binaryInsertionSort f sorted rest i = binaryInsertionSort g sorted rest i.
Proof.
  intros Hfg. induction rest as [|pivot tl IH]; intros sorted i; simpl;
    [reflexivity|].
  rewrite (binarySearch_ext f g _ Hfg).
  destruct (binarySearch g (List.length sorted) 0 (List.length sorted) i).
  apply IH.
Qed.

Lemma sortRandom_ext (f g : nat -> Q) (l : list string) (i : nat) :
  (forall n, f n = g n) -> sortRandom f l i = sortRandom g l i.
Proof.
  intros Hfg. unfold sortRandom. destruct l as [|a [|b rest]]; try reflexivity.
  rewrite (negativeOrder_ext f g Hfg), (extendRun_ext f g _ rest Hfg).
  destruct (extendRun g (negativeOrder g i) rest (S i)) as [n j].
  apply binaryInsertionSort_ext. exact Hfg.
Qed.

Lemma getSimilarMoviesByGenre_ext (f g : nat -> Q) (genre : string) (i : nat) :
  (forall n, f n = g n) ->
  getSimilarMoviesByGenre f genre i = getSimilarMoviesByGenre g genre i.
Proof.
  intros Hfg. unfold getSimilarMoviesByGenre.
  destruct (matchGenre genre) as [[key row]|]; [|reflexivity].
  rewrite (sortRandom_ext f g row i Hfg). reflexivity.
Qed.

End RandomSource.

(** The shuffle on the Action row: with draws above and below 0.5 in
    turn the leading run is the first two titles, descending, and the
    two other titles are inserted after two comparisons each. *)
Example sortRandom_samples :
  sortRandom (fun n => if Nat.even n then 3 # 4 else 1 # 4)
             ["John Wick"; "Mad Max: Fury Road"; "The Dark Knight"; "Terminator 2"] 0
  = (["Mad Max: Fury Road"; "Terminator 2"; "The Dark Knight"; "John Wick"], 6)
  /\ sortRandom (fun n => if Nat.even n then 1 # 4 else 3 # 4)
                ["John Wick"; "Mad Max: Fury Road"; "The Dark Knight"; "Terminator 2"] 0
     = (["John Wick"; "Terminator 2"; "Mad Max: Fury Road"; "The Dark Knight"], 5)
  /\ sortRandom (fun _ => 1 # 4)
                ["John Wick"; "Mad Max: Fury Road"; "The Dark Knight"; "Terminator 2"] 0
     = (["John Wick"; "Mad Max: Fury Road"; "The Dark Knight"; "Terminator 2"], 3)
  /\ sortRandom (fun _ => 3 # 4)
                ["John Wick"; "Mad Max: Fury Road"; "The Dark Knight"; "Terminator 2"] 0
     = (["Terminator 2"; "The Dark Knight"; "Mad Max: Fury Road"; "John Wick"], 3).
Proof. repeat split; vm_compute; reflexivity. Qed.

(** ** Worth watching *)

(** C1.  Whether the chain answers or throws, [generateRecommendation]
    returns a recommendation whose [worth_watching] is true exactly when
    [parseFloat] of the rating (of ["0"] for an empty rating) is a number
    at least 7.0: true for "8.5", false for "6.9", for an empty rating,
    for the "N/A" a missing rating is normalized to, and for a
    non-numeric rating. *)
Theorem C1_worth_watching_threshold :
  (forall W movieData conversationId st,
     exists r st',
       generateRecommendation W movieData conversationId st = (Ok r, st')
       /\ (r_worth_watching r = true
           <-> numberGe (parseFloat (orElse (m_imdbRating movieData) "0")) 7
               = true))
  /\ worthWatchingOf "8.5" = true
  /\ worthWatchingOf "6.9" = false
  /\ worthWatchingOf "" = false
  /\ worthWatchingOf "N/A" = false
  /\ worthWatchingOf "excellent" = false
  /\ field2 ∅ "imdbRating" "imdbrating" "N/A" = "N/A".
Proof.
  split; [|repeat split; vm_compute; reflexivity].
  intros W movieData conversationId st.
  destruct (recommendationChain W (clock st)
              (recommendationInputOf (conversationStore st !! conversationId)
                                     movieData)) as [reply|e] eqn:E.
  - destruct (generateRecommendation_generated _ _ _ _ _ E) as (st' & ->).
    eexists _, _. split; [reflexivity|]. reflexivity.
  - destruct (generateRecommendation_fallback _ _ _ _ _ E) as (st' & ->).
    destruct (getSimilarMoviesByGenre _ _ _) as [titles j].
    eexists _, _. split; [reflexivity|]. reflexivity.
Qed.

(** ** The failure fallback *)

Lemma find_first {A : Type} (f : A -> bool) (l : list A) (x : A) :
  find f l = Some x <->
  exists n, l !! n = Some x /\ f x = true
            /\ forall m y, m < n -> l !! m = Some y -> f y = false.
Proof.
  induction l as [|y l IH]; simpl.
  - split; [discriminate|]. intros (n & H & _). destruct n; discriminate.
  - destruct (f y) eqn:E.
    + split.
      * intros [= <-]. exists 0. split; [reflexivity|]. split; [exact E|].
        intros m z Hm. lia.
      * intros ([|n] & Hn & Hx & Hfirst).
        -- simpl in Hn. exact Hn.
        -- specialize (Hfirst 0 y ltac:(lia) eq_refl). congruence.
    + rewrite IH. split.
      * intros (n & Hn & Hx & Hfirst). exists (S n). split; [exact Hn|].
        split; [exact Hx|]. intros [|m] z Hm Hz.
        -- simpl in Hz. injection Hz as <-. exact E.
        -- apply (Hfirst m z); [lia|exact Hz].
      * intros ([|n] & Hn & Hx & Hfirst).
        -- simpl in Hn. injection Hn as <-. congruence.
        -- exists n. split; [exact Hn|]. split; [exact Hx|].
           intros m z Hm Hz. apply (Hfirst (S m) z); [lia|exact Hz].
Qed.

(** A genre that is written as the table writes it uses its own row. *)
Lemma matchGenre_key :
  Forall (fun entry => matchGenre (fst entry) = Some entry) genreMovies.
Proof. unfold genreMovies. repeat constructor. Qed.

(** C6.  When the generation call throws, [generateRecommendation] does
    not throw: it returns a recommendation with an id and a creation time
    from the UUID and clock sources, the movie's id, [worth_watching]
    decided by the 7.0 threshold, and the template text whose quality
    phrase follows the same threshold and which ends with three similar
    titles.  The table has the fifteen genres Action, Drama, Comedy,
    Thriller, Horror, Sci-Fi, Fantasy, Romance, Crime, Animation,
    Adventure, War, Documentary, Biography and Mystery, each with a row
    of four distinct titles.  The genre text of
    the movie (Drama when it is empty) is looked up in it: the first
    genre of the table that contains the text or is contained in it,
    letter case aside, gives its row, and the three titles are three
    distinct titles of that row; in particular a movie whose genre is
    written as the table writes it gets titles of its own row.  When no
    genre of the table matches, the titles are the three fixed popular
    titles. *)
Theorem C6_fallback_complete W movieData conversationId st e :
  recommendationChain W (clock st)
    (recommendationInputOf (conversationStore st !! conversationId) movieData)
  = Throw e ->
  exists r st' titles,
    generateRecommendation W movieData conversationId st = (Ok r, st')
    /\ (exists n, r_id r = randomUUID W n)
    /\ r_movie_id r = m_id movieData
    /\ r_worth_watching r
       = numberGe (parseFloat (orElse (m_imdbRating movieData) "0")) 7
    /\ (exists n, r_created_at r = toISOString W n)
    /\ r_recommendation r
       = dq +:+ m_title movieData +:+ dq +:+ " (" +:+ m_year movieData +:+ ") - "
         +:+ (if r_worth_watching r
              then "Worth watching with solid ratings and engaging content."
              else "Consider carefully as ratings suggest mixed reception.")
         +:+ " Appeals to fans of " +:+ m_genre movieData
         +:+ " cinema and those seeking "
         +:+ (if r_worth_watching r
              then "quality entertainment" else "alternative viewing")
         +:+ ". Similar movies: " +:+ join ", " titles +:+ "."
    /\ List.length titles = 3
    /\ (forall n key row,
          genreMovies !! n = Some (key, row) ->
          genreMatches (orElse (m_genre movieData) "Drama") key = true ->
          (forall m key' row',
             m < n -> genreMovies !! m = Some (key', row') ->
             genreMatches (orElse (m_genre movieData) "Drama") key' = false) ->
          NoDup titles /\ forall t, In t titles -> In t row)
    /\ (forall key row,
          In (key, row) genreMovies -> m_genre movieData = key ->
          NoDup titles /\ forall t, In t titles -> In t row)
    /\ ((forall key row,
           In (key, row) genreMovies ->
           genreMatches (orElse (m_genre movieData) "Drama") key = false) ->
        titles = ["The Dark Knight"; "Inception"; "Pulp Fiction"])
    /\ map fst genreMovies
       = ["Action"; "Drama"; "Comedy"; "Thriller"; "Horror"; "Sci-Fi";
          "Fantasy"; "Romance"; "Crime"; "Animation"; "Adventure"; "War";
          "Documentary"; "Biography"; "Mystery"]
    /\ Forall (fun entry => List.length (snd entry) = 4 /\ NoDup (snd entry))
              genreMovies.
Proof.
  intros Hcall.
  destruct (generateRecommendation_fallback _ _ _ _ _ Hcall) as (st' & Hrun).
  pose proof (getSimilarMoviesByGenre_from (mathRandom W)
                (orElse (m_genre movieData) "Drama") (S (clock st))) as Hfrom.
  destruct (getSimilarMoviesByGenre _ _ _) as [titles j]. simpl in Hfrom.
  set (genre := orElse (m_genre movieData) "Drama") in *.
  assert (Hrow : forall key row,
             matchGenre genre = Some (key, row) ->
             NoDup titles /\ forall t, In t titles -> In t row).
  { intros key row E. unfold similarFrom in Hfrom. rewrite E in Hfrom. tauto. }
  eexists _, st', titles. split; [exact Hrun|]. cbn [r_id r_movie_id
    r_worth_watching r_created_at r_recommendation].
  split; [eauto|]. split; [reflexivity|]. split; [reflexivity|].
  split; [eauto|]. split.
  { unfold fallbackText. rewrite (take_ge titles 3); [reflexivity|].
    rewrite (similarFrom_length _ _ Hfrom). lia. }
  split; [exact (similarFrom_length _ _ Hfrom)|]. split.
  { intros n key row Hn Hmatch Hfirst. apply (Hrow key row). unfold matchGenre.
    apply find_first. exists n. split; [exact Hn|]. split; [exact Hmatch|].
    intros m [key' row'] Hm Hy. exact (Hfirst m key' row' Hm Hy). }
  split.
  { intros key row Hin Hkey. apply (Hrow key row).
    assert (Hgenre : genre = key).
    { unfold genre, orElse. rewrite Hkey.
      destruct (String.eqb key "") eqn:E; [|reflexivity].
      apply String.eqb_eq in E. rewrite E in Hin. exfalso.
      unfold genreMovies in Hin. cbn [In] in Hin.
      repeat (destruct Hin as [Hin|Hin]; [discriminate Hin|]). exact Hin. }
    rewrite Hgenre. pose proof matchGenre_key as Hall.
    rewrite List.Forall_forall in Hall. exact (Hall (key, row) Hin). }
  split; [|split; [reflexivity|exact (proj2 genreMovies_rows)]].
  intros Hnone. unfold similarFrom in Hfrom.
  destruct (matchGenre genre) as [[key row]|] eqn:E; [|exact Hfrom].
  unfold matchGenre in E. apply find_some in E. destruct E as [Hin Hmatch].
  specialize (Hnone key row Hin). unfold genreMatches in Hnone.
  simpl in Hmatch. congruence.
Qed.

(** C7 (as amended).  Two runs of the failure fallback on the same movie
    produce the template text of that movie with three similar titles
    each; the two triples come from the same source (three distinct
    titles of the genre row that matches, or the fixed popular titles).
    The two texts are equal when no genre row matches, and when both runs
    start at the same clock and see the same [Math.random] draws. *)
Theorem C7_fallback_up_to_titles W1 W2 movieData conversationId st1 st2 e1 e2 :
  recommendationChain W1 (clock st1)
    (recommendationInputOf (conversationStore st1 !! conversationId) movieData)
  = Throw e1 ->
  recommendationChain W2 (clock st2)
    (recommendationInputOf (conversationStore st2 !! conversationId) movieData)
  = Throw e2 ->
  exists r1 st1' r2 st2' titles1 titles2,
    generateRecommendation W1 movieData conversationId st1 = (Ok r1, st1')
    /\ generateRecommendation W2 movieData conversationId st2 = (Ok r2, st2')
    /\ r_recommendation r1 = fallbackText movieData titles1
    /\ r_recommendation r2 = fallbackText movieData titles2
    /\ similarFrom (orElse (m_genre movieData) "Drama") titles1
    /\ similarFrom (orElse (m_genre movieData) "Drama") titles2
    /\ (matchGenre (orElse (m_genre movieData) "Drama") = None ->
        r_recommendation r1 = r_recommendation r2)
    /\ ((forall n, mathRandom W1 n = mathRandom W2 n) ->
        clock st1 = clock st2 ->
        r_recommendation r1 = r_recommendation r2).
Proof.
  intros H1 H2.
  destruct (generateRecommendation_fallback _ _ _ _ _ H1) as (st1' & Hrun1).
  destruct (generateRecommendation_fallback _ _ _ _ _ H2) as (st2' & Hrun2).
  pose proof (getSimilarMoviesByGenre_from (mathRandom W1)
                (orElse (m_genre movieData) "Drama") (S (clock st1))) as Hfrom1.
  pose proof (getSimilarMoviesByGenre_from (mathRandom W2)
                (orElse (m_genre movieData) "Drama") (S (clock st2))) as Hfrom2.
  pose proof (getSimilarMoviesByGenre_ext (mathRandom W1) (mathRandom W2)
                (orElse (m_genre movieData) "Drama") (S (clock st1))) as Hext.
  destruct (getSimilarMoviesByGenre (mathRandom W1) _ _) as [titles1 j1].
  destruct (getSimilarMoviesByGenre (mathRandom W2) _ (S (clock st2)))
    as [titles2 j2] eqn:E2.
  simpl in Hfrom1, Hfrom2.
  eexists _, st1', _, st2', titles1, titles2.
  split; [exact Hrun1|]. split; [exact Hrun2|].
  cbn [r_recommendation].
  split; [reflexivity|]. split; [reflexivity|].
  split; [exact Hfrom1|]. split; [exact Hfrom2|]. split.
  - intros Hnone. unfold similarFrom in Hfrom1, Hfrom2.
    rewrite Hnone in Hfrom1, Hfrom2. subst. reflexivity.
  - intros Hsame Hclock. rewrite Hclock in Hext. rewrite <- (Hext Hsame) in E2.
    injection E2 as -> _. reflexivity.
Qed.

(** C7 (as stated) fails: with the same movie, the same conversation id
    and the same state, a run whose random draws are all 1/4 (every
    comparison positive: the row keeps its order) and a run whose draws
    are all 3/4 (every comparison negative: the row is reversed) return
    different fallback texts. *)
Lemma C7_fallback_texts_differ :
  exists r1 st1 r2 st2,
    generateRecommendation (failingWorld (1 # 4)) (sampleMovie "8.5" "Action")
                           "c1" emptyState = (Ok r1, st1)
    /\ generateRecommendation (failingWorld (3 # 4)) (sampleMovie "8.5" "Action")
                              "c1" emptyState = (Ok r2, st2)
    /\ endsWith (r_recommendation r1)
         "Similar movies: John Wick, Mad Max: Fury Road, The Dark Knight."
       = true
    /\ endsWith (r_recommendation r2)
         "Similar movies: Terminator 2, The Dark Knight, Mad Max: Fury Road."
       = true
    /\ r_recommendation r1 <> r_recommendation r2.
Proof.
  eexists _, _, _, _. split; [vm_compute; reflexivity|].
  split; [vm_compute; reflexivity|].
  split; [vm_compute; reflexivity|]. split; [vm_compute; reflexivity|].
  apply String.eqb_neq. vm_compute. reflexivity.
Qed.

(** ** The generator theorems on sample inputs *)


(** C6 for a movie rated 6.9 whose genre text is "Crime, Drama", in a
    world whose chains throw: Drama comes before Crime in the table, so
    the three titles are titles of the Drama row. *)
Lemma C6_fallback_complete_witness :
  recommendationChain (failingWorld (1 # 4)) 0
    (recommendationInputOf None (sampleMovie "6.9" "Crime, Drama"))
  = Throw "model error"
  /\ exists r st' titles,
       generateRecommendation (failingWorld (1 # 4))
         (sampleMovie "6.9" "Crime, Drama") "c1" emptyState = (Ok r, st')
       /\ r_movie_id r = "m1"
       /\ r_worth_watching r = false
       /\ r_recommendation r
          = dq +:+ "Heat" +:+ dq +:+ " (1995) - "
            +:+ "Consider carefully as ratings suggest mixed reception."
            +:+ " Appeals to fans of Crime, Drama"
            +:+ " cinema and those seeking alternative viewing"
            +:+ ". Similar movies: " +:+ join ", " titles +:+ "."
       /\ List.length titles = 3
       /\ NoDup titles
       /\ forall t, In t titles ->
                    In t ["The Shawshank Redemption"; "Forrest Gump";
                          "Goodfellas"; "Casablanca"].
Proof.
  split; [reflexivity|].
  destruct (C6_fallback_complete (failingWorld (1 # 4))
              (sampleMovie "6.9" "Crime, Drama") "c1" emptyState "model error"
              eq_refl)
    as (r & st' & titles & Hrun & _ & Hmovie & Hworth & _ & Htext & Hlen
        & Hfirst & _).
  assert (Hfalse : r_worth_watching r = false)
    by (rewrite Hworth; vm_compute; reflexivity).
  rewrite Hfalse in Htext.
  exists r, st', titles. split; [exact Hrun|]. split; [exact Hmovie|].
  split; [exact Hfalse|].
  assert (Hrow : NoDup titles
                 /\ forall t, In t titles ->
                              In t ["The Shawshank Redemption"; "Forrest Gump";
                                    "Goodfellas"; "Casablanca"]).
  { apply (Hfirst 1 "Drama"); [reflexivity|vm_compute; reflexivity|].
    intros [|m] key' row' Hm Hentry; [|lia].
    injection Hentry as <- _. vm_compute. reflexivity. }
  split; [exact Htext|]. split; [exact Hlen|exact Hrow].
Defined.

(** C7 (as amended) for a genre that matches no row: draws of 1/4 and
    draws of 3/4 give the same text. *)
Lemma C7_fallback_up_to_titles_witness :
  exists r1 r2,
    fst (generateRecommendation (failingWorld (1 # 4))
           (sampleMovie "8.5" "Western") "c1" emptyState) = Ok r1
    /\ fst (generateRecommendation (failingWorld (3 # 4))
              (sampleMovie "8.5" "Western") "c1" emptyState) = Ok r2
    /\ r_recommendation r1 = r_recommendation r2.
Proof.
  destruct (C7_fallback_up_to_titles (failingWorld (1 # 4)) (failingWorld (3 # 4))
              (sampleMovie "8.5" "Western") "c1" emptyState emptyState
              "model error" "model error" eq_refl eq_refl)
    as (r1 & st1 & r2 & st2 & t1 & t2 & H1 & H2 & _ & _ & _ & _ & Hnone & _).
  exists r1, r2. rewrite H1, H2. split; [reflexivity|]. split; [reflexivity|].
  apply Hnone. vm_compute. reflexivity.
Defined.

(** C8 for a generated text of 879 characters: the stored text is cut
    after a full stop past index 200. *)
Lemma C8_truncation_witness :
  600 < JS.length (trim longText)
  /\ exists r st',
       generateRecommendation (answeringWorld "Heat" longText None)
                              (sampleMovie "8.5" "Crime") "c1" emptyState
       = (Ok r, st')
       /\ JS.length (r_recommendation r) <= 600
       /\ exists i, 200 < i < 600
                    /\ chars (r_recommendation r)
                       = take (i + 1) (chars (trim longText)).
Proof.
  assert (Hlong : 600 < JS.length (trim longText)) by (vm_compute; lia).
  split; [exact Hlong|].
  destruct (C8_truncation (answeringWorld "Heat" longText None)
              (sampleMovie "8.5" "Crime") "c1" emptyState
              {| llm_text := Some longText; llm_totalTokens := Some 40 |}
              eq_refl)
    as (r & st' & Hrun & Hlen & Hcut).
  exists r, st'. split; [exact Hrun|]. split; [exact Hlen|].
  destruct (Hcut longText eq_refl Hlong) as [(i & Hi & _ & _ & E)|[Hnone _]].
  - exists i. split; [exact Hi|exact E].
  - exfalso. apply (Hnone 592); [lia|]. vm_compute. reflexivity.
Defined.

(** ** Query classifier *)

(** C2 (as amended).  A query that matches a comparison pattern and none
    of the movie-query patterns, which are checked first, is classified as
    general conversation, whatever general, recommendation or
    movie-context patterns it also matches. *)
Theorem C2_comparison_is_general (query : string) :
  anyTest comparisonPatterns (trim query) = true ->
  anyTest movieQueryPatterns (trim query) = false ->
  detectGeneralConversation query = true.
Proof.
  intros Hcmp Hmovie. unfold detectGeneralConversation.
  rewrite Hmovie, Hcmp. reflexivity.
Qed.

(** C2 (as amended) for "which is better?". *)
Lemma C2_comparison_is_general_witness :
  anyTest comparisonPatterns (trim "which is better?") = true
  /\ anyTest movieQueryPatterns (trim "which is better?") = false
  /\ detectGeneralConversation "which is better?" = true.
Proof.
  assert (H1 : anyTest comparisonPatterns (trim "which is better?") = true)
    by (vm_compute; reflexivity).
  assert (H2 : anyTest movieQueryPatterns (trim "which is better?") = false)
    by (vm_compute; reflexivity).
  split; [exact H1|]. split; [exact H2|].
  exact (C2_comparison_is_general "which is better?" H1 H2).
Defined.

(** C2 (as stated) fails: "what about Batman" matches the comparison
    pattern [^(which one|which movie|what about)] and is sent to title
    resolution, because it also matches the movie-query pattern
    [^(what about|tell me about|about)\s+...] that is checked first. *)
Lemma C2_comparison_sent_to_lookup :
  anyTest comparisonPatterns (trim "what about Batman") = true
  /\ test (rei "^(what about|tell me about|about)\s+[a-zA-Z][a-zA-Z\s:'-]+$")
          (trim "what about Batman") = true
  /\ detectGeneralConversation "what about Batman" = false.
Proof. repeat split; vm_compute; reflexivity. Qed.

(** C3 (the code at the failing inputs).  Each of the six bare tokens
    matches the movie-query pattern [^[a-zA-Z][a-zA-Z\s:'-]+$], which is
    tested before the simple-response patterns, so the classifier answers
    "not general" for all of them. *)
Theorem C3_bare_tokens_sent_to_lookup :
  map detectGeneralConversation ["yes"; "yeah"; "yep"; "sure"; "no"; "nope"]
  = [false; false; false; false; false; false]
  /\ map (test (rei "^[a-zA-Z][a-zA-Z\s:'-]+$"))
         ["yes"; "yeah"; "yep"; "sure"; "no"; "nope"]
     = [true; true; true; true; true; true]
  /\ map (test (rei "^(yes|yeah|yep|sure|no|nope)$"))
         ["yes"; "yeah"; "yep"; "sure"; "no"; "nope"]
     = [true; true; true; true; true; true].
Proof. repeat split; vm_compute; reflexivity. Qed.

(** ** Regular expressions: facts about the matcher *)

Section RegexFacts.

Variable icase : bool.

Lemma run_class (neg : bool) (items : list class_item) (c : ascii)
  (prev : option ascii) (tl : list ascii) :
  classMem icase neg items c = true ->
  run icase (Class neg items) (prev, c :: tl) = [(Some c, tl)].
Proof. intros H. simpl. rewrite H. reflexivity. Qed.

Lemma in_run_seq (a b : regex) (p m q : pos) :
  In m (run icase a p) -> In q (run icase b m) -> In q (run icase (Seq a b) p).
Proof. intros Hm Hq. simpl. apply in_flat_map. eauto. Qed.

Lemma in_run_alt_l (a b : regex) (p q : pos) :
  In q (run icase a p) -> In q (run icase (Alt a b) p).
Proof. intros H. simpl. apply in_or_app. auto. Qed.

Lemma in_run_alt_r (a b : regex) (p q : pos) :
  In q (run icase b p) -> In q (run icase (Alt a b) p).
Proof. intros H. simpl. apply in_or_app. auto. Qed.

Lemma in_run_bol (l : list ascii) : In (None, l) (run icase Bol (None, l)).
Proof. simpl. auto. Qed.

Lemma in_run_eol (prev : option ascii) :
  In (prev, []) (run icase Eol (prev, [])).
Proof. simpl. auto. Qed.

(** Further iterations of a one-character class can stop after any run
    of characters of the class, within the bound. *)
Lemma in_repMore_class (neg : bool) (items : list class_item) (greedy : bool)
  (rest : list ascii) :
  forall (l : list ascii) (prev : option ascii) (fuel : nat) (max : option nat),
    forallb (classMem icase neg items) l = true ->
    List.length l <= fuel ->
    match max with Some m => List.length l <= m | None => True end ->
    In (after prev l, rest)
       (repMore (run icase (Class neg items)) greedy fuel max (prev, l ++ rest)).
Proof.
  induction l as [|c l IH]; intros prev fuel max Hall Hfuel Hmax.
  - simpl. destruct fuel; simpl; [auto|].
    destruct max as [[|m]|]; simpl; [auto| |];
      destruct greedy; simpl; try (apply in_or_app; right); simpl; auto.
  - simpl in Hall. apply andb_true_iff in Hall as [Hc Hall].
    destruct fuel as [|fuel]; [simpl in Hfuel; lia|].
    assert (Hin :
      In (after prev (c :: l), rest)
         (flat_map (repMore (run icase (Class neg items)) greedy fuel
                            (option_map Nat.pred max))
            (List.filter (fun q => shorter q (prev, (c :: l) ++ rest))
                    (run icase (Class neg items) (prev, (c :: l) ++ rest))))).
    { change ((c :: l) ++ rest) with (c :: (l ++ rest)).
      rewrite run_class by exact Hc.
      assert (Hs : shorter (Some c, l ++ rest) (prev, c :: l ++ rest) = true).
      { unfold shorter. simpl. apply Nat.ltb_lt. lia. }
      cbn [List.filter]. rewrite Hs.
      cbn [flat_map]. apply in_or_app. left. simpl.
      apply IH; [exact Hall|simpl in Hfuel; lia|].
      destruct max as [m|]; simpl in *; [lia|exact I]. }
    cbn [repMore].
    destruct max as [[|m]|]; [simpl in Hmax; lia| |];
      destruct greedy; try (apply in_or_app; left; exact Hin);
      right; exact Hin.
Qed.

Lemma in_repMin_class (neg : bool) (items : list class_item)
  (k : pos -> list pos) (rest : list ascii) (q : pos) :
  forall (l : list ascii) (prev : option ascii),
    forallb (classMem icase neg items) l = true ->
    In q (k (after prev l, rest)) ->
    In q (repMin (run icase (Class neg items)) k (List.length l) (prev, l ++ rest)).
Proof.
  induction l as [|c l IH]; intros prev Hall Hq; [exact Hq|].
  simpl in Hall. apply andb_true_iff in Hall as [Hc Hall].
  cbn [List.length repMin]. change ((c :: l) ++ rest) with (c :: (l ++ rest)).
  rewrite run_class by exact Hc. cbn [flat_map]. apply in_or_app. left.
  apply IH; assumption.
Qed.

Lemma run_rep_eq (min : nat) (max : option nat) (greedy : bool) (r : regex)
  (p : pos) :
  run icase (Rep min max greedy r) p
  = repMin (run icase r)
           (repMore (run icase r) greedy (S (List.length (snd p)))
                    (option_map (fun m => m - min) max))
           min p.
Proof. reflexivity. Qed.

Lemma after_app (p : option ascii) (a b : list ascii) :
  after p (a ++ b) = after (after p a) b.
Proof. revert p. induction a as [|x a IH]; intros p; simpl; auto. Qed.

(** A quantified one-character class can read any run of characters of
    the class whose length is within the bounds of the quantifier. *)
Lemma in_run_rep_class (neg : bool) (items : list class_item) (greedy : bool)
  (min : nat) (max : option nat) (l rest : list ascii) (prev : option ascii) :
  forallb (classMem icase neg items) l = true ->
  min <= List.length l ->
  match max with Some m => List.length l <= m | None => True end ->
  In (after prev l, rest)
     (run icase (Rep min max greedy (Class neg items)) (prev, l ++ rest)).
Proof.
  intros Hall Hmin Hmax.
  assert (Hsplit : l = take min l ++ drop min l) by (symmetry; apply take_drop).
  assert (Hlen : List.length (take min l) = min) by (rewrite length_take; lia).
  remember (take min l) as l1 eqn:E1. remember (drop min l) as l2 eqn:E2.
  clear E1 E2. subst l min.
  rewrite forallb_app in Hall. apply andb_true_iff in Hall as [H1 H2].
  rewrite length_app in Hmax.
  rewrite run_rep_eq, <- app_assoc, after_app.
  apply in_repMin_class; [exact H1|].
  apply in_repMore_class; [exact H2| |].
  - cbn [snd]. rewrite !length_app. lia.
  - destruct max as [m|]; simpl; [lia|exact I].
Qed.

End RegexFacts.

Lemma test_of_run (rx : RegExp) (s : string) (q : pos) :
  In q (run (re_icase rx) (re_ast rx) (None, chars s)) -> test rx s = true.
Proof.
  intros H. unfold test, exec.
  destruct (chars s) as [|c l]; simpl;
    destruct (run (re_icase rx) (re_ast rx) _); try contradiction; reflexivity.
Qed.

(** ** The direct bypass of the title resolver *)

Ltac ascii_cases :=
  let c := fresh "c" in
  intros c; destruct c as [[] [] [] [] [] [] [] []]; vm_compute; intros;
  first [reflexivity | discriminate].

Ltac read_literal :=
  unfold Lit; rewrite run_class by reflexivity; left; reflexivity.

Section Bypass.

Lemma forallb_impl (p q : ascii -> bool) (l : list ascii) :
  (forall c, p c = true -> q c = true) ->
  forallb p l = true -> forallb q l = true.
Proof.
  intros Hpq. induction l as [|c l IH]; simpl; [auto|].
  intros H. apply andb_true_iff in H as [Hc Hl].
  rewrite (Hpq _ Hc), (IH Hl). reflexivity.
Qed.

Lemma letter_class :
  forall c, isLetter c = true ->
            classMem true false [CRange "a" "z"; CRange "A" "Z"] c = true.
Proof. ascii_cases. Qed.

Lemma title_class :
  forall c, isTitleChar c = true ->
            classMem true false
              [CRange "a" "z"; CRange "A" "Z"; CSpace; CRange ":" ":";
               CRange "'" "'"; CRange "-" "-"] c = true.
Proof. ascii_cases. Qed.

Lemma name_class :
  forall c, isNameChar c = true ->
            classMem true false [CRange "a" "z"; CRange "A" "Z"; CSpace] c = true.
Proof. ascii_cases. Qed.

Lemma space_class :
  forall c, isSpace c = true -> classMem true false [CSpace] c = true.
Proof. ascii_cases. Qed.

Lemma digit_class :
  forall c, isDigit c = true -> classMem true false [CDigit] c = true.
Proof. ascii_cases. Qed.

Lemma lower_w : forall c, lowerChar c = "w"%char ->
                          classMem true false [CRange "w" "w"] c = true.
Proof. ascii_cases. Qed.

Lemma lower_i : forall c, lowerChar c = "i"%char ->
                          classMem true false [CRange "i" "i"] c = true.
Proof. ascii_cases. Qed.

Lemma lower_t : forall c, lowerChar c = "t"%char ->
                          classMem true false [CRange "t" "t"] c = true.
Proof. ascii_cases. Qed.

Lemma lower_h : forall c, lowerChar c = "h"%char ->
                          classMem true false [CRange "h" "h"] c = true.
Proof. ascii_cases. Qed.

Lemma directMovieWithSpecifics_ast :
  re_icase directMovieWithSpecifics = true
  /\ re_ast directMovieWithSpecifics
     = Seq (Seq (Seq (Seq Bol
                          (Alt (parse "ace")
                               (Alt (parse "mean\s+girls") titleRegex)))
                     gapRegex)
                (Alt (yearRegex "1" "9")
                     (Alt (yearRegex "2" "0") withNameRegex)))
           Eol.
Proof. split; vm_compute; reflexivity. Qed.

Lemma nonempty_length {A : Type} (l : list A) : l <> [] -> 1 <= List.length l.
Proof. destruct l; [congruence|simpl; lia]. Qed.

(** The title and the gap that follows it are read by the first two
    groups of the pattern. *)
Lemma title_then_gap (first : ascii) (rest gap tail : list ascii) :
  isLetter first = true ->
  forallb isTitleChar rest = true ->
  gap <> [] -> forallb isSpace gap = true ->
  exists prev,
    forall (g1 g2 : regex),
      In (prev, tail)
         (run true
            (Seq (Seq Bol (Alt g1 (Alt g2 titleRegex))) gapRegex)
            (None, first :: rest ++ gap ++ tail)).
Proof.
  intros Hfirst Hrest Hgap Hspaces.
  exists (after (after (Some first) rest) gap). intros g1 g2.
  eapply in_run_seq.
  - eapply in_run_seq; [apply in_run_bol|].
    apply in_run_alt_r, in_run_alt_r.
    eapply in_run_seq.
    + rewrite run_class by (apply letter_class; exact Hfirst). left. reflexivity.
    + apply in_run_rep_class; [|lia|exact I].
      eapply forallb_impl; [apply title_class|exact Hrest].
  - apply in_run_rep_class; [|apply nonempty_length; exact Hgap|exact I].
    eapply forallb_impl; [apply space_class|exact Hspaces].
Qed.

Lemma year_tail (prev : option ascii) (c1 c2 d1 d2 : ascii) :
  (c1 = "1"%char /\ c2 = "9"%char) \/ (c1 = "2"%char /\ c2 = "0"%char) ->
  isDigit d1 = true -> isDigit d2 = true ->
  forall g3 : regex,
    In (Some d2, [])
       (run true (Alt (yearRegex "1" "9") (Alt (yearRegex "2" "0") g3))
            (prev, [c1; c2; d1; d2])).
Proof.
  intros Hc H1 H2 g3.
  assert (Hdigits :
    forall p, In (Some d2, [])
                 (run true (Rep 2 (Some 2) true (Class false [CDigit]))
                      (p, [d1; d2] ++ []))).
  { intros p. apply (in_run_rep_class true false [CDigit] true 2 (Some 2)
                       [d1; d2] [] p); [|simpl; lia|simpl; lia].
    cbn [forallb]. rewrite (digit_class _ H1), (digit_class _ H2). reflexivity. }
  destruct Hc as [[-> ->]|[-> ->]].
  - apply in_run_alt_l. eapply in_run_seq; [|apply Hdigits].
    eapply in_run_seq; [read_literal|read_literal].
  - apply in_run_alt_r, in_run_alt_l. eapply in_run_seq; [|apply Hdigits].
    eapply in_run_seq; [read_literal|read_literal].
Qed.

Lemma with_tail (prev : option ascii) (w i t h : ascii) (gap2 name : list ascii) :
  map lowerChar [w; i; t; h] = chars "with" ->
  gap2 <> [] -> forallb isSpace gap2 = true ->
  name <> [] -> forallb isNameChar name = true ->
  exists last,
    forall g1 g2 : regex,
      In (last, [])
         (run true (Alt g1 (Alt g2 withNameRegex))
              (prev, [w; i; t; h] ++ gap2 ++ name)).
Proof.
  intros Hwith Hgap Hspaces Hname Hchars.
  injection Hwith as Hw Hi Ht Hh.
  exists (after (after (Some h) gap2) name). intros g1 g2.
  apply in_run_alt_r, in_run_alt_r.
  eapply in_run_seq.
  - eapply in_run_seq.
    + eapply in_run_seq; [eapply in_run_seq; [eapply in_run_seq|]|];
        unfold Lit; cbn [app].
      * rewrite run_class by (apply lower_w; exact Hw). left. reflexivity.
      * rewrite run_class by (apply lower_i; exact Hi). left. reflexivity.
      * rewrite run_class by (apply lower_t; exact Ht). left. reflexivity.
      * rewrite run_class by (apply lower_h; exact Hh). left. reflexivity.
    + apply in_run_rep_class; [|apply nonempty_length; exact Hgap|exact I].
      eapply forallb_impl; [apply space_class|exact Hspaces].
  - rewrite <- (app_nil_r name) at 2.
    apply in_run_rep_class; [|apply nonempty_length; exact Hname|exact I].
    eapply forallb_impl; [apply name_class|exact Hchars].
Qed.

(** Both shapes pass the bypass test. *)
Lemma directMovieWithSpecifics_matches (s : string) :
  WordsYear (chars s) \/ WordsWithName (chars s) ->
  test directMovieWithSpecifics s = true.
Proof.
  destruct directMovieWithSpecifics_ast as [Hi Hast].
  intros [H|H].
  - inversion H as [first rest gap c1 c2 d1 d2 Hf Hr Hg Hs Hc H1 H2 Heq].
    destruct (title_then_gap first rest gap [c1; c2; d1; d2] Hf Hr Hg Hs)
      as (prev & Hhead).
    apply (test_of_run _ _ (Some d2, [])). rewrite Hi, Hast, <- Heq.
    eapply in_run_seq; [|apply in_run_eol].
    eapply in_run_seq; [apply Hhead|]. apply year_tail; assumption.
  - inversion H as [first rest gap1 w i t h gap2 name
                      Hf Hr Hg Hs Hw Hg2 Hs2 Hn Hc Heq].
    destruct (title_then_gap first rest gap1 ([w; i; t; h] ++ gap2 ++ name)
                Hf Hr Hg Hs) as (prev & Hhead).
    destruct (with_tail prev w i t h gap2 name Hw Hg2 Hs2 Hn Hc) as (last & Htail).
    apply (test_of_run _ _ (last, [])). rewrite Hi, Hast, <- Heq.
    eapply in_run_seq; [|apply in_run_eol].
    eapply in_run_seq; [apply Hhead|]. apply Htail.
Qed.

End Bypass.

(** C9 (as amended).  A query whose trimmed text is a title (a letter
    followed by letters, white space, colons, apostrophes and hyphens)
    followed by white space and a year (19xx or 20xx), or such a title
    followed by "with" and a name (letters and white space), is returned
    as the single candidate, verbatim (trimmed); nothing else happens: no
    contextual resolution, no call to the model and no regex fallback, the
    chain state is left as it was. *)
Theorem C9_direct_bypass W (query conversationId : string) (st : ChainState) :
  WordsYear (chars (trim query)) \/ WordsWithName (chars (trim query)) ->
  extractMovieTitles W query conversationId st = (Ok [trim query], st).
Proof.
  intros H. unfold extractMovieTitles.
  rewrite (directMovieWithSpecifics_matches _ H). reflexivity.
Qed.

(** C9 (as amended) for "Superman 1978". *)
Lemma C9_direct_bypass_witness :
  WordsYear (chars (trim "Superman 1978"))
  /\ extractMovieTitles (failingWorld 0) "Superman 1978" "c1" emptyState
     = (Ok ["Superman 1978"], emptyState).
Proof.
  assert (H : WordsYear (chars (trim "Superman 1978"))).
  { change (chars (trim "Superman 1978"))
      with ("S"%char :: chars "uperman" ++ chars " "
            ++ ["1"%char; "9"%char; "7"%char; "8"%char]).
    apply words_year; try reflexivity; [discriminate|left; auto]. }
  split; [exact H|].
  exact (C9_direct_bypass (failingWorld 0) "Superman 1978" "c1" emptyState
           (or_introl H)).
Defined.

(** C9 (as stated) fails: "28 Days Later 2002" is words followed by a
    four-digit year, but its title starts with a digit and the bypass
    pattern wants a letter there.  The query goes on to the model, and
    its answer is returned: "28 Days Later" when the model drops the
    year; when the model fails, the regex fallback returns
    "Days Later 2002". *)
Lemma C9_digit_title_not_bypassed :
  test directMovieWithSpecifics (trim "28 Days Later 2002") = false
  /\ fst (extractMovieTitles (answeringWorld "28 Days Later" "-" None)
                             "28 Days Later 2002" "c1" emptyState)
     = Ok ["28 Days Later"]
  /\ fst (extractMovieTitles (failingWorld 0) "28 Days Later 2002" "c1"
                             emptyState)
     = Ok ["Days Later 2002"].
Proof. repeat split; vm_compute; reflexivity. Qed.

(** ** Contextual resolution of a sequel request *)

Section Sequel.

Lemma test_false_match0 (rx : RegExp) (s : string) :
  test rx s = false -> match0 rx s = None.
Proof.
  unfold test, match0. destruct (exec rx s) as [[i n]|]; [discriminate|auto].
Qed.

Lemma someTitleIs_none (previous : list DiscussedMovie) (lower : string) :
  Forall (fun m => exists t, dm_title m = Some t /\ toLowerCase t <> lower)
         previous ->
  someTitleIs previous lower = Ok false.
Proof.
  induction 1 as [|m previous (t & Ht & Hne) _ IH]; [reflexivity|].
  cbn [someTitleIs]. unfold titleLower. rewrite Ht. cbn [bindR].
  apply String.eqb_neq in Hne. rewrite Hne. exact IH.
Qed.

Lemma getBaseTitle_wonder_woman : getBaseTitle "Wonder Woman" = "Wonder Woman".
Proof. vm_compute. reflexivity. Qed.

Lemma lookupSequel_wonder_woman (previous : list DiscussedMovie) :
  someTitleIs previous "wonder woman 1984" = Ok false ->
  lookupSequel previous "wonder woman" "wonder woman" sequelMap
  = Ok (Some "Wonder Woman 1984").
Proof.
  intros H. unfold sequelMap. cbn [lookupSequel].
  change (String.eqb "wonder woman" "wonder woman") with true.
  cbn [orb findUndiscussed].
  change (toLowerCase "Wonder Woman 1984") with "wonder woman 1984".
  rewrite H. reflexivity.
Qed.

Lemma contextualLoop_sequel (query lowerQuery : string)
  (previous : list DiscussedMovie) :
  includesAny lowerQuery
    ["that movie"; "that film"; "it"; "this movie"; "this film"] = false ->
  includes lowerQuery "sequel" = true ->
  someTitleIs previous "wonder woman 1984" = Ok false ->
  contextualLoop query lowerQuery "Wonder Woman" previous contextualPatterns
  = Ok (Some "Wonder Woman 1984").
Proof.
  intros Hdirect Hsequel Hprev. unfold contextualPatterns.
  cbn [contextualLoop]. rewrite Hdirect.
  unfold includesAny at 1. cbn [existsb]. rewrite Hsequel. cbn [orb].
  cbn [contextualCase]. rewrite getBaseTitle_wonder_woman.
  change (toLowerCase "Wonder Woman") with "wonder woman".
  rewrite (lookupSequel_wonder_woman _ Hprev). reflexivity.
Qed.

End Sequel.

(** C5 (as amended).  When the last discussed movie is "Wonder Woman",
    the earlier ones have titles other than "Wonder Woman 1984", and the
    query contains "sequel" (case-insensitively) but does not have the
    direct year/actor shape, does not name a movie by the direct-title
    pattern, does not contain "wonder woman" and contains none of the
    direct-reference phrases, the title resolver returns exactly
    "Wonder Woman 1984", without a call to the model and without a change
    of state. *)
Theorem C5_sequel_from_static_map W (query conversationId : string)
  (st : ChainState) (conv : ConversationMemory)
  (previous : list DiscussedMovie) (genre rating : option string) :
  conversationStore st !! conversationId = Some conv ->
  discussedMovies conv
  = previous ++ [mkDiscussed (Some "Wonder Woman") genre rating] ->
  Forall (fun m => exists t, dm_title m = Some t
                             /\ toLowerCase t <> "wonder woman 1984")
         previous ->
  includes (trim (toLowerCase query)) "sequel" = true ->
  test directMovieWithSpecifics (trim query) = false ->
  test directMoviePattern query = false ->
  includes (trim (toLowerCase query)) "wonder woman" = false ->
  includesAny (trim (toLowerCase query))
    ["that movie"; "that film"; "it"; "this movie"; "this film"] = false ->
  extractMovieTitles W query conversationId st = (Ok ["Wonder Woman 1984"], st).
Proof.
  intros Hstore Hmovies Hprev Hsequel Hbypass Hdirect Hsame Href.
  assert (Hctx : handleContextualQueries query (Some conv)
                 = Ok (Some "Wonder Woman 1984")).
  { unfold handleContextualQueries. rewrite Hmovies, last_snoc.
    unfold titleLower. cbn [dm_title bindR default].
    change (toLowerCase "Wonder Woman") with "wonder woman".
    rewrite (test_false_match0 _ _ Hdirect), Hsame.
    unfold sliceInit. rewrite length_app. cbn [List.length].
    replace (List.length previous + 1 - 1) with (List.length previous) by lia.
    rewrite take_app_length.
    apply contextualLoop_sequel; [exact Href|exact Hsequel|].
    apply someTitleIs_none. exact Hprev. }
  unfold extractMovieTitles. rewrite Hbypass.
  unfold bind, getStore, liftResult. rewrite Hstore, Hctx. reflexivity.
Qed.

(** C5 (as amended) for "Is there a sequel?" after "Inception" and
    "Wonder Woman". *)
Lemma C5_sequel_from_static_map_witness :
  includes (trim (toLowerCase "Is there a sequel?")) "sequel" = true
  /\ extractMovieTitles (failingWorld 0) "Is there a sequel?" "c1"
       (stateWith "c1" (conversationAbout ["Inception"; "Wonder Woman"]))
     = (Ok ["Wonder Woman 1984"],
        stateWith "c1" (conversationAbout ["Inception"; "Wonder Woman"])).
Proof.
  split; [vm_compute; reflexivity|].
  apply (C5_sequel_from_static_map (failingWorld 0) "Is there a sequel?" "c1"
           (stateWith "c1" (conversationAbout ["Inception"; "Wonder Woman"]))
           (conversationAbout ["Inception"; "Wonder Woman"])
           [mkDiscussed (Some "Inception") (Some "Action") (Some "7.4")]
           (Some "Action") (Some "7.4")).
  - apply lookup_singleton_eq.
  - reflexivity.
  - constructor; [|constructor]. exists "Inception". split; [reflexivity|].
    vm_compute. discriminate.
  - vm_compute; reflexivity.
  - vm_compute; reflexivity.
  - vm_compute; reflexivity.
  - vm_compute; reflexivity.
  - vm_compute; reflexivity.
Defined.

(** C5 (as stated) fails.  With "Wonder Woman" as the last discussed
    movie and "Wonder Woman 1984" not yet discussed, the query "the sequel
    with Gal Gadot" contains "sequel" and has the direct "<title> with
    <name>" shape: the resolver returns the query itself.  And for
    "Wonder Woman sequel", which names the last movie, contextual
    resolution declines and leaves the answer to the model. *)
Lemma C5_sequel_query_bypassed :
  last (discussedMovies (conversationAbout ["Inception"; "Wonder Woman"]))
  = Some (mkDiscussed (Some "Wonder Woman") (Some "Action") (Some "7.4"))
  /\ includes "the sequel with Gal Gadot" "sequel" = true
  /\ extractMovieTitles (answeringWorld "Wonder Woman 2" "-" None) "the sequel with Gal Gadot" "c1"
       (stateWith "c1" (conversationAbout ["Inception"; "Wonder Woman"]))
     = (Ok ["the sequel with Gal Gadot"],
        stateWith "c1" (conversationAbout ["Inception"; "Wonder Woman"]))
  /\ includes "Wonder Woman sequel" "sequel" = true
  /\ handleContextualQueries "Wonder Woman sequel"
       (Some (conversationAbout ["Inception"; "Wonder Woman"]))
     = Ok None.
Proof. repeat split; vm_compute; reflexivity. Qed.

(** ** What a guest's query sends to the store *)

Section Frame.

Context (W : World) (P : DbRequest -> Prop).

Lemma sendsOnly_nothing {A : Type} (m : M A) :
  (forall st, requests (snd (m st)) = requests st) -> sendsOnly P m.
Proof.
  intros H st. exists []. rewrite H, app_nil_r. split; [reflexivity|constructor].
Qed.

Lemma sendsOnly_ret {A : Type} (a : A) : sendsOnly P (ret a).
Proof. apply sendsOnly_nothing. reflexivity. Qed.

Lemma sendsOnly_throw {A : Type} (e : string) : sendsOnly P (@throw A e).
Proof. apply sendsOnly_nothing. reflexivity. Qed.

Lemma sendsOnly_liftResult {A : Type} (r : result A) : sendsOnly P (liftResult r).
Proof. apply sendsOnly_nothing. reflexivity. Qed.

Lemma sendsOnly_tick : sendsOnly P tick.
Proof. apply sendsOnly_nothing. reflexivity. Qed.

Lemma sendsOnly_getStore id : sendsOnly P (getStore id).
Proof. apply sendsOnly_nothing. reflexivity. Qed.

Lemma sendsOnly_setStore id c : sendsOnly P (setStore id c).
Proof. apply sendsOnly_nothing. reflexivity. Qed.

Lemma sendsOnly_getHistory : sendsOnly P getHistory.
Proof. apply sendsOnly_nothing. reflexivity. Qed.

Lemma sendsOnly_setHistory h : sendsOnly P (setHistory h).
Proof. apply sendsOnly_nothing. reflexivity. Qed.

Lemma sendsOnly_bind {A B : Type} (m : M A) (k : A -> M B) :
  sendsOnly P m -> (forall a, sendsOnly P (k a)) -> sendsOnly P (bind m k).
Proof.
  intros Hm Hk st. unfold bind.
  destruct (Hm st) as (s1 & E1 & F1). destruct (m st) as [[a|e] st1].
  - destruct (Hk a st1) as (s2 & E2 & F2). exists (s1 ++ s2).
    rewrite E2. simpl in E1. rewrite E1, app_assoc.
    split; [reflexivity|]. apply Forall_app. auto.
  - exists s1. simpl in *. auto.
Qed.

Lemma sendsOnly_tryCatch {A : Type} (m : M A) (h : string -> M A) :
  sendsOnly P m -> (forall e, sendsOnly P (h e)) -> sendsOnly P (tryCatch m h).
Proof.
  intros Hm Hh st. unfold tryCatch.
  destruct (Hm st) as (s1 & E1 & F1). destruct (m st) as [[a|e] st1].
  - exists s1. simpl in *. auto.
  - destruct (Hh e st1) as (s2 & E2 & F2). exists (s1 ++ s2).
    rewrite E2. simpl in E1. rewrite E1, app_assoc.
    split; [reflexivity|]. apply Forall_app. auto.
Qed.

Lemma sendsOnly_request (rq : DbRequest) : P rq -> sendsOnly P (request W rq).
Proof.
  intros Hrq st. exists [rq]. unfold request, bind, tick, logRequest, liftResult.
  simpl. destruct (supabase W (clock st) rq); simpl;
    (split; [reflexivity|constructor; [exact Hrq|constructor]]).
Qed.

Lemma sendsOnly_similarMovies genre : sendsOnly P (similarMovies W genre).
Proof.
  apply sendsOnly_nothing. intros st. unfold similarMovies.
  destruct (getSimilarMoviesByGenre _ _ _). reflexivity.
Qed.

End Frame.

Create HintDb frame.

#[local] Hint Resolve sendsOnly_ret sendsOnly_throw sendsOnly_liftResult
  sendsOnly_tick sendsOnly_getStore sendsOnly_setStore sendsOnly_getHistory
  sendsOnly_setHistory sendsOnly_similarMovies : frame.

(** One step of a frame proof: split a sequence, a [try]/[catch] or a
    case distinction, or close the goal with a known fact. *)
Ltac frame_step :=
  first
    [ solve [auto with frame]
    | match goal with
      | |- sendsOnly _ (request _ _) =>
          apply sendsOnly_request;
          solve [left; reflexivity | right; split; reflexivity]
      end
    | apply sendsOnly_bind; [|intros ?]
    | apply sendsOnly_tryCatch; [|intros ?]
    | match goal with
      | |- sendsOnly _ (match ?x with _ => _ end) => destruct x
      | |- sendsOnly _ (if ?b then _ else _) => destruct b
      end ].

Ltac frame := repeat frame_step.

Section GuestFrame.

Context (W : World).

Lemma sendsOnly_now : sendsOnly guestRequest (now W).
Proof. unfold now. frame. Qed.

Lemma sendsOnly_isoNow : sendsOnly guestRequest (isoNow W).
Proof. unfold isoNow. frame. Qed.

Lemma sendsOnly_newUUID : sendsOnly guestRequest (newUUID W).
Proof. unfold newUUID. frame. Qed.

Hint Resolve sendsOnly_now sendsOnly_isoNow sendsOnly_newUUID : frame.

Lemma sendsOnly_loadConversation id :
  sendsOnly guestRequest (loadConversation W id).
Proof. unfold loadConversation. frame. Qed.

Lemma sendsOnly_saveUserMessage id message :
  sendsOnly guestRequest (saveUserMessage W id message).
Proof. unfold saveUserMessage. frame. Qed.

Lemma sendsOnly_saveConversationToDatabase id c user :
  sendsOnly guestRequest (saveConversationToDatabase W id c user).
Proof. unfold saveConversationToDatabase. frame. Qed.

Hint Resolve sendsOnly_saveConversationToDatabase : frame.

Lemma sendsOnly_saveAssistantMessage id message movieData user :
  sendsOnly guestRequest (saveAssistantMessage W id message movieData user).
Proof. unfold saveAssistantMessage. frame. Qed.

Lemma sendsOnly_addTokens id tokens : sendsOnly guestRequest (addTokens id tokens).
Proof. unfold addTokens. frame. Qed.

Hint Resolve sendsOnly_loadConversation sendsOnly_saveUserMessage
  sendsOnly_saveAssistantMessage sendsOnly_addTokens : frame.

Lemma sendsOnly_extractMovieTitles query id :
  sendsOnly guestRequest (extractMovieTitles W query id).
Proof. unfold extractMovieTitles. frame. Qed.

Lemma sendsOnly_searchOMDB titles : sendsOnly guestRequest (searchOMDB W titles).
Proof. unfold searchOMDB. frame. Qed.

Lemma sendsOnly_normalizeMovieData movieData :
  sendsOnly guestRequest (normalizeMovieData W movieData).
Proof. unfold normalizeMovieData. frame. Qed.

Lemma sendsOnly_generateRecommendation movieData id :
  sendsOnly guestRequest (generateRecommendation W movieData id).
Proof. unfold generateRecommendation, fallbackRecommendation. frame. Qed.

Lemma sendsOnly_guest_getExistingRecommendation movieData :
  sendsOnly guestRequest (getExistingRecommendation W movieData None).
Proof. unfold getExistingRecommendation. cbn [truthy andb]. frame. Qed.

Lemma sendsOnly_lastDiscussed id : sendsOnly guestRequest (lastDiscussed id).
Proof. unfold lastDiscussed. frame. Qed.

Hint Resolve sendsOnly_extractMovieTitles sendsOnly_searchOMDB
  sendsOnly_normalizeMovieData sendsOnly_generateRecommendation
  sendsOnly_guest_getExistingRecommendation sendsOnly_lastDiscussed : frame.

Lemma sendsOnly_chatOnly context message :
  sendsOnly guestRequest (chatOnly W context message).
Proof. unfold chatOnly. frame. Qed.

Hint Resolve sendsOnly_chatOnly : frame.

Lemma sendsOnly_guest_recommendMovie context movieData :
  userId context = None ->
  sendsOnly guestRequest (recommendMovie W context movieData).
Proof. intros Hguest. unfold recommendMovie. rewrite Hguest. cbn [truthy andb]. frame. Qed.

Lemma searchDatabase_guest titles st :
  searchDatabase W titles None st = (Ok None, st).
Proof. reflexivity. Qed.

Lemma sendsOnly_guest_processMovieQuery context :
  userId context = None ->
  sendsOnly guestRequest (processMovieQuery W context).
Proof.
  intros Hguest. unfold processMovieQuery. rewrite Hguest.
  pose proof (sendsOnly_guest_recommendMovie context) as Hrec.
  unfold searchDatabase. frame; apply Hrec; exact Hguest.
Qed.

End GuestFrame.

(** C10.  For a guest ([userId] null) whose query is sent down the movie
    path, the store search answers null at once and sends nothing, and
    [processQuery] returns a response (it does not throw) having sent only
    requests on the [conversations] table and reads of [recommendations]:
    no request at all on [movies], no insert into [recommendations]. *)
Theorem C10_guest_leaves_tables W (context : ChainContext) (st : ChainState) :
  userId context = None ->
  detectGeneralConversation (query context) = false ->
  (forall titles st0, searchDatabase W titles (userId context) st0 = (Ok None, st0))
  /\ exists response st' sent,
       processQuery W context st = (Ok response, st')
       /\ requests st' = requests st ++ sent
       /\ Forall (fun rq =>
                    rq_table rq = Conversations
                    \/ (rq_table rq = Recommendations /\ rq_verb rq = Select))
                 sent.
Proof.
  intros Hguest Hmovie. split.
  - intros titles st0. rewrite Hguest. reflexivity.
  - assert (Hsends : sendsOnly guestRequest (processQuery W context)).
    { unfold processQuery. rewrite Hmovie.
      pose proof (sendsOnly_guest_processMovieQuery W context Hguest).
      pose proof (sendsOnly_loadConversation W (conversationId context)).
      pose proof (sendsOnly_saveUserMessage W (conversationId context)
                    (query context)).
      frame; assumption. }
    destruct (Hsends st) as (sent & Hsent & Hall).
    assert (Hok : exists response st', processQuery W context st = (Ok response, st')).
    { unfold processQuery, tryCatch.
      match goal with |- context [bind ?m ?k st] => destruct (bind m k st) as [[r|e] s] end;
        eauto. }
    destruct Hok as (response & st' & Hrun).
    exists response, st', sent. rewrite Hrun in Hsent.
    split; [exact Hrun|]. split; [exact Hsent|exact Hall].
Qed.

(** C10 for a guest asking about "Inception", found in the catalog. *)
Lemma C10_guest_leaves_tables_witness :
  detectGeneralConversation (query guestContext) = false
  /\ exists response st' sent,
       processQuery (answeringWorld "Inception" "Inception (2010) bends the mind."
                 (Some guestCatalog))
                    guestContext emptyState = (Ok response, st')
       /\ requests st' = sent
       /\ Forall guestRequest sent.
Proof.
  assert (Hmovie : detectGeneralConversation (query guestContext) = false)
    by (vm_compute; reflexivity).
  split; [exact Hmovie|].
  destruct (C10_guest_leaves_tables
              (answeringWorld "Inception" "Inception (2010) bends the mind."
                 (Some guestCatalog))
              guestContext emptyState eq_refl Hmovie)
    as (_ & response & st' & sent & Hrun & Hsent & Hall).
  exists response, st', sent. split; [exact Hrun|]. split; [exact Hsent|exact Hall].
Defined.

(* ================================================================== *)
(** * Part III: the catalog lookup, the store and the edge function    *)
(* ================================================================== *)

(** ** The embedding of the catalog lookup on sample inputs *)

Example parseInt_samples :
  (parseInt "2021", parseInt " 42abc", parseInt "0x1f", parseInt "-7",
   parseInt "N/A", parseInt "")
  = (Some 2021%Z, Some 42%Z, Some 31%Z, Some (-7)%Z, None, None).
Proof. vm_compute. reflexivity. Qed.

Example encodeURIComponent_sample :
  encodeURIComponent (str ["A"%char; ascii_of_nat 233; " "%char; "&"%char])
  = "A%C3%A9%20%26".
Proof. vm_compute. reflexivity. Qed.

Example actorPattern_parts :
  re_ast actorPattern = Seq (Seq actorIntro actorName) actorEnd.
Proof. vm_compute. reflexivity. Qed.

Example actorGroup_is_lazy :
  actorGroup "Ace with Vijay Sethupathi" = Some "Vijay".
Proof. vm_compute. reflexivity. Qed.

Example requestedYearOf_sample : requestedYearOf "Dune 2021" = Some "2021".
Proof. vm_compute. reflexivity. Qed.

Example getEditDistance_kitten : getEditDistance "kitten" "sitting" = Some 3.
Proof. vm_compute. reflexivity. Qed.

Example fuzzyActorMatch_samples :
  fuzzyActorMatch "Tom Hanks" "tom hank" = true
  /\ fuzzyActorMatch "Tom Hanks" "Al Pacino" = false.
Proof. split; vm_compute; reflexivity. Qed.

Example variations_of_wonder_woman :
  generateOMDBSearchVariations "Wonder Woman 1984"
  = ["Wonder Woman 1984"; "Wonder Woman: 1984"; "Wonder Woman";
     "Wonder Woman 1984"; "Wonder Woman: 1984"; "Wonder Woman 1984";
     "Wonder Woman 1984"; "Wonder Woman: 1984"; "Wonder Woman 1984";
     "Wonder Woman: 1984"].
Proof. vm_compute. reflexivity. Qed.

Example variations_of_heat :
  generateOMDBSearchVariations "Heat"
  = ["Heat 2"; "Heat II"; "Heat Part 2"; "Heat Part II"; "Heat: Part Two";
     "Heat Returns"].
Proof. vm_compute. reflexivity. Qed.

Example sortOMDBResults_samples :
  map (fun movie => movie !! "Year") (sortOMDBResults duneRows "Dune 2021")
  = [Some "2021"; Some "2024"; Some "1984"]
  /\ map (fun movie => movie !! "Year") (sortOMDBResults duneRows "latest Dune")
     = [Some "2024"; Some "2021"; Some "1984"].
Proof. split; vm_compute; reflexivity. Qed.

(** ** The edit distance *)

Section EditDistance.

Lemma distRev_nil_r (a : list ascii) : distRev a [] = List.length a.
Proof. destruct a; reflexivity. Qed.

Lemma distRev_cons (x y : ascii) (a b : list ascii) :
  distRev (x :: a) (y :: b)
  = if Ascii.eqb x y then distRev a b
    else S (Nat.min (distRev a b)
                    (Nat.min (distRev (x :: a) b) (distRev a (y :: b)))).
Proof. reflexivity. Qed.

Lemma distRev_sym (a b : list ascii) : distRev a b = distRev b a.
Proof.
  revert b. induction a as [|x a IHa]; intros b.
  - rewrite distRev_nil_r. reflexivity.
  - induction b as [|y b IHb].
    + rewrite distRev_nil_r. reflexivity.
    + rewrite !distRev_cons, (Ascii.eqb_sym y x), IHb, (IHa b), (IHa (y :: b)).
      destruct (Ascii.eqb x y); [reflexivity|]. f_equal. lia.
Qed.

Lemma distRev_bounds (a b : list ascii) :
  List.length a - List.length b <= distRev a b
  /\ List.length b - List.length a <= distRev a b
  /\ distRev a b <= Nat.max (List.length a) (List.length b).
Proof.
  revert b. induction a as [|x a IHa]; intros b.
  - simpl. lia.
  - induction b as [|y b IHb].
    + simpl. lia.
    + rewrite distRev_cons. pose proof (IHa b). pose proof (IHa (y :: b)).
      cbn [List.length] in *.
      destruct (Ascii.eqb x y); lia.
Qed.

Lemma distRev_zero (a b : list ascii) : distRev a b = 0 <-> a = b.
Proof.
  revert b. induction a as [|x a IHa]; intros b.
  - simpl. destruct b; simpl; split; intros H; try reflexivity; discriminate.
  - destruct b as [|y b].
    + simpl. split; intros H; discriminate.
    + rewrite distRev_cons. destruct (Ascii.eqb x y) eqn:E.
      * apply Ascii.eqb_eq in E. subst y. rewrite IHa. split; intros H.
        -- subst. reflexivity.
        -- injection H. auto.
      * apply Ascii.eqb_neq in E. split; intros H; [discriminate|].
        injection H. intros. contradiction.
Qed.

(** *** The matrix *)

Lemma cell_setCell (i j v : nat) (m m' : Matrix) (i' j' : nat) :
  setCell i j v m = Some m' ->
  cell m' i' j' = if bool_decide (i' = i /\ j' = j) then Some v else cell m i' j'.
Proof.
  unfold setCell, cell.
  destruct (m !! i) as [row|] eqn:E; [|discriminate].
  intros H. injection H as <-.
  destruct (decide (i' = i)) as [->|Hi].
  - rewrite lookup_insert_eq. cbv beta iota.
    destruct (decide (j' = j)) as [->|Hj].
    + rewrite lookup_insert_eq. rewrite bool_decide_eq_true_2 by auto. reflexivity.
    + rewrite lookup_insert_ne by auto. rewrite E.
      rewrite bool_decide_eq_false_2 by (intros [_ ?]; auto). reflexivity.
  - rewrite lookup_insert_ne by auto.
    rewrite bool_decide_eq_false_2 by (intros [? _]; auto). reflexivity.
Qed.

Lemma setCell_Some (i j v : nat) (m : Matrix) (w : nat) :
  cell m i 0 = Some w -> exists m', setCell i j v m = Some m'.
Proof.
  unfold cell, setCell. destruct (m !! i); [eauto|discriminate].
Qed.

Lemma foldM_seq_inv {B : Type} (f : B -> nat -> option B) (P : nat -> B -> Prop)
  (len start : nat) (b : B) :
  P start b ->
  (forall k b, start <= k < start + len -> P k b ->
               exists b', f b k = Some b' /\ P (S k) b') ->
  exists b', foldM f b (seq start len) = Some b' /\ P (start + len) b'.
Proof.
  revert start b. induction len as [|len IH]; intros start b H0 Hstep.
  - exists b. rewrite Nat.add_0_r. auto.
  - simpl. destruct (Hstep start b ltac:(lia) H0) as (b1 & E1 & H1).
    rewrite E1. destruct (IH (S start) b1 H1) as (b' & E' & H').
    + intros k b2 Hk. apply Hstep. lia.
    + exists b'. split; [exact E'|]. replace (start + S len) with (S start + len) by lia.
      exact H'.
Qed.

Lemma initRows_cell (n2 i : nat) :
  i <= n2 -> cell (initRows n2) i 0 = Some i.
Proof.
  unfold initRows, cell. intros Hi. assert (Hk : i < S n2) by lia. revert Hk.
  generalize (S n2) as k. intros k Hk.
  assert (H : forall k, fold_left (fun (matrix : Matrix) i => <[i := {[0 := i]}]> matrix)
                         (seq 0 k) ∅ !! i
                   = if (i <? k)%nat then Some ({[0 := i]} : gmap nat nat) else None).
  { clear. induction k as [|k IH].
    - simpl. apply lookup_empty.
    - rewrite seq_S, fold_left_app. simpl.
      destruct (decide (i = k)) as [->|Hne].
      + rewrite lookup_insert_eq. rewrite (proj2 (Nat.ltb_lt k (S k))) by lia. reflexivity.
      + rewrite lookup_insert_ne by auto. rewrite IH.
        destruct (i <? k)%nat eqn:E1; destruct (i <? S k)%nat eqn:E2;
          try reflexivity;
          [apply Nat.ltb_lt in E1; apply Nat.ltb_ge in E2; lia
          |apply Nat.ltb_ge in E1; apply Nat.ltb_lt in E2; lia]. }
  rewrite H. rewrite (proj2 (Nat.ltb_lt i k)) by lia. cbv beta iota.
  apply lookup_singleton_eq.
Qed.

Section Fill.

Variables s1 s2 : list ascii.

Lemma prefixDistance_0_r (i : nat) :
  i <= List.length s2 -> prefixDistance s1 s2 i 0 = i.
Proof.
  intros Hi. unfold prefixDistance. rewrite take_0. simpl rev.
  rewrite distRev_nil_r, length_rev, length_take. lia.
Qed.

Lemma prefixDistance_0_l (j : nat) :
  j <= List.length s1 -> prefixDistance s1 s2 0 j = j.
Proof.
  intros Hj. unfold prefixDistance. rewrite take_0. simpl.
  rewrite length_rev, length_take. lia.
Qed.

Lemma prefixDistance_S (i j : nat) :
  i < List.length s2 -> j < List.length s1 ->
  prefixDistance s1 s2 (S i) (S j)
  = if sameCharAt s2 i s1 j then prefixDistance s1 s2 i j
    else S (Nat.min (prefixDistance s1 s2 i j)
                    (Nat.min (prefixDistance s1 s2 (S i) j)
                             (prefixDistance s1 s2 i (S j)))).
Proof.
  intros Hi Hj. unfold prefixDistance, sameCharAt.
  destruct (lookup_lt_is_Some_2 s2 i Hi) as [x Hx].
  destruct (lookup_lt_is_Some_2 s1 j Hj) as [y Hy].
  rewrite Hx, Hy, (take_S_r _ _ _ Hx), (take_S_r _ _ _ Hy), !rev_unit.
  apply distRev_cons.
Qed.

Lemma filledUpTo_init :
  exists matrix,
    initColumns (List.length s1) (initRows (List.length s2)) = Some matrix
    /\ filledUpTo s1 s2 0 (List.length s1) matrix.
Proof.
  unfold initColumns.
  destruct (foldM_seq_inv
              (fun matrix j => setCell 0 j j matrix)
              (fun k matrix =>
                 (forall i', i' <= List.length s2 -> cell matrix i' 0 = Some i')
                 /\ (forall j', j' < k -> cell matrix 0 j' = Some j'))
              (S (List.length s1)) 0 (initRows (List.length s2)))
    as (matrix & E & Hrows & Hcols).
  - split; [intros i' Hi'; apply initRows_cell; exact Hi'|intros j' Hj'; lia].
  - intros k b Hk [Hrows Hcols].
    destruct (setCell_Some 0 k k b 0 (Hrows 0 ltac:(lia))) as [b' Eb].
    exists b'. split; [exact Eb|]. split.
    + intros i' Hi'. rewrite (cell_setCell _ _ _ _ _ _ _ Eb).
      destruct (bool_decide (i' = 0 /\ 0 = k)) eqn:Ed.
      * apply bool_decide_eq_true_1 in Ed. destruct Ed as [-> <-]. reflexivity.
      * apply Hrows. exact Hi'.
    + intros j' Hj'. rewrite (cell_setCell _ _ _ _ _ _ _ Eb).
      destruct (bool_decide (0 = 0 /\ j' = k)) eqn:Ed.
      * apply bool_decide_eq_true_1 in Ed. destruct Ed as [_ ->]. reflexivity.
      * apply bool_decide_eq_false_1 in Ed. apply Hcols.
        assert (j' <> k) by (intros ->; apply Ed; auto). lia.
  - exists matrix. split; [exact E|].
    intros i' j' Hi' Hj' [Hlt|[[-> Hle]| ->]].
    + lia.
    + rewrite prefixDistance_0_l by exact Hj'. apply Hcols. simpl. lia.
    + rewrite prefixDistance_0_r by exact Hi'. apply Hrows. exact Hi'.
Qed.

Lemma filledUpTo_cell (i j : nat) (matrix : Matrix) :
  filledUpTo s1 s2 (S i) j matrix ->
  S i <= List.length s2 -> S j <= List.length s1 ->
  exists matrix',
    fillCell s1 s2 (S i) (S j) matrix = Some matrix'
    /\ filledUpTo s1 s2 (S i) (S j) matrix'.
Proof.
  intros Hinv Hi Hj. unfold fillCell. simpl. rewrite !Nat.sub_0_r.
  rewrite (Hinv i j) by lia. rewrite (Hinv (S i) j) by lia.
  rewrite (Hinv i (S j)) by lia.
  assert (Hrow : exists w, cell matrix (S i) 0 = Some w)
    by (eexists; apply Hinv; lia).
  destruct Hrow as [w Hrow].
  assert (Hnew : forall v matrix',
             setCell (S i) (S j) v matrix = Some matrix' ->
             v = prefixDistance s1 s2 (S i) (S j) ->
             filledUpTo s1 s2 (S i) (S j) matrix').
  { intros v matrix' Eset Hv i' j' Hi' Hj' Hwhere.
    rewrite (cell_setCell _ _ _ _ _ _ _ Eset).
    destruct (bool_decide (i' = S i /\ j' = S j)) eqn:Ed.
    - apply bool_decide_eq_true_1 in Ed. destruct Ed as [-> ->]. f_equal. exact Hv.
    - apply bool_decide_eq_false_1 in Ed. apply Hinv; [exact Hi'|exact Hj'|].
      destruct Hwhere as [Hlt|[[-> Hle]| ->]]; [left; exact Hlt| |right; right; reflexivity].
      right. left. split; [reflexivity|].
      assert (j' <> S j) by (intros ->; apply Ed; auto). lia. }
  rewrite prefixDistance_S in Hnew by lia.
  destruct (sameCharAt s2 i s1 j).
  - destruct (setCell_Some (S i) (S j) (prefixDistance s1 s2 i j) matrix w Hrow)
      as [matrix' Eset].
    exists matrix'. split; [exact Eset|]. eapply Hnew; [exact Eset|reflexivity].
  - destruct (setCell_Some (S i) (S j)
                (Nat.min (prefixDistance s1 s2 i j + 1)
                   (Nat.min (prefixDistance s1 s2 (S i) j + 1)
                      (prefixDistance s1 s2 i (S j) + 1))) matrix w Hrow)
      as [matrix' Eset].
    exists matrix'. split; [exact Eset|]. eapply Hnew; [exact Eset|lia].
Qed.

Lemma filledUpTo_row (i : nat) (matrix : Matrix) :
  filledUpTo s1 s2 i (List.length s1) matrix ->
  S i <= List.length s2 ->
  exists matrix',
    fillRow s1 s2 (S i) matrix = Some matrix'
    /\ filledUpTo s1 s2 (S i) (List.length s1) matrix'.
Proof.
  intros Hinv Hi. unfold fillRow.
  destruct (foldM_seq_inv
              (fun matrix j => fillCell s1 s2 (S i) j matrix)
              (fun k matrix => filledUpTo s1 s2 (S i) (k - 1) matrix)
              (List.length s1) 1 matrix)
    as (matrix' & E & H').
  - intros i' j' Hi' Hj' [Hlt|[[-> Hle]| ->]].
    + apply Hinv; [exact Hi'|exact Hj'|]. 
      destruct (decide (i' = i)) as [->|Hne]; [right; left; auto|left; lia].
    + simpl in Hle. assert (j' = 0) by lia. subst j'.
      apply Hinv; [exact Hi'|exact Hj'|]. right. right. reflexivity.
    + apply Hinv; [exact Hi'|exact Hj'|]. right. right. reflexivity.
  - intros k b Hk Hb. destruct k as [|k]; [lia|].
    simpl in Hb. rewrite ?Nat.sub_0_r in Hb.
    destruct (filledUpTo_cell i k b Hb Hi ltac:(lia)) as (b' & Eb & Hb').
    exists b'. split; [exact Eb|]. simpl. rewrite ?Nat.sub_0_r. exact Hb'.
  - exists matrix'. split; [exact E|].
    replace (1 + List.length s1 - 1) with (List.length s1) in H' by lia. exact H'.
Qed.

Lemma filledUpTo_all (matrix : Matrix) :
  filledUpTo s1 s2 0 (List.length s1) matrix ->
  exists filled,
    foldM (fun matrix i => fillRow s1 s2 i matrix) matrix
          (seq 1 (List.length s2)) = Some filled
    /\ filledUpTo s1 s2 (List.length s2) (List.length s1) filled.
Proof.
  intros Hinv.
  destruct (foldM_seq_inv
              (fun matrix i => fillRow s1 s2 i matrix)
              (fun k matrix => filledUpTo s1 s2 (k - 1) (List.length s1) matrix)
              (List.length s2) 1 matrix)
    as (filled & E & H').
  - exact Hinv.
  - intros k b Hk Hb. destruct k as [|k]; [lia|].
    simpl in Hb. rewrite ?Nat.sub_0_r in Hb.
    destruct (filledUpTo_row k b Hb ltac:(lia)) as (b' & Eb & Hb').
    exists b'. split; [exact Eb|]. simpl. rewrite ?Nat.sub_0_r. exact Hb'.
  - exists filled. split; [exact E|].
    replace (1 + List.length s2 - 1) with (List.length s2) in H' by lia. exact H'.
Qed.

End Fill.

(** The matrix is filled without a read of an unassigned cell, and the
    entry returned is the recurrence on the two whole strings. *)
Lemma getEditDistance_distRev (str1 str2 : string) :
  getEditDistance str1 str2 = Some (distRev (rev (chars str2)) (rev (chars str1))).
Proof.
  unfold getEditDistance.
  destruct (filledUpTo_init (chars str1) (chars str2)) as (matrix & E0 & H0).
  rewrite E0.
  destruct (filledUpTo_all (chars str1) (chars str2) matrix H0) as (filled & E1 & H1).
  rewrite E1. rewrite (H1 (List.length (chars str2)) (List.length (chars str1)))
    by first [lia | right; left; split; [reflexivity|lia]].
  unfold prefixDistance. rewrite !firstn_all. reflexivity.
Qed.

End EditDistance.

(** X1: [getEditDistance] returns a number for every two strings (it never reads
    a cell of its matrix that was not assigned), at least the difference of
    the two lengths and at most the longer length. *)
Theorem getEditDistance_bounds (str1 str2 : string) :
  exists d,
    getEditDistance str1 str2 = Some d
    /\ JS.length str1 - JS.length str2 <= d
    /\ JS.length str2 - JS.length str1 <= d
    /\ d <= Nat.max (JS.length str1) (JS.length str2).
Proof.
  exists (distRev (rev (chars str2)) (rev (chars str1))).
  split; [apply getEditDistance_distRev|].
  pose proof (distRev_bounds (rev (chars str2)) (rev (chars str1))) as H.
  rewrite !length_rev in H. unfold JS.length. lia.
Qed.

(** X2: [getEditDistance] is 0 exactly when the two strings are equal. *)
Theorem getEditDistance_zero_iff_equal (str1 str2 : string) :
  getEditDistance str1 str2 = Some 0 <-> str1 = str2.
Proof.
  rewrite getEditDistance_distRev. split.
  - intros H. injection H as H. apply distRev_zero in H.
    apply chars_inj. rewrite <- (rev_involutive (chars str1)),
      <- (rev_involutive (chars str2)), H. reflexivity.
  - intros ->. f_equal. apply distRev_zero. reflexivity.
Qed.

(** X3: [getEditDistance] does not depend on the order of its two strings. *)
Theorem getEditDistance_symmetric (str1 str2 : string) :
  getEditDistance str1 str2 = getEditDistance str2 str1.
Proof.
  rewrite !getEditDistance_distRev. f_equal. apply distRev_sym.
Qed.

(** ** Actor matching and search variations *)
Lemma isPrefix_refl (l : list ascii) : isPrefix l l = true.
Proof. induction l as [|c l IH]; simpl; [reflexivity|]. rewrite Ascii.eqb_refl. exact IH. Qed.

Lemma includes_refl (s : string) : includes s s = true.
Proof.
  unfold includes. destruct (chars s) as [|c l] eqn:E; simpl; [reflexivity|].
  rewrite Ascii.eqb_refl, isPrefix_refl. reflexivity.
Qed.

Lemma includes_empty (s : string) : includes s "" = true.
Proof. unfold includes. simpl. destruct (chars s); reflexivity. Qed.

Lemma calculateSimilarity_sym (str1 str2 : string) :
  calculateSimilarity str1 str2 = calculateSimilarity str2 str1.
Proof.
  unfold calculateSimilarity.
  destruct (JS.length str2 <? JS.length str1)%nat eqn:E1;
    destruct (JS.length str1 <? JS.length str2)%nat eqn:E2;
    try reflexivity.
  - apply Nat.ltb_lt in E1. apply Nat.ltb_lt in E2. lia.
  - apply Nat.ltb_ge in E1. apply Nat.ltb_ge in E2.
    assert (Hlen : JS.length str1 = JS.length str2) by lia.
    rewrite Hlen, (getEditDistance_distRev str2 str1),
      (getEditDistance_distRev str1 str2), distRev_sym. reflexivity.
Qed.

(** X4: [fuzzyActorMatch] does not depend on the order of the two names. *)
Theorem fuzzyActorMatch_sym (actor1 actor2 : string) :
  fuzzyActorMatch actor1 actor2 = fuzzyActorMatch actor2 actor1.
Proof.
  unfold fuzzyActorMatch.
  rewrite (calculateSimilarity_sym (normalizeName actor1) (normalizeName actor2)).
  destruct (includes (normalizeName actor1) (normalizeName actor2));
    destruct (includes (normalizeName actor2) (normalizeName actor1));
    reflexivity.
Qed.

(** X5: two names with the same normal form (lower case, every character
    that is not a letter a-z or white space removed, trimmed) match. *)
Theorem fuzzyActorMatch_same_normalized (actor1 actor2 : string) :
  normalizeName actor1 = normalizeName actor2 ->
  fuzzyActorMatch actor1 actor2 = true.
Proof.
  intros H. unfold fuzzyActorMatch. rewrite H, includes_refl. reflexivity.
Qed.

(** Two spellings of one name. *)
Lemma fuzzyActorMatch_same_normalized_witness :
  normalizeName "Robert Downey Jr." = normalizeName "ROBERT DOWNEY JR"
  /\ fuzzyActorMatch "Robert Downey Jr." "ROBERT DOWNEY JR" = true.
Proof.
  assert (H : normalizeName "Robert Downey Jr." = normalizeName "ROBERT DOWNEY JR")
    by (vm_compute; reflexivity).
  split; [exact H|]. exact (fuzzyActorMatch_same_normalized _ _ H).
Defined.

(** X6: when the catalog record lists no actors ([Actors] missing or empty)
    the actor check of [searchOMDB] accepts every requested actor: the one
    name of the list is the empty string, which every string includes. *)
Theorem actorMatches_no_actors_listed (detailData : RawMovie)
  (requestedActor : string) :
  detailData !! "Actors" = None \/ detailData !! "Actors" = Some "" ->
  actorMatches (optOr (detailData !! "Actors") "") requestedActor = true.
Proof.
  intros [H|H]; rewrite H; simpl; unfold actorMatches; simpl;
    rewrite includes_empty, orb_true_r; reflexivity.
Qed.

(** A detail record that has a title only. *)
Lemma actorMatches_no_actors_listed_witness :
  ({[ "Title" := "Ace" ]} : RawMovie) !! "Actors" = None
  /\ actorMatches (optOr (({[ "Title" := "Ace" ]} : RawMovie) !! "Actors") "")
                  "Vijay" = true.
Proof.
  assert (H : ({[ "Title" := "Ace" ]} : RawMovie) !! "Actors" = None)
    by (vm_compute; reflexivity).
  split; [exact H|].
  exact (actorMatches_no_actors_listed {[ "Title" := "Ace" ]} "Vijay" (or_introl H)).
Defined.

(** *** Search variations *)

Lemma franchiseMap_nonempty (text : string) (movies : list string) :
  firstMapping text franchiseMap = Some movies -> movies <> [].
Proof.
  unfold firstMapping. destruct (find _ franchiseMap) as [[k v]|] eqn:E; [|discriminate].
  apply find_some in E. destruct E as [Hin _]. simpl. intros [= <-].
  unfold franchiseMap in Hin. simpl in Hin.
  repeat (destruct Hin as [[= <- <-]|Hin]; [discriminate|]). contradiction.
Qed.

(** X7: [generateOMDBSearchVariations] never returns an empty list; when no
    franchise key occurs in the base title, the list holds the base title
    followed by each of the first six universal suffixes. *)
Theorem generateOMDBSearchVariations_nonempty (title : string) :
  generateOMDBSearchVariations title <> []
  /\ (firstMapping (toLowerCase (extractBaseTitle title)) franchiseMap = None ->
      forall suffix,
        In suffix [" 2"; " II"; " Part 2"; " Part II"; ": Part Two"; " Returns"] ->
        In (extractBaseTitle title +:+ suffix) (generateOMDBSearchVariations title)).
Proof.
  unfold generateOMDBSearchVariations. split.
  - intros H. apply (f_equal (@List.length string)) in H.
    rewrite !length_app in H. cbn [List.length] in H.
    destruct (firstMapping (toLowerCase (extractBaseTitle title)) franchiseMap)
      as [movies|] eqn:E.
    + apply franchiseMap_nonempty in E. destruct movies; [contradiction|].
      cbn [List.length] in H. lia.
    + unfold universalVariations in H. simpl in H. lia.
  - intros E suffix Hin. rewrite E.
    do 5 (apply in_or_app; right).
    apply in_or_app; left.
    unfold universalVariations. cbn [take app].
    simpl in Hin. simpl.
    repeat (destruct Hin as [<-|Hin]; [auto 10|]). contradiction.
Qed.

(** ** Ordering of the search results *)

Section SortBy.

Context {A : Type} (compare : A -> A -> Z).

Lemma insertBy_perm (x : A) (sorted : list A) :
  Permutation (insertBy compare x sorted) (x :: sorted).
Proof.
  induction sorted as [|y tl IH]; simpl; [reflexivity|].
  destruct (compare x y <? 0)%Z; [reflexivity|].
  rewrite IH. apply perm_swap.
Qed.

Lemma sortBy_perm (l : list A) : Permutation (sortBy compare l) l.
Proof.
  unfold sortBy.
  assert (H : forall acc, Permutation
                            (fold_left (fun sorted x => insertBy compare x sorted) l acc)
                            (acc ++ l)).
  { induction l as [|x l IH]; intros acc; simpl.
    - rewrite app_nil_r. reflexivity.
    - rewrite IH, insertBy_perm. apply Permutation_middle. }
  apply (H []).
Qed.

Context (key : A -> Z).
Hypothesis compare_key : forall a b, (compare a b < 0)%Z <-> (key a < key b)%Z.

Lemma insertBy_sorted (x : A) (sorted : list A) :
  StronglySorted (fun a b => (key a <= key b)%Z) sorted ->
  StronglySorted (fun a b => (key a <= key b)%Z) (insertBy compare x sorted).
Proof.
  induction sorted as [|y tl IH]; intros Hs; simpl.
  - constructor; constructor.
  - inversion Hs as [|? ? Htl Hy]; subst.
    destruct (compare x y <? 0)%Z eqn:E.
    + apply Z.ltb_lt, compare_key in E. constructor; [exact Hs|].
      constructor; [lia|]. eapply Forall_impl; [exact Hy|]. simpl. intros; lia.
    + apply Z.ltb_ge in E.
      assert (Hxy : (key y <= key x)%Z).
      { destruct (Z_lt_le_dec (key x) (key y)) as [Hlt|Hle]; [|exact Hle].
        apply compare_key in Hlt. lia. }
      constructor; [apply IH; exact Htl|].
      eapply Permutation_Forall; [symmetry; apply insertBy_perm|].
      constructor; [exact Hxy|exact Hy].
Qed.

Lemma sortBy_sorted (l : list A) :
  StronglySorted (fun a b => (key a <= key b)%Z) (sortBy compare l).
Proof.
  unfold sortBy.
  assert (H : forall acc,
             StronglySorted (fun a b => (key a <= key b)%Z) acc ->
             StronglySorted (fun a b => (key a <= key b)%Z)
               (fold_left (fun sorted x => insertBy compare x sorted) l acc)).
  { induction l as [|x l IH]; intros acc Hacc; simpl; [exact Hacc|].
    apply IH, insertBy_sorted, Hacc. }
  apply H. constructor.
Qed.

(** The head of a sorted permutation is a least element. *)
Lemma sorted_head_least (l sorted : list A) (first : A) (rest : list A) :
  StronglySorted (fun a b => (key a <= key b)%Z) sorted ->
  Permutation sorted l -> sorted = first :: rest ->
  forall m, In m l -> (key first <= key m)%Z.
Proof.
  intros Hs Hp -> m Hm.
  apply (Permutation_in _ (Permutation_sym Hp)) in Hm.
  inversion Hs as [|? ? _ Hall]; subst.
  destruct Hm as [<-|Hm]; [lia|].
  rewrite List.Forall_forall in Hall. apply Hall, Hm.
Qed.

End SortBy.

Lemma StronglySorted_weaken {A : Type} (R S : A -> A -> Prop) (l : list A) :
  (forall a b, R a b -> S a b) -> StronglySorted R l -> StronglySorted S l.
Proof.
  intros HRS Hs. induction Hs as [|a l Hl IH Ha]; constructor; [exact IH|].
  eapply Forall_impl; [exact Ha|]. apply HRS.
Qed.

Lemma compareByYear_key (n : Z) (a b : RawMovie) :
  (compareByYear n a b < 0)%Z
  <-> (Z.abs (yearOf a - n) < Z.abs (yearOf b - n))%Z.
Proof.
  unfold compareByYear.
  destruct (yearOf a =? n)%Z eqn:Ea; destruct (yearOf b =? n)%Z eqn:Eb; simpl;
    rewrite ?Z.eqb_eq, ?Z.eqb_neq in *; lia.
Qed.

Lemma compareNewest_key (a b : RawMovie) :
  (compareNewest a b < 0)%Z <-> (- yearOf a < - yearOf b)%Z.
Proof. unfold compareNewest. lia. Qed.

(** X8: [sortOMDBResults] returns a permutation of the results: nothing is
    dropped and nothing is duplicated. *)
Theorem sortOMDBResults_permutation (results : list RawMovie) (searchTitle : string) :
  Permutation (sortOMDBResults results searchTitle) results.
Proof.
  unfold sortOMDBResults.
  destruct (requestedYearOf searchTitle) as [y|].
  - destruct (parseInt y); [apply sortBy_perm|reflexivity].
  - destruct (isRecentQuery searchTitle); [apply sortBy_perm|reflexivity].
Qed.

(** X9: when the search title names a year, [sortOMDBResults] orders the
    results by the distance of their year to it (a [Year] that does not
    parse counts as 0): no result is farther than one after it, and the
    first result is the closest of all. *)
Theorem sortOMDBResults_closest_year_first (results : list RawMovie)
  (searchTitle requestedYear : string) (n : Z) :
  requestedYearOf searchTitle = Some requestedYear ->
  parseInt requestedYear = Some n ->
  StronglySorted
    (fun a b => (Z.abs (yearOf a - n) <= Z.abs (yearOf b - n))%Z)
    (sortOMDBResults results searchTitle)
  /\ forall first rest,
       sortOMDBResults results searchTitle = first :: rest ->
       forall movie, In movie results ->
         (Z.abs (yearOf first - n) <= Z.abs (yearOf movie - n))%Z.
Proof.
  intros Hyear Hn.
  assert (Hs : StronglySorted
                 (fun a b => (Z.abs (yearOf a - n) <= Z.abs (yearOf b - n))%Z)
                 (sortOMDBResults results searchTitle)).
  { unfold sortOMDBResults. rewrite Hyear, Hn.
    apply (sortBy_sorted (compareByYear n) (fun m => Z.abs (yearOf m - n))).
    apply compareByYear_key. }
  split; [exact Hs|].
  intros first rest E movie Hin.
  assert (Hp : Permutation (sortOMDBResults results searchTitle) results).
  { unfold sortOMDBResults. rewrite Hyear, Hn. apply sortBy_perm. }
  apply (sorted_head_least (fun m => Z.abs (yearOf m - n)) results
           (sortOMDBResults results searchTitle) first rest Hs Hp E movie Hin).
Qed.

(** X10: when the search title names no year, a query for a recent movie
    gets the results newest first, and any other query gets them in the
    order of the catalog. *)
Theorem sortOMDBResults_without_year (results : list RawMovie) (searchTitle : string) :
  requestedYearOf searchTitle = None ->
  (isRecentQuery searchTitle = true ->
   StronglySorted (fun a b => (yearOf b <= yearOf a)%Z)
                  (sortOMDBResults results searchTitle))
  /\ (isRecentQuery searchTitle = false ->
      sortOMDBResults results searchTitle = results).
Proof.
  intros Hyear. unfold sortOMDBResults. rewrite Hyear. split; intros Hrecent;
    rewrite Hrecent; [|reflexivity].
  pose proof (sortBy_sorted compareNewest (fun m => (- yearOf m)%Z)
                compareNewest_key results) as Hs.
  eapply StronglySorted_weaken; [|exact Hs]. intros a b Hab. simpl in Hab. lia.
Qed.


(** A search for "Dune 2021" among the rows of 1984, 2024 and 2021. *)
Lemma sortOMDBResults_closest_year_first_witness :
  requestedYearOf "Dune 2021" = Some "2021"
  /\ parseInt "2021" = Some 2021%Z
  /\ StronglySorted
       (fun a b => (Z.abs (yearOf a - 2021) <= Z.abs (yearOf b - 2021))%Z)
       (sortOMDBResults duneRows "Dune 2021").
Proof.
  assert (Hyear : requestedYearOf "Dune 2021" = Some "2021")
    by (vm_compute; reflexivity).
  assert (Hn : parseInt "2021" = Some 2021%Z) by (vm_compute; reflexivity).
  split; [exact Hyear|]. split; [exact Hn|].
  exact (proj1 (sortOMDBResults_closest_year_first duneRows "Dune 2021" "2021"
                  2021%Z Hyear Hn)).
Defined.

(** A search for "latest Dune": no year is asked for, the query is a
    "recent" one. *)
Lemma sortOMDBResults_without_year_witness :
  requestedYearOf "latest Dune" = None
  /\ isRecentQuery "latest Dune" = true
  /\ StronglySorted (fun a b => (yearOf b <= yearOf a)%Z)
                    (sortOMDBResults duneRows "latest Dune").
Proof.
  assert (Hyear : requestedYearOf "latest Dune" = None)
    by (vm_compute; reflexivity).
  assert (Hrecent : isRecentQuery "latest Dune" = true)
    by (vm_compute; reflexivity).
  split; [exact Hyear|]. split; [exact Hrecent|].
  exact (proj1 (sortOMDBResults_without_year duneRows "latest Dune" Hyear)
               Hrecent).
Defined.

(** ** The requests of the catalog lookup *)

Section Fetch.

Context (P : string -> Prop).

Lemma fetchesOnly_ret {A : Type} (Q : A -> Prop) (a : A) :
  Q a -> fetchesOnly P Q (OMDB.ret a).
Proof.
  intros Ha st. exists []. simpl. rewrite app_nil_r.
  split; [reflexivity|]. split; [constructor|]. intros a' E. injection E as <-. exact Ha.
Qed.

Lemma fetchesOnly_bind {A B : Type} (Q1 : A -> Prop) (Q : B -> Prop)
  (m : OMDB.F A) (k : A -> OMDB.F B) :
  fetchesOnly P Q1 m -> (forall a, Q1 a -> fetchesOnly P Q (k a)) ->
  fetchesOnly P Q (OMDB.bind m k).
Proof.
  intros Hm Hk st. unfold OMDB.bind.
  destruct (Hm st) as (u1 & E1 & F1 & R1). destruct (m st) as [[a|e] st1].
  - destruct (Hk a (R1 a eq_refl) st1) as (u2 & E2 & F2 & R2).
    exists (u1 ++ u2). simpl in E1. rewrite E2, E1, app_assoc.
    split; [reflexivity|]. split; [apply Forall_app; auto|exact R2].
  - exists u1. simpl in *. split; [exact E1|]. split; [exact F1|].
    intros a E. discriminate.
Qed.

Lemma fetchesOnly_tryCatch {A : Type} (Q : A -> Prop) (m : OMDB.F A)
  (h : string -> OMDB.F A) :
  fetchesOnly P Q m -> (forall e, fetchesOnly P Q (h e)) ->
  fetchesOnly P Q (OMDB.tryCatch m h).
Proof.
  intros Hm Hh st. unfold OMDB.tryCatch.
  destruct (Hm st) as (u1 & E1 & F1 & R1). destruct (m st) as [[a|e] st1].
  - exists u1. simpl in *. auto.
  - destruct (Hh e st1) as (u2 & E2 & F2 & R2).
    exists (u1 ++ u2). simpl in E1. rewrite E2, E1, app_assoc.
    split; [reflexivity|]. split; [apply Forall_app; auto|exact R2].
Qed.

Lemma fetchesOnly_fetchJson (fetch : nat -> string -> result OMDB.Json)
  (url : string) :
  P url -> fetchesOnly P (fun _ => True) (OMDB.fetchJson fetch url).
Proof.
  intros Hurl st. exists [url]. simpl.
  split; [reflexivity|]. split; [constructor; [exact Hurl|constructor]|auto].
Qed.

End Fetch.

(** *** The URLs *)

Lemma encodeChar_safe (c : ascii) : forallb urlSafe (encodeChar c) = true.
Proof.
  destruct c as [[] [] [] [] [] [] [] []]; vm_compute; reflexivity.
Qed.

Lemma encodeURIComponent_safe (text : string) :
  forallb urlSafe (chars (encodeURIComponent text)) = true.
Proof.
  unfold encodeURIComponent. rewrite chars_str.
  induction (chars text) as [|c l IH]; simpl; [reflexivity|].
  rewrite forallb_app, encodeChar_safe, IH. reflexivity.
Qed.

Lemma omdbUrl_text (key parameter text : string) :
  parameter = "s" \/ parameter = "t" ->
  omdbUrl key (OMDB.api key parameter (encodeURIComponent text)).
Proof.
  intros Hp. exists parameter, (encodeURIComponent text).
  split; [reflexivity|]. right. split; [exact Hp|apply encodeURIComponent_safe].
Qed.

Lemma omdbUrl_id (key id : string) : omdbUrl key (OMDB.api key "i" id).
Proof. exists "i", id. split; [reflexivity|]. left. reflexivity. Qed.

Lemma isTrue_responseTrue (d : OMDB.Json) :
  OMDB.isTrue d = true -> responseTrue (OMDB.fields d).
Proof.
  unfold OMDB.isTrue, responseTrue.
  destruct (OMDB.fields d !! "Response") as [r|]; [|discriminate].
  intros E. apply String.eqb_eq in E. subst r. reflexivity.
Qed.

Section Lookup.

Context (fetch : nat -> string -> result OMDB.Json) (key : string).

#[local] Abbreviation found := (fun r : option RawMovie =>
                     forall movie, r = Some movie -> responseTrue movie).

Ltac fetch_step :=
  first
    [ apply fetchesOnly_ret; try solve [intros ? [=]]
    | match goal with
      | |- fetchesOnly _ _ (OMDB.bind (OMDB.fetchJson _ _) _) =>
          eapply fetchesOnly_bind;
          [apply fetchesOnly_fetchJson;
           first [apply omdbUrl_id | apply omdbUrl_text; auto]
          |intros ? _]
      | |- fetchesOnly _ _ (if ?b then _ else _) => destruct b eqn:?
      | |- fetchesOnly _ _ (match ?x with _ => _ end) => destruct x eqn:?
      end ].

Lemma fetchesOnly_specificSearch (title : string) (year actor : option string) :
  fetchesOnly (omdbUrl key)
    (fun r : option (option RawMovie) =>
       forall movie, r = Some (Some movie) -> responseTrue movie)
    (OMDB.specificSearch fetch key title year actor).
Proof.
  unfold OMDB.specificSearch. repeat fetch_step;
    intros movie [= <-]; apply isTrue_responseTrue; assumption.
Qed.

Lemma fetchesOnly_tryVariations (variations : list string) :
  fetchesOnly (omdbUrl key) found (OMDB.tryVariations fetch key variations).
Proof.
  induction variations as [|v tl IH]; simpl.
  - apply fetchesOnly_ret. intros ? [=].
  - repeat fetch_step; [|exact IH].
    intros movie [= <-]; apply isTrue_responseTrue; assumption.
Qed.

Lemma fetchesOnly_broadSearch (title : string) :
  fetchesOnly (omdbUrl key) found (OMDB.broadSearch fetch key title).
Proof.
  unfold OMDB.broadSearch. repeat fetch_step.
  intros movie [= <-]; apply isTrue_responseTrue; assumption.
Qed.

Lemma fetchesOnly_lookupTitle (title : string) :
  fetchesOnly (omdbUrl key) found (OMDB.lookupTitle fetch key title).
Proof.
  unfold OMDB.lookupTitle. apply fetchesOnly_tryCatch.
  - eapply fetchesOnly_bind.
    + destruct (_ || _); [apply fetchesOnly_specificSearch|].
      apply fetchesOnly_ret. intros ? [=].
    + intros [outcome|] Hspecific.
      * apply fetchesOnly_ret. intros movie ->. apply Hspecific. reflexivity.
      * fetch_step. fetch_step.
        -- apply fetchesOnly_ret. intros movie [= <-].
           apply isTrue_responseTrue; assumption.
        -- eapply fetchesOnly_bind; [apply fetchesOnly_tryVariations|].
           intros [variationData|] Hv.
           ++ apply fetchesOnly_ret. intros movie [= <-]. apply Hv. reflexivity.
           ++ destruct (_ && _); [apply fetchesOnly_broadSearch|].
              apply fetchesOnly_ret. intros ? [=].
  - intros e. apply fetchesOnly_ret. intros ? [=].
Qed.

Lemma lookupTitle_returns (title : string) (st : OMDB.Net) :
  exists r st', OMDB.lookupTitle fetch key title st = (Ok r, st').
Proof.
  unfold OMDB.lookupTitle, OMDB.tryCatch.
  match goal with |- context [OMDB.bind ?m ?k st] =>
    destruct (OMDB.bind m k st) as [[r|e] st'] end; eauto.
Qed.

Lemma fetchesOnly_lookupTitles (titles : list string) :
  fetchesOnly (omdbUrl key) found (OMDB.lookupTitles fetch key titles).
Proof.
  induction titles as [|title tl IH]; simpl.
  - apply fetchesOnly_ret. intros ? [=].
  - eapply fetchesOnly_bind; [apply fetchesOnly_lookupTitle|].
    intros [movieData|] Hm; [|exact IH].
    apply fetchesOnly_ret. intros movie [= <-]. apply Hm. reflexivity.
Qed.

Lemma lookupTitles_returns (titles : list string) (st : OMDB.Net) :
  exists r st', OMDB.lookupTitles fetch key titles st = (Ok r, st').
Proof.
  revert st. induction titles as [|title tl IH]; intros st; simpl.
  - eauto.
  - unfold OMDB.bind. destruct (lookupTitle_returns title st) as (r & st1 & E).
    rewrite E. destruct r as [movieData|]; [eauto|apply IH].
Qed.

End Lookup.

(** X11: [searchOMDB] never throws; a record it returns was answered with
    [Response: "True"]; without an API key it returns [null] and fetches
    nothing. *)
Theorem searchOMDB_returns_true_record (fetch : nat -> string -> result OMDB.Json)
  (key : string) (titles : list string) (st : OMDB.Net) :
  exists found st',
    OMDB.searchOMDB fetch key titles st = (Ok found, st')
    /\ (forall movie, found = Some movie -> movie !! "Response" = Some "True")
    /\ (key = "" -> found = None /\ st' = st).
Proof.
  unfold OMDB.searchOMDB. destruct (String.eqb key "") eqn:Ek.
  - exists None, st. split; [reflexivity|]. split; [intros ? [=]|auto].
  - destruct (lookupTitles_returns fetch key titles st) as (r & st' & E).
    exists r, st'. split; [exact E|]. split.
    + destruct (fetchesOnly_lookupTitles fetch key titles st) as (_ & _ & _ & Hr).
      rewrite E in Hr. intros movie ->. apply (Hr (Some movie) eq_refl movie eq_refl).
    + intros ->. discriminate.
Qed.

(** X12: every URL [searchOMDB] fetches is a URL of the OMDB API that ends
    with the key: a lookup [?i=], or a search [?s=] or title lookup [?t=]
    whose text holds unreserved characters and percent-escapes only. *)
Theorem searchOMDB_fetches_api_urls (fetch : nat -> string -> result OMDB.Json)
  (key : string) (titles : list string) (st : OMDB.Net) :
  exists urls,
    OMDB.fetched (snd (OMDB.searchOMDB fetch key titles st))
    = OMDB.fetched st ++ urls
    /\ Forall
         (fun url =>
            exists parameter value,
              url = "https://www.omdbapi.com/?" +:+ parameter +:+ "=" +:+ value
                    +:+ "&apikey=" +:+ key
              /\ (parameter = "i"
                  \/ ((parameter = "s" \/ parameter = "t")
                      /\ forallb urlSafe (chars value) = true)))
         urls.
Proof.
  unfold OMDB.searchOMDB. destruct (String.eqb key "").
  - exists []. simpl. rewrite app_nil_r. split; [reflexivity|constructor].
  - destruct (fetchesOnly_lookupTitles fetch key titles st) as (urls & E & Hall & _).
    exists urls. split; [exact E|exact Hall].
Qed.

(** X13: with a key, when every fetch fails [searchOMDB] returns [null] after
    exactly one fetch per title: the [catch] ends the attempt for a title
    at its first request. *)
Theorem searchOMDB_network_down (fetch : nat -> string -> result OMDB.Json)
  (key : string) (titles : list string) (st : OMDB.Net) :
  key <> "" ->
  (forall n url, exists e, fetch n url = Throw e) ->
  exists st',
    OMDB.searchOMDB fetch key titles st = (Ok None, st')
    /\ List.length (OMDB.fetched st')
       = List.length (OMDB.fetched st) + List.length titles.
Proof.
  intros Hkey Hdown. unfold OMDB.searchOMDB.
  destruct (String.eqb key "") eqn:Ek; [apply String.eqb_eq in Ek; contradiction|].
  clear Ek Hkey. revert st. induction titles as [|title tl IH]; intros st.
  - exists st. simpl. split; [reflexivity|lia].
  - assert (Hone : exists st1,
               OMDB.lookupTitle fetch key title st = (Ok None, st1)
               /\ List.length (OMDB.fetched st1) = S (List.length (OMDB.fetched st))).
    { unfold OMDB.lookupTitle, OMDB.tryCatch, OMDB.bind.
      destruct (_ || _).
      - unfold OMDB.specificSearch, OMDB.bind, OMDB.fetchJson.
        destruct (Hdown (OMDB.calls st)
                    (OMDB.api key "s" (encodeURIComponent (extractBaseTitle title))))
          as [e ->].
        eexists. split; [reflexivity|]. simpl. rewrite length_app. simpl. lia.
      - unfold OMDB.ret, OMDB.fetchJson.
        destruct (Hdown (OMDB.calls st) (OMDB.api key "t" (encodeURIComponent title)))
          as [e ->].
        eexists. split; [reflexivity|]. simpl. rewrite length_app. simpl. lia. }
    destruct Hone as (st1 & E1 & L1).
    destruct (IH st1) as (st' & E' & L').
    exists st'. simpl. unfold OMDB.bind at 1. rewrite E1. split; [exact E'|].
    simpl. lia.
Qed.

(** Two titles looked up while every request fails. *)
Lemma searchOMDB_network_down_witness :
  "key" <> ""
  /\ exists st',
       OMDB.searchOMDB networkDown "key" ["Heat"; "Dune"] freshNet = (Ok None, st')
       /\ List.length (OMDB.fetched st') = 2.
Proof.
  assert (Hkey : "key" <> "") by discriminate.
  split; [exact Hkey|].
  destruct (searchOMDB_network_down networkDown "key" ["Heat"; "Dune"] freshNet
              Hkey (fun _ _ => ex_intro _ "connection refused" eq_refl))
    as (st' & Hrun & Hlen).
  exists st'. split; [exact Hrun|exact Hlen].
Defined.

(** ** Requests to the store *)

Lemma request_run W (rq : DbRequest) (st : ChainState) :
  request W rq st
  = (supabase W (clock st) rq,
     {| conversationStore := conversationStore st;
        chatHistory := chatHistory st;
        requests := requests st ++ [rq];
        clock := S (clock st) |}).
Proof. reflexivity. Qed.

Section Requests.

Context (W : World) (P : DbRequest -> Prop).
Hypothesis conversations_allowed : forall rq, rq_table rq = Conversations -> P rq.

Ltac send_step :=
  first
    [ solve [auto with frame]
    | match goal with
      | |- sendsOnly _ (request _ _) =>
          apply sendsOnly_request; apply conversations_allowed; reflexivity
      end
    | apply sendsOnly_bind; [|intros ?]
    | apply sendsOnly_tryCatch; [|intros ?]
    | match goal with
      | |- sendsOnly _ (match ?x with _ => _ end) => destruct x
      | |- sendsOnly _ (if ?b then _ else _) => destruct b
      end ].

Lemma sends_now : sendsOnly P (now W).
Proof. unfold now. repeat send_step. Qed.

Lemma sends_isoNow : sendsOnly P (isoNow W).
Proof. unfold isoNow. repeat send_step. Qed.

Lemma sends_newUUID : sendsOnly P (newUUID W).
Proof. unfold newUUID. repeat send_step. Qed.

Hint Resolve sends_now sends_isoNow sends_newUUID : frame.

Lemma sends_loadConversation id : sendsOnly P (loadConversation W id).
Proof. unfold loadConversation. repeat send_step. Qed.

Lemma sends_saveUserMessage id message : sendsOnly P (saveUserMessage W id message).
Proof. unfold saveUserMessage. repeat send_step. Qed.

Lemma sends_saveConversationToDatabase id c user :
  sendsOnly P (saveConversationToDatabase W id c user).
Proof. unfold saveConversationToDatabase. repeat send_step. Qed.

Hint Resolve sends_saveConversationToDatabase : frame.

Lemma sends_saveAssistantMessage id message movieData user :
  sendsOnly P (saveAssistantMessage W id message movieData user).
Proof. unfold saveAssistantMessage. repeat send_step. Qed.

Lemma sends_addTokens id tokens : sendsOnly P (addTokens id tokens).
Proof. unfold addTokens. repeat send_step. Qed.

Hint Resolve sends_loadConversation sends_saveUserMessage
  sends_saveAssistantMessage sends_addTokens : frame.

Lemma sends_handleGeneralConversation context :
  sendsOnly P (handleGeneralConversation W context).
Proof. unfold handleGeneralConversation. repeat send_step. Qed.

Lemma sends_extractMovieTitles query id :
  sendsOnly P (extractMovieTitles W query id).
Proof. unfold extractMovieTitles. repeat send_step. Qed.

Lemma sends_searchOMDB titles : sendsOnly P (searchOMDB W titles).
Proof. unfold searchOMDB. repeat send_step. Qed.

Lemma sends_normalizeMovieData movieData :
  sendsOnly P (normalizeMovieData W movieData).
Proof. unfold normalizeMovieData. repeat send_step. Qed.

Lemma sends_generateRecommendation movieData id :
  sendsOnly P (generateRecommendation W movieData id).
Proof. unfold generateRecommendation, fallbackRecommendation. repeat send_step. Qed.

Lemma sends_lastDiscussed id : sendsOnly P (lastDiscussed id).
Proof. unfold lastDiscussed. repeat send_step. Qed.

Hint Resolve sends_extractMovieTitles sends_searchOMDB sends_normalizeMovieData
  sends_generateRecommendation sends_lastDiscussed : frame.

Lemma sends_chatOnly context message : sendsOnly P (chatOnly W context message).
Proof. unfold chatOnly. repeat send_step. Qed.

End Requests.

(** *** What never throws *)

Lemma loadConversation_returns W id st :
  exists c st', loadConversation W id st = (Ok c, st')
                /\ conversationStore st' !! id = Some c.
Proof.
  unfold loadConversation, bind, getStore.
  destruct (conversationStore st !! id) as [c|] eqn:E; simpl.
  - exists c, st. split; [reflexivity|exact E].
  - unfold tryCatch, bind, request, tick, logRequest, liftResult. simpl.
    destruct (supabase W (clock st) _) as [reply|e]; simpl.
    + destruct (asConversation (data reply)) as [row|]; simpl;
        eexists; eexists; (split; [reflexivity|]); simpl; apply lookup_insert_eq.
    + eexists; eexists; (split; [reflexivity|]); simpl; apply lookup_insert_eq.
Qed.

Lemma handleGeneralConversation_returns W context st :
  exists reply st', handleGeneralConversation W context st = (Ok reply, st').
Proof.
  unfold handleGeneralConversation, tryCatch.
  match goal with |- context [bind ?m ?k st] =>
    destruct (bind m k st) as [[r|e] st1] end; [eauto|].
  unfold bind.
  destruct (saveAssistantMessage_state W (conversationId context) defaultReply None
              (userId context) st1) as (st2 & -> & _).
  eauto.
Qed.

Lemma processQuery_general_reply W (context : ChainContext) (st : ChainState) :
  detectGeneralConversation (query context) = true ->
  exists reply st',
    processQuery W context st = (Ok (ChatResponse reply), st').
Proof.
  intros Hgeneral. unfold processQuery, tryCatch, bind. rewrite Hgeneral.
  destruct (loadConversation_returns W (conversationId context) st)
    as (c & st1 & -> & _).
  destruct (saveUserMessage_state W (conversationId context) (query context) st1)
    as (st2 & -> & _).
  destruct (handleGeneralConversation_returns W context st2) as (reply & st3 & ->).
  eauto.
Qed.

(** X14: a query that [detectGeneralConversation] takes for general
    conversation is answered by a chat response, never by an error
    response, and only the [conversations] table is accessed. *)
Theorem processQuery_general_conversation W (context : ChainContext)
  (st : ChainState) :
  detectGeneralConversation (query context) = true ->
  exists reply st' sent,
    processQuery W context st = (Ok (ChatResponse reply), st')
    /\ requests st' = requests st ++ sent
    /\ Forall (fun rq => rq_table rq = Conversations) sent.
Proof.
  intros Hgeneral.
  destruct (processQuery_general_reply W context st Hgeneral)
    as (reply & st' & Hrun).
  assert (Hsends : sendsOnly (fun rq => rq_table rq = Conversations)
                             (processQuery W context)).
  { unfold processQuery. rewrite Hgeneral.
    pose proof (sends_loadConversation W _ (fun rq H => H) (conversationId context)).
    pose proof (sends_saveUserMessage W (fun rq => rq_table rq = Conversations)
                  (conversationId context) (query context)).
    pose proof (sends_handleGeneralConversation W _ (fun rq H => H) context).
    repeat frame_step; assumption. }
  destruct (Hsends st) as (sent & Hsent & Hall).
  exists reply, st', sent. rewrite Hrun in Hsent. auto.
Qed.

(** A comparison asked for while the store and the language model are down. *)
Lemma processQuery_general_conversation_witness :
  detectGeneralConversation (query comparisonContext) = true
  /\ exists reply st' sent,
       processQuery (failingWorld 0) comparisonContext emptyState
         = (Ok (ChatResponse reply), st')
       /\ requests st' = sent
       /\ Forall (fun rq => rq_table rq = Conversations) sent.
Proof.
  assert (Hgeneral : detectGeneralConversation (query comparisonContext) = true)
    by (vm_compute; reflexivity).
  split; [exact Hgeneral|].
  destruct (processQuery_general_conversation (failingWorld 0) comparisonContext
              emptyState Hgeneral)
    as (reply & st' & sent & Hrun & Hsent & Hall).
  exists reply, st', sent. split; [exact Hrun|]. split; [exact Hsent|exact Hall].
Defined.

(** *** The store search *)

Lemma movieSelect_reads (op value user : string) :
  readsMoviesOf user (movieSelect op value user).
Proof. unfold readsMoviesOf, movieSelect. simpl. auto. Qed.

Lemma fuzzySearch_sends W (title user : string) (patterns : list string)
  (st : ChainState) :
  exists sent,
    requests (snd (fuzzySearch W title user patterns st)) = requests st ++ sent
    /\ List.length sent <= List.length patterns
    /\ Forall (readsMoviesOf user) sent.
Proof.
  revert st. induction patterns as [|pattern tl IH]; intros st.
  - exists []. simpl. rewrite app_nil_r. split; [reflexivity|]. split; [lia|constructor].
  - cbn [fuzzySearch]. unfold bind at 1. rewrite request_run.
    set (st1 := {| conversationStore := conversationStore st;
                   chatHistory := chatHistory st;
                   requests := requests st ++ [movieSelect "ilike" pattern user];
                   clock := S (clock st) |}).
    assert (Hone : requests st1 = requests st ++ [movieSelect "ilike" pattern user])
      by reflexivity.
    assert (Hstop : forall (r : result (option RawMovie)) ,
               exists sent,
                 requests (snd (r, st1)) = requests st ++ sent
                 /\ List.length sent <= List.length (pattern :: tl)
                 /\ Forall (readsMoviesOf user) sent).
    { intros r. exists [movieSelect "ilike" pattern user]. simpl.
      split; [reflexivity|]. split; [lia|].
      constructor; [apply movieSelect_reads|constructor]. }
    assert (Hnext : exists sent,
               requests (snd (fuzzySearch W title user tl st1)) = requests st ++ sent
               /\ List.length sent <= List.length (pattern :: tl)
               /\ Forall (readsMoviesOf user) sent).
    { destruct (IH st1) as (sent & E & L & F).
      exists (movieSelect "ilike" pattern user :: sent).
      rewrite E, Hone, <- app_assoc. simpl. split; [reflexivity|]. split; [lia|].
      constructor; [apply movieSelect_reads|exact F]. }
    destruct (supabase W (clock st) _) as [reply|e]; [|apply Hstop].
    destruct (error reply); [exact Hnext|].
    destruct (asRows (data reply)) as [|row rows]; [exact Hnext|].
    unfold bind, liftResult, ret.
    destruct (findBestTitleMatch title (row :: rows)); apply Hstop.
Qed.

Lemma searchTitles_sends W (titles : list string) (user : string)
  (st : ChainState) :
  exists sent,
    requests (snd (searchTitles W titles user st)) = requests st ++ sent
    /\ List.length sent <= 4 * List.length titles
    /\ Forall (readsMoviesOf user) sent.
Proof.
  revert st. induction titles as [|title tl IH]; intros st.
  - exists []. simpl. rewrite app_nil_r. split; [reflexivity|]. split; [lia|constructor].
  - cbn [searchTitles]. unfold bind at 1. rewrite request_run.
    set (st1 := {| conversationStore := conversationStore st;
                   chatHistory := chatHistory st;
                   requests := requests st ++ [movieSelect "ilike" title user];
                   clock := S (clock st) |}).
    assert (Hone : requests st1 = requests st ++ [movieSelect "ilike" title user])
      by reflexivity.
    assert (Hstop : forall (r : result (option RawMovie)) ,
               exists sent,
                 requests (snd (r, st1)) = requests st ++ sent
                 /\ List.length sent <= 4 * List.length (title :: tl)
                 /\ Forall (readsMoviesOf user) sent).
    { intros r. exists [movieSelect "ilike" title user]. simpl.
      split; [reflexivity|]. split; [lia|].
      constructor; [apply movieSelect_reads|constructor]. }
    destruct (supabase W (clock st) _) as [reply|e]; [|apply Hstop].
    destruct (asRow (data reply)); [apply Hstop|].
    unfold bind.
    destruct (fuzzySearch_sends W title user (searchPatterns title) st1)
      as (sent1 & E1 & L1 & F1).
    change (List.length (searchPatterns title)) with 3 in L1.
    destruct (fuzzySearch W title user (searchPatterns title) st1) as [[fuzzy|e] st2].
    + simpl in E1. destruct fuzzy as [bestMatch|].
      * exists (movieSelect "ilike" title user :: sent1). simpl.
        rewrite E1. subst st1. simpl. rewrite <- app_assoc. simpl.
        split; [reflexivity|].
        split; [lia|]. constructor; [apply movieSelect_reads|exact F1].
      * destruct (IH st2) as (sent2 & E2 & L2 & F2).
        exists (movieSelect "ilike" title user :: sent1 ++ sent2).
        rewrite E2, E1. subst st1. simpl. rewrite <- !app_assoc. simpl.
        split; [reflexivity|].
        rewrite length_app. split; [lia|].
        constructor; [apply movieSelect_reads|apply Forall_app; auto].
    + simpl in E1. exists (movieSelect "ilike" title user :: sent1). simpl.
      rewrite E1. subst st1. simpl. rewrite <- app_assoc. simpl.
      split; [reflexivity|].
      split; [lia|]. constructor; [apply movieSelect_reads|exact F1].
Qed.

(** X15: [searchDatabase] never throws and sends at most four requests per
    title, each a read of the [movies] rows of the user; for a guest it
    sends nothing. *)
Theorem searchDatabase_reads_own_movies W (titles : list string)
  (user : option string) (st : ChainState) :
  exists found st' sent,
    searchDatabase W titles user st = (Ok found, st')
    /\ requests st' = requests st ++ sent
    /\ List.length sent <= 4 * List.length titles
    /\ Forall (fun rq => exists u, user = Some u /\ readsMoviesOf u rq) sent.
Proof.
  assert (Hnothing : exists found st' sent,
             (Ok (@None RawMovie), st) = (Ok found, st')
             /\ requests st' = requests st ++ sent
             /\ List.length sent <= 4 * List.length titles
             /\ Forall (fun rq => exists u, user = Some u /\ readsMoviesOf u rq) sent).
  { exists None, st, []. rewrite app_nil_r. simpl.
    split; [reflexivity|]. split; [reflexivity|]. split; [lia|constructor]. }
  unfold searchDatabase. destruct user as [u|]; [|exact Hnothing].
  destruct (String.eqb u ""); [exact Hnothing|]. clear Hnothing.
  unfold tryCatch. destruct (searchTitles_sends W titles u st) as (sent & E & L & F).
  assert (Hall : Forall (fun rq => exists u0, Some u = Some u0 /\ readsMoviesOf u0 rq) sent).
  { eapply Forall_impl; [exact F|]. simpl. intros rq Hrq. exists u. auto. }
  destruct (searchTitles W titles u st) as [[found|e] st']; simpl in E.
  - exists found, st', sent. auto.
  - exists None, st', sent. auto.
Qed.

Lemma sendsOnly_weaken {A : Type} (P Q : DbRequest -> Prop) (m : M A) :
  (forall rq, P rq -> Q rq) -> sendsOnly P m -> sendsOnly Q m.
Proof.
  intros HPQ Hm st. destruct (Hm st) as (sent & E & F).
  exists sent. split; [exact E|]. eapply Forall_impl; [exact F|]. exact HPQ.
Qed.

(** *** Persistence of a movie *)

(** X16: [saveToDatabase] never throws.  It sends the check for an existing
    row of the user with the same [imdbid], then at most one insertion of
    the row of that user; when the check finds a row nothing is inserted and
    the identifier of that row is returned. *)
Theorem saveToDatabase_requests W (movieData : Movie) (user : string)
  (st : ChainState) :
  let check := mkRequest Movies Select
                 [("eq", "user_id", user); ("eq", "imdbid", m_imdbID movieData)]
                 NoPayload in
  let insert := mkRequest Movies Insert []
                  (MoviePayload (movieRow movieData user)) in
  exists saved st' sent,
    saveToDatabase W movieData user st = (Ok saved, st')
    /\ requests st' = requests st ++ sent
    /\ (sent = [check] \/ sent = [check; insert])
    /\ (forall reply existing,
          supabase W (clock st) check = Ok reply ->
          asRow (data reply) = Some existing ->
          sent = [check]
          /\ saved = {| sv_success := true; sv_movieId := existing !! "id" |}).
Proof.
  intros check insert.
  unfold saveToDatabase, tryCatch, bind. rewrite request_run. fold check.
  destruct (supabase W (clock st) check) as [found|e].
  - destruct (asRow (data found)) as [existing|] eqn:Efound.
    + eexists; eexists; exists [check]. simpl.
      split; [reflexivity|]. split; [reflexivity|]. split; [auto|].
      intros reply existing' [= <-] E. rewrite Efound in E. injection E as <-. auto.
    + rewrite request_run. fold insert. simpl.
      assert (Hnone : forall reply existing,
                 Ok found = Ok reply -> asRow (data reply) = Some existing ->
                 [check; insert] = [check]
                 /\ False).
      { intros reply existing [= <-] E. rewrite Efound in E. discriminate. }
      destruct (supabase W (S (clock st)) insert) as [saved|e]; simpl.
      * destruct (error saved); [|destruct (asRow (data saved))];
          (eexists; eexists; exists [check; insert]; simpl; rewrite <- app_assoc;
           split; [reflexivity|]; split; [reflexivity|]; split; [auto|];
           intros reply existing H1 H2; destruct (Hnone reply existing H1 H2) as [_ []]).
      * eexists; eexists; exists [check; insert]; simpl; rewrite <- app_assoc.
        split; [reflexivity|]; split; [reflexivity|]; split; [auto|].
        intros reply existing H1 H2; destruct (Hnone reply existing H1 H2) as [_ []].
  - eexists; eexists; exists [check]. simpl.
    split; [reflexivity|]. split; [reflexivity|]. split; [auto|].
    intros reply existing [=].
Qed.

(** X17: [getExistingRecommendation] never throws and sends one or two
    requests, which are reads. *)
Theorem getExistingRecommendation_reads_only W (movieData : Movie)
  (user : option string) (st : ChainState) :
  exists found st' sent,
    getExistingRecommendation W movieData user st = (Ok found, st')
    /\ requests st' = requests st ++ sent
    /\ 1 <= List.length sent <= 2
    /\ Forall (fun rq => rq_verb rq = Select) sent.
Proof.
  unfold getExistingRecommendation, tryCatch.
  destruct (truthy user && negb (String.eqb (m_imdbID movieData) "")).
  - unfold bind at 1. rewrite request_run.
    match goal with |- context [supabase W (clock st) ?rq] => set (rq1 := rq) end.
    assert (Hone : forall (found : option RawMovie),
               exists found' st' sent,
                 (Ok found,
                  {| conversationStore := conversationStore st;
                     chatHistory := chatHistory st;
                     requests := requests st ++ [rq1];
                     clock := S (clock st) |}) = (Ok found', st')
                 /\ requests st' = requests st ++ sent
                 /\ 1 <= List.length sent <= 2
                 /\ Forall (fun rq => rq_verb rq = Select) sent).
    { intros found. eexists; eexists; exists [rq1]. simpl.
      split; [reflexivity|]. split; [reflexivity|]. split; [lia|].
      constructor; [reflexivity|constructor]. }
    destruct (supabase W (clock st) rq1) as [r1|e]; [|apply Hone].
    destruct (errorIsNot "PGRST116" (error r1)); [apply Hone|].
    destruct (asRow (data r1)) as [userMovie|]; [|apply Hone].
    unfold bind. rewrite request_run. cbn [clock requests].
    match goal with |- context [supabase W (S (clock st)) ?rq] => set (rq2 := rq) end.
    destruct (supabase W (S (clock st)) rq2) as [r2|e];
      [destruct (errorIsNot "PGRST116" (error r2))|];
      (eexists; eexists; exists [rq1; rq2]; simpl; rewrite <- app_assoc;
       split; [reflexivity|]; split; [reflexivity|]; split; [lia|];
       repeat constructor).
  - unfold bind. rewrite request_run.
    destruct (supabase W (clock st) _) as [r|e];
      [destruct (errorIsNot "PGRST116" (error r))|];
      (eexists; eexists; exists [recommendationSelect (m_id movieData)]; simpl;
       split; [reflexivity|]; split; [reflexivity|]; split; [lia|];
       repeat constructor).
Qed.

(** *** A user's queries stay within the user's movies *)

Section OwnMovies.

Context (W : World) (user : string).

Lemma ownedBy_other_table (rq : DbRequest) :
  rq_table rq <> Movies -> ownedBy user rq.
Proof. intros Hne Htable. contradiction. Qed.

Lemma ownedBy_conversations (rq : DbRequest) :
  rq_table rq = Conversations -> ownedBy user rq.
Proof. intros H. apply ownedBy_other_table. rewrite H. discriminate. Qed.

Lemma ownedBy_reads (rq : DbRequest) : readsMoviesOf user rq -> ownedBy user rq.
Proof. intros (_ & _ & Hin) _. left. exact Hin. Qed.

Lemma movieRow_user (movieData : Movie) :
  movieRow movieData user !! "user_id" = Some user.
Proof. reflexivity. Qed.

Lemma sends_own_searchDatabase (titles : list string) :
  sendsOnly (ownedBy user) (searchDatabase W titles (Some user)).
Proof.
  unfold searchDatabase. destruct (String.eqb user ""); [auto with frame|].
  apply sendsOnly_tryCatch; [|auto with frame].
  apply (sendsOnly_weaken (readsMoviesOf user)); [apply ownedBy_reads|].
  intros st. destruct (searchTitles_sends W titles user st) as (sent & E & _ & F).
  exists sent. auto.
Qed.

Ltac known lemma :=
  first [ pose proof (lemma W (ownedBy user) ownedBy_conversations)
        | pose proof (lemma W (ownedBy user))
        | pose proof (lemma (ownedBy user)) ].

Ltac own_step :=
  first
    [ solve [auto with frame]
    | match goal with
      | |- sendsOnly _ (request _ _) =>
          apply sendsOnly_request; intros Htable;
          first [ discriminate Htable
                | left; simpl; solve [auto 10]
                | right; eexists; split; [reflexivity|apply movieRow_user] ]
      end
    | apply sendsOnly_bind; [|intros ?]
    | apply sendsOnly_tryCatch; [|intros ?]
    | match goal with
      | |- sendsOnly _ (match ?x with _ => _ end) => destruct x
      | |- sendsOnly _ (if ?b then _ else _) => destruct b
      end ].

Lemma sends_own_saveToDatabase (movieData : Movie) :
  sendsOnly (ownedBy user) (saveToDatabase W movieData user).
Proof. unfold saveToDatabase. repeat own_step. Qed.

Lemma sends_own_getExistingRecommendation (movieData : Movie) :
  sendsOnly (ownedBy user) (getExistingRecommendation W movieData (Some user)).
Proof. unfold getExistingRecommendation, recommendationSelect. repeat own_step. Qed.

Lemma sends_own_recommendMovie (context : ChainContext) (movieData : RawMovie) :
  userId context = Some user ->
  sendsOnly (ownedBy user) (recommendMovie W context movieData).
Proof.
  intros Huser. unfold recommendMovie. rewrite Huser.
  known sends_normalizeMovieData. known sends_saveAssistantMessage.
  known sends_generateRecommendation.
  pose proof sends_own_saveToDatabase. pose proof sends_own_getExistingRecommendation.
  repeat own_step.
Qed.

Lemma sends_own_processMovieQuery (context : ChainContext) :
  userId context = Some user ->
  sendsOnly (ownedBy user) (processMovieQuery W context).
Proof.
  intros Huser. unfold processMovieQuery.
  known sends_extractMovieTitles. known sends_lastDiscussed. known sends_chatOnly.
  known sends_searchOMDB.
  pose proof (fun movieData => sends_own_recommendMovie context movieData Huser) as Hrec.
  rewrite Huser. pose proof sends_own_searchDatabase.
  repeat own_step.
Qed.

End OwnMovies.

(** X18: for a signed-in user [processQuery] returns a response, and every
    request it sends on the [movies] table is confined to the rows of that
    user: a read filtered by [user_id], or the insertion of a row with that
    [user_id]. *)
Theorem processQuery_own_movies_only W (context : ChainContext) (user : string)
  (st : ChainState) :
  userId context = Some user ->
  exists response st' sent,
    processQuery W context st = (Ok response, st')
    /\ requests st' = requests st ++ sent
    /\ Forall (fun rq =>
                 rq_table rq = Movies ->
                 In ("eq", "user_id", user) (rq_filters rq)
                 \/ exists row,
                      rq_payload rq = MoviePayload row
                      /\ row !! "user_id" = Some user)
              sent.
Proof.
  intros Huser.
  assert (Hsends : sendsOnly (ownedBy user) (processQuery W context)).
  { unfold processQuery.
    pose proof (sends_loadConversation W _ (ownedBy_conversations user)
                  (conversationId context)).
    pose proof (sends_saveUserMessage W (ownedBy user) (conversationId context)
                  (query context)).
    pose proof (sends_handleGeneralConversation W _ (ownedBy_conversations user)
                  context).
    pose proof (sends_own_processMovieQuery W user context Huser).
    repeat frame_step; assumption. }
  destruct (Hsends st) as (sent & Hsent & Hall).
  assert (Hok : exists response st', processQuery W context st = (Ok response, st')).
  { unfold processQuery, tryCatch.
    match goal with |- context [bind ?m ?k st] =>
      destruct (bind m k st) as [[r|e] s] end; eauto. }
  destruct Hok as (response & st' & Hrun).
  exists response, st', sent. rewrite Hrun in Hsent. auto.
Qed.

(** A signed-in user asking about "Inception", found in the catalog. *)
Lemma processQuery_own_movies_only_witness :
  userId memberContext = Some "user-1"
  /\ exists response st' sent,
       processQuery (answeringWorld "Inception" "Inception (2010) bends the mind."
                       (Some guestCatalog))
                    memberContext emptyState = (Ok response, st')
       /\ requests st' = sent
       /\ Forall (fun rq =>
                    rq_table rq = Movies ->
                    In ("eq", "user_id", "user-1") (rq_filters rq)
                    \/ exists row,
                         rq_payload rq = MoviePayload row
                         /\ row !! "user_id" = Some "user-1")
                 sent.
Proof.
  split; [reflexivity|].
  destruct (processQuery_own_movies_only
              (answeringWorld "Inception" "Inception (2010) bends the mind."
                 (Some guestCatalog))
              memberContext "user-1" emptyState eq_refl)
    as (response & st' & sent & Hrun & Hsent & Hall).
  exists response, st', sent. split; [exact Hrun|]. split; [exact Hsent|exact Hall].
Defined.

(** ** Turns and tokens of a conversation *)

Section Keeps.

Context (R : ChainState -> ChainState -> Prop).
Hypothesis R_refl : forall st, R st st.
Hypothesis R_trans : forall st1 st2 st3, R st1 st2 -> R st2 st3 -> R st1 st3.

Lemma keeps_ret {A : Type} (a : A) : keeps R (ret a).
Proof. intros st. apply R_refl. Qed.

Lemma keeps_throw {A : Type} (e : string) : keeps R (@throw A e).
Proof. intros st. apply R_refl. Qed.

Lemma keeps_liftResult {A : Type} (r : result A) : keeps R (liftResult r).
Proof. intros st. apply R_refl. Qed.

Lemma keeps_getStore (id : string) : keeps R (getStore id).
Proof. intros st. apply R_refl. Qed.

Lemma keeps_getHistory : keeps R getHistory.
Proof. intros st. apply R_refl. Qed.

Lemma keeps_bind {A B : Type} (m : M A) (k : A -> M B) :
  keeps R m -> (forall a, keeps R (k a)) -> keeps R (bind m k).
Proof.
  intros Hm Hk st. unfold bind. specialize (Hm st).
  destruct (m st) as [[a|e] st1]; simpl in *; [|exact Hm].
  eapply R_trans; [exact Hm|apply Hk].
Qed.

Lemma keeps_tryCatch {A : Type} (m : M A) (h : string -> M A) :
  keeps R m -> (forall e, keeps R (h e)) -> keeps R (tryCatch m h).
Proof.
  intros Hm Hh st. unfold tryCatch. specialize (Hm st).
  destruct (m st) as [[a|e] st1]; simpl in *; [exact Hm|].
  eapply R_trans; [exact Hm|apply Hh].
Qed.

End Keeps.

Lemma sameTurns_refl (id : string) (st : ChainState) : sameTurns id st st.
Proof. intros c Hc. exists c. auto. Qed.

Lemma sameTurns_trans (id : string) (st1 st2 st3 : ChainState) :
  sameTurns id st1 st2 -> sameTurns id st2 st3 -> sameTurns id st1 st3.
Proof.
  intros H12 H23 c Hc. destruct (H12 c Hc) as (c2 & E2 & T2 & K2).
  destruct (H23 c2 E2) as (c3 & E3 & T3 & K3). exists c3.
  split; [exact E3|]. split; lia.
Qed.

Lemma sameTurns_same_store (id : string) (st st' : ChainState) :
  conversationStore st' = conversationStore st -> sameTurns id st st'.
Proof. intros E c Hc. exists c. rewrite E. auto. Qed.

Create HintDb turns.

Section Turns.

Context (W : World) (id : string).

Lemma turns_tick : keeps (sameTurns id) tick.
Proof. intros st. apply sameTurns_same_store. reflexivity. Qed.

Lemma turns_setHistory h : keeps (sameTurns id) (setHistory h).
Proof. intros st. apply sameTurns_same_store. reflexivity. Qed.

Lemma turns_request rq : keeps (sameTurns id) (request W rq).
Proof. intros st. rewrite request_run. apply sameTurns_same_store. reflexivity. Qed.

Lemma turns_similarMovies genre : keeps (sameTurns id) (similarMovies W genre).
Proof.
  intros st. unfold similarMovies. destruct (getSimilarMoviesByGenre _ _ _).
  apply sameTurns_same_store. reflexivity.
Qed.

Lemma turns_addTokens id' tokens : keeps (sameTurns id) (addTokens id' tokens).
Proof.
  intros st c Hc. unfold addTokens, bind, getStore, setStore, ret.
  destruct (conversationStore st !! id') as [conv|] eqn:E; simpl; [|eauto].
  destruct (decide (id = id')) as [->|Hne].
  - rewrite lookup_insert_eq. eexists. split; [reflexivity|].
    rewrite E in Hc. injection Hc as <-. simpl. split; lia.
  - rewrite lookup_insert_ne by auto. eauto.
Qed.

Lemma turns_saveAssistantMessage id' message movieData user :
  keeps (sameTurns id) (saveAssistantMessage W id' message movieData user).
Proof.
  intros st c Hc.
  destruct (saveAssistantMessage_state W id' message movieData user st)
    as (st' & -> & Hother & Hsame). simpl.
  destruct (decide (id = id')) as [->|Hne].
  - rewrite Hsame, Hc. simpl. eexists. split; [reflexivity|].
    unfold addAssistantMessage. destruct movieData; simpl; split; lia.
  - rewrite Hother by exact Hne. eauto.
Qed.

Hint Resolve sameTurns_refl : turns.
Hint Resolve keeps_ret keeps_throw keeps_liftResult keeps_getStore keeps_getHistory
  turns_tick turns_setHistory turns_request turns_similarMovies turns_addTokens
  turns_saveAssistantMessage : turns.

Ltac turn_step :=
  first
    [ solve [auto with turns]
    | apply keeps_bind; [apply sameTurns_trans| |intros ?]
    | apply keeps_tryCatch; [apply sameTurns_trans| |intros ?]
    | match goal with
      | |- keeps _ (match ?x with _ => _ end) => destruct x
      | |- keeps _ (if ?b then _ else _) => destruct b
      end ].

Lemma turns_now : keeps (sameTurns id) (now W).
Proof. unfold now. repeat turn_step. Qed.

Lemma turns_isoNow : keeps (sameTurns id) (isoNow W).
Proof. unfold isoNow. repeat turn_step. Qed.

Lemma turns_newUUID : keeps (sameTurns id) (newUUID W).
Proof. unfold newUUID. repeat turn_step. Qed.

Hint Resolve turns_now turns_isoNow turns_newUUID : turns.

Lemma turns_extractMovieTitles query id' :
  keeps (sameTurns id) (extractMovieTitles W query id').
Proof. unfold extractMovieTitles. repeat turn_step. Qed.

Lemma turns_fuzzySearch title user patterns :
  keeps (sameTurns id) (fuzzySearch W title user patterns).
Proof. induction patterns as [|p tl IH]; simpl; repeat turn_step. Qed.

Hint Resolve turns_fuzzySearch : turns.

Lemma turns_searchTitles titles user :
  keeps (sameTurns id) (searchTitles W titles user).
Proof. induction titles as [|t tl IH]; simpl; repeat turn_step. Qed.

Hint Resolve turns_searchTitles : turns.

Lemma turns_searchDatabase titles user :
  keeps (sameTurns id) (searchDatabase W titles user).
Proof. unfold searchDatabase. repeat turn_step. Qed.

Lemma turns_searchOMDB titles : keeps (sameTurns id) (searchOMDB W titles).
Proof. unfold searchOMDB. repeat turn_step. Qed.

Lemma turns_normalizeMovieData movieData :
  keeps (sameTurns id) (normalizeMovieData W movieData).
Proof. unfold normalizeMovieData. repeat turn_step. Qed.

Lemma turns_saveToDatabase movieData user :
  keeps (sameTurns id) (saveToDatabase W movieData user).
Proof. unfold saveToDatabase. repeat turn_step. Qed.

Lemma turns_getExistingRecommendation movieData user :
  keeps (sameTurns id) (getExistingRecommendation W movieData user).
Proof. unfold getExistingRecommendation. repeat turn_step. Qed.

Lemma turns_generateRecommendation movieData id' :
  keeps (sameTurns id) (generateRecommendation W movieData id').
Proof. unfold generateRecommendation, fallbackRecommendation. repeat turn_step. Qed.

Lemma turns_lastDiscussed id' : keeps (sameTurns id) (lastDiscussed id').
Proof. unfold lastDiscussed. repeat turn_step. Qed.

Hint Resolve turns_extractMovieTitles turns_searchDatabase turns_searchOMDB
  turns_normalizeMovieData turns_saveToDatabase turns_getExistingRecommendation
  turns_generateRecommendation turns_lastDiscussed : turns.

Lemma turns_chatOnly context message :
  keeps (sameTurns id) (chatOnly W context message).
Proof. unfold chatOnly. repeat turn_step. Qed.

Hint Resolve turns_chatOnly : turns.

Lemma turns_recommendMovie context movieData :
  keeps (sameTurns id) (recommendMovie W context movieData).
Proof. unfold recommendMovie. repeat turn_step. Qed.

Hint Resolve turns_recommendMovie : turns.

Lemma turns_processMovieQuery context :
  keeps (sameTurns id) (processMovieQuery W context).
Proof. unfold processMovieQuery. repeat turn_step. Qed.

Lemma sameTurns_addTokens (st st0 : ChainState) (cid : string)
  (conv : ConversationMemory) (tokens : nat) (h : list (Role * string))
  (rqs : list DbRequest) (k : nat) :
  conversationStore st !! cid = Some conv ->
  conversationStore st0 = conversationStore st ->
  sameTurns id st
    {| conversationStore :=
         <[cid := {| messages := messages conv;
                     discussedMovies := discussedMovies conv;
                     userPreferences := userPreferences conv;
                     totalTokens := totalTokens conv + tokens;
                     turnCount := turnCount conv |}]> (conversationStore st0);
       chatHistory := h; requests := rqs; clock := k |}.
Proof.
  intros E E0 c Hc. simpl. rewrite E0.
  destruct (decide (id = cid)) as [->|Hne].
  - rewrite lookup_insert_eq. eexists. split; [reflexivity|].
    rewrite E in Hc. injection Hc as <-. simpl. split; lia.
  - rewrite lookup_insert_ne by auto. eauto.
Qed.

Ltac after_save Hbefore :=
  match goal with
  | |- context [saveAssistantMessage W ?i ?m ?d ?u ?s] =>
      let H := fresh "Hsave" in
      let Hrun := fresh "Hrun" in
      let s' := fresh "st" in
      pose proof (turns_saveAssistantMessage i m d u s) as H;
      destruct (saveAssistantMessage_state W i m d u s) as (s' & Hrun & _ & _);
      rewrite Hrun in H |- *; cbn [fst snd] in *;
      eapply sameTurns_trans; [apply Hbefore|exact H]
  end.

Lemma turns_handleGeneralConversation context :
  keeps (sameTurns id) (handleGeneralConversation W context).
Proof.
  intros st.
  unfold handleGeneralConversation, tryCatch, bind, getStore, getHistory,
    setHistory, tick, liftResult, ret, setStore.
  cbn [conversationStore chatHistory requests clock fst snd].
  destruct (conversationStore st !! conversationId context) as [conv|] eqn:E.
  - destruct (_ && (1 <? _)%nat);
      cbn [conversationStore chatHistory requests clock fst snd].
    all: (destruct (conversationChain W _ _ _) as [response|e];
       [ after_save (sameTurns_addTokens st st (conversationId context) conv)
       | after_save (sameTurns_same_store id st) ]).
    all: try exact E; try reflexivity.
  - destruct (conversationChain W _ _ _) as [response|e];
      after_save (sameTurns_same_store id st); reflexivity.
Qed.

End Turns.

(** X19: [processQuery] always returns a response, and leaves the conversation
    stored with exactly one turn more than the conversation it loaded and
    with no fewer tokens, whichever path the query takes. *)
Theorem processQuery_counts_one_turn W (context : ChainContext) (st : ChainState) :
  exists loaded st0 response st' final,
    loadConversation W (conversationId context) st = (Ok loaded, st0)
    /\ processQuery W context st = (Ok response, st')
    /\ conversationStore st' !! conversationId context = Some final
    /\ turnCount final = S (turnCount loaded)
    /\ totalTokens loaded <= totalTokens final.
Proof.
  destruct (loadConversation_returns W (conversationId context) st)
    as (loaded & st0 & Hload & Hstored).
  destruct (saveUserMessage_state W (conversationId context) (query context) st0)
    as (st1 & Hsave & _ & Hsame).
  rewrite Hstored in Hsame. simpl in Hsame.
  assert (Hrest : keeps (sameTurns (conversationId context))
                    (if detectGeneralConversation (query context)
                     then bind (handleGeneralConversation W context)
                               (fun reply => ret (ChatResponse reply))
                     else processMovieQuery W context)).
  { destruct (detectGeneralConversation (query context)).
    - apply keeps_bind; [apply sameTurns_trans| |intros reply].
      + apply turns_handleGeneralConversation.
      + apply keeps_ret, sameTurns_refl.
    - apply turns_processMovieQuery. }
  destruct (Hrest st1 _ Hsame) as (final & Hfinal & Hturns & Htokens).
  simpl in Hturns, Htokens.
  unfold processQuery, tryCatch, bind. rewrite Hload, Hsave.
  destruct ((if detectGeneralConversation (query context)
             then bind (handleGeneralConversation W context)
                       (fun reply => ret (ChatResponse reply))
             else processMovieQuery W context) st1) as [[response|e] st2] eqn:Erest;
    simpl in Hfinal.
  - exists loaded, st0, response, st2, final.
    split; [reflexivity|]. unfold bind in Erest. rewrite Erest. auto.
  - exists loaded, st0,
      (ErrorResponse
         "An error occurred while processing your request. Please try again."),
      st2, final.
    split; [reflexivity|]. unfold bind in Erest. rewrite Erest. simpl. auto.
Qed.

(** ** Preferred genres *)

Lemma inStrings_false (x : string) (l : list string) :
  inStrings x l = false -> x ∉ l.
Proof.
  unfold inStrings. induction l as [|y l IH]; simpl; intros H.
  - apply not_elem_of_nil.
  - apply orb_false_iff in H. destruct H as [Hxy Hl].
    apply String.eqb_neq in Hxy. apply not_elem_of_cons. split; [exact Hxy|auto].
Qed.

Lemma sliceLast_sublist {A : Type} (n : nat) (l : list A) : sublist (sliceLast n l) l.
Proof. unfold sliceLast. apply sublist_drop. Qed.

Lemma pushGenre_invariant (g : option string) (p : UserPreferences) :
  genresInvariant p -> genresInvariant (pushGenre g p).
Proof.
  intros (Hnd & Hlen & Hall). unfold pushGenre.
  destruct g as [x|]; [|repeat split; assumption].
  destruct (negb (String.eqb x "") && negb (String.eqb x "Unknown")
            && negb (inStrings x (genres p))) eqn:E; [|repeat split; assumption].
  apply andb_true_iff in E. destruct E as [E Hin].
  apply andb_true_iff in E. destruct E as [He Hu].
  apply negb_true_iff in He, Hu, Hin.
  apply String.eqb_neq in He, Hu. apply inStrings_false in Hin.
  assert (Hnd' : NoDup (genres p ++ [x])).
  { apply NoDup_app. split; [exact Hnd|]. split; [|apply NoDup_singleton].
    intros y Hy Hy'. apply list_elem_of_singleton in Hy'. subst y. contradiction. }
  assert (Hall' : Forall (fun g => g <> "" /\ g <> "Unknown") (genres p ++ [x])).
  { apply Forall_app. split; [exact Hall|]. constructor; [auto|constructor]. }
  unfold genresInvariant. cbn [genres].
  destruct (3 <? List.length (genres p ++ [x]))%nat eqn:E3.
  - split; [|split].
    + apply (sublist_NoDup _ _ Hnd' (sliceLast_sublist 3 _)).
    + rewrite sliceLast_length. lia.
    + unfold sliceLast. apply Forall_drop. exact Hall'.
  - apply Nat.ltb_ge in E3. auto.
Qed.

Lemma inStrings_true (x : string) (l : list string) :
  inStrings x l = true -> In x l.
Proof.
  unfold inStrings. intros H. apply existsb_exists in H.
  destruct H as (y & Hy & E). apply String.eqb_eq in E. subst y. exact Hy.
Qed.

Lemma sliceLast_keeps_last {A : Type} (n : nat) (l : list A) (x : A) :
  0 < n -> In x (sliceLast n (l ++ [x])).
Proof.
  intros Hn. unfold sliceLast. rewrite length_app. cbn [List.length].
  apply list_elem_of_In. apply list_elem_of_lookup.
  exists (List.length l - (List.length l + 1 - n)).
  rewrite lookup_drop.
  replace (List.length l + 1 - n + (List.length l - (List.length l + 1 - n)))
    with (List.length l) by lia.
  rewrite lookup_app_r by lia. rewrite Nat.sub_diag. reflexivity.
Qed.

(** X20: saving an assistant message keeps the preferred genres distinct,
    at most three and free of the empty string and of "Unknown"; the first
    genre of the movie, when it is neither, is among them afterwards. *)
Theorem addAssistantMessage_keeps_genres (now : Z) (message : string)
  (movieData : option Movie) (c : ConversationMemory) :
  genresInvariant (userPreferences c) ->
  genresInvariant (userPreferences (addAssistantMessage now message movieData c))
  /\ (forall m g,
        movieData = Some m -> firstGenre m = Some g ->
        g <> "" -> g <> "Unknown" ->
        In g (genres (userPreferences
                        (addAssistantMessage now message movieData c)))).
Proof.
  intros Hinv. unfold addAssistantMessage.
  destruct movieData as [m|]; cbn [userPreferences].
  - split; [apply pushGenre_invariant; exact Hinv|].
    intros m' g [= <-] Hg Hne Hu. rewrite Hg. unfold pushGenre.
    apply String.eqb_neq in Hne, Hu. rewrite Hne, Hu. cbn [negb andb].
    destruct (inStrings g (genres (userPreferences c))) eqn:Hin; cbn [negb].
    + apply inStrings_true. exact Hin.
    + cbn [genres].
      destruct (3 <? _)%nat; [apply sliceLast_keeps_last; lia|].
      apply in_or_app. right. left. reflexivity.
  - split; [exact Hinv|]. intros m g [=].
Qed.

(** A crime drama saved in an empty conversation. *)
Lemma addAssistantMessage_keeps_genres_witness :
  genresInvariant (userPreferences emptyConversation)
  /\ genresInvariant
       (userPreferences
          (addAssistantMessage 0 "Great choice!"
             (Some (sampleMovie "8.3" "Crime, Drama")) emptyConversation))
  /\ In "Crime"
        (genres (userPreferences
                   (addAssistantMessage 0 "Great choice!"
                      (Some (sampleMovie "8.3" "Crime, Drama")) emptyConversation))).
Proof.
  assert (H : genresInvariant (userPreferences emptyConversation)).
  { repeat split; simpl; [apply NoDup_nil_2|lia|constructor]. }
  split; [exact H|].
  destruct (addAssistantMessage_keeps_genres 0 "Great choice!"
              (Some (sampleMovie "8.3" "Crime, Drama")) emptyConversation H)
    as [H1 H2].
  split; [exact H1|].
  apply (H2 (sampleMovie "8.3" "Crime, Drama") "Crime");
    [reflexivity|vm_compute; reflexivity|discriminate|discriminate].
Defined.

(** ** A saved movie read back *)

Lemma orElse_empty (x : string) : orElse x "" = x.
Proof. unfold orElse. destruct (String.eqb x "") eqn:E; [|reflexivity].
  apply String.eqb_eq in E. auto. Qed.

Lemma orElse_given (x fallback : string) : x <> "" -> orElse x fallback = x.
Proof. intros H. unfold orElse. apply String.eqb_neq in H. rewrite H. reflexivity. Qed.

(** X21: a round trip through the store: [normalizeMovieData] reads the row
    that [saveToDatabase] inserts, completed by the store with an [id] and
    a [created_at], back into the movie that was saved, with that [id] and
    that [created_at]. *)
Theorem normalizeMovieData_reads_saved_row W (movieData : Movie)
  (user id created : string) (st : ChainState) :
  id <> "" -> created <> "" -> m_imdbRating movieData <> "" ->
  normalizeMovieData W
    (<["id" := id]> (<["created_at" := created]> (movieRow movieData user))) st
  = (Ok {| m_id := id;
           m_title := m_title movieData; m_year := m_year movieData;
           m_imdbID := m_imdbID movieData; m_poster := m_poster movieData;
           m_imdbRating := m_imdbRating movieData;
           m_imdbVotes := m_imdbVotes movieData;
           m_plot := m_plot movieData; m_director := m_director movieData;
           m_actors := m_actors movieData; m_genre := m_genre movieData;
           m_created_at := created |}, st).
Proof.
  intros Hid Hcreated Hrating.
  unfold normalizeMovieData, field2, bind, ret.
  set (row := <["id" := id]> (<["created_at" := created]> (movieRow movieData user))).
  replace (row !! "id") with (Some id) by reflexivity.
  replace (row !! "created_at") with (Some created) by reflexivity.
  replace (row !! "Title") with (@None string) by reflexivity.
  replace (row !! "Year") with (@None string) by reflexivity.
  replace (row !! "imdbID") with (@None string) by reflexivity.
  replace (row !! "Poster") with (@None string) by reflexivity.
  replace (row !! "imdbRating") with (@None string) by reflexivity.
  replace (row !! "imdbVotes") with (@None string) by reflexivity.
  replace (row !! "Plot") with (@None string) by reflexivity.
  replace (row !! "Director") with (@None string) by reflexivity.
  replace (row !! "Actors") with (@None string) by reflexivity.
  replace (row !! "Genre") with (@None string) by reflexivity.
  replace (row !! "title") with (Some (m_title movieData)) by reflexivity.
  replace (row !! "year") with (Some (m_year movieData)) by reflexivity.
  replace (row !! "imdbid") with (Some (m_imdbID movieData)) by reflexivity.
  replace (row !! "poster") with (Some (m_poster movieData)) by reflexivity.
  replace (row !! "imdbrating") with (Some (m_imdbRating movieData)) by reflexivity.
  replace (row !! "imdbvotes") with (Some (m_imdbVotes movieData)) by reflexivity.
  replace (row !! "plot") with (Some (m_plot movieData)) by reflexivity.
  replace (row !! "director") with (Some (m_director movieData)) by reflexivity.
  replace (row !! "actors") with (Some (m_actors movieData)) by reflexivity.
  replace (row !! "genre") with (Some (m_genre movieData)) by reflexivity.
  unfold truthyString. apply String.eqb_neq in Hid, Hcreated.
  rewrite Hid, Hcreated. cbn [optOr].
  rewrite !orElse_empty, (orElse_given _ _ Hrating). reflexivity.
Qed.

(** The sample movie, saved for a user and read back. *)
Lemma normalizeMovieData_reads_saved_row_witness :
  "m1" <> "" /\ "2025-06-05T07:07:47.000Z" <> ""
  /\ m_imdbRating (sampleMovie "8.3" "Crime") <> ""
  /\ normalizeMovieData (failingWorld 0)
       (<["id" := "m1"]>
          (<["created_at" := "2025-06-05T07:07:47.000Z"]>
             (movieRow (sampleMovie "8.3" "Crime") "u1"))) emptyState
     = (Ok (sampleMovie "8.3" "Crime"), emptyState).
Proof.
  assert (H1 : "m1" <> "") by discriminate.
  assert (H2 : "2025-06-05T07:07:47.000Z" <> "") by discriminate.
  assert (H3 : m_imdbRating (sampleMovie "8.3" "Crime") <> "") by discriminate.
  split; [exact H1|]. split; [exact H2|]. split; [exact H3|].
  exact (normalizeMovieData_reads_saved_row (failingWorld 0)
           (sampleMovie "8.3" "Crime") "u1" "m1" "2025-06-05T07:07:47.000Z"
           emptyState H1 H2 H3).
Defined.

(** ** A movie without a rating *)

Lemma normalizeMovieData_returns W (movieData : RawMovie) (st : ChainState) :
  exists movie st',
    normalizeMovieData W movieData st = (Ok movie, st')
    /\ m_imdbRating movie = field2 movieData "imdbRating" "imdbrating" "N/A"
    /\ m_title movie = field2 movieData "Title" "title" "".
Proof.
  unfold normalizeMovieData, bind, ret, newUUID, isoNow, bind, tick, ret.
  destruct (truthyString (movieData !! "id"));
    destruct (truthyString (movieData !! "created_at")); simpl;
    eexists; eexists; (split; [reflexivity|]); simpl; auto.
Qed.

Lemma optOr_falsy (o : option string) (fallback : string) :
  truthyString o = None -> optOr o fallback = fallback.
Proof.
  destruct o as [x|]; simpl; [|reflexivity]. unfold orElse.
  destruct (String.eqb x ""); [reflexivity|discriminate].
Qed.

(** X22: a catalog record without a rating ([imdbRating] and [imdbrating]
    both missing or empty) is normalized to the rating "N/A", and no
    recommendation generated for it says it is worth watching. *)
Theorem missing_rating_not_worth_watching W (movieData : RawMovie)
  (st : ChainState) :
  truthyString (movieData !! "imdbRating") = None ->
  truthyString (movieData !! "imdbrating") = None ->
  exists movie st',
    normalizeMovieData W movieData st = (Ok movie, st')
    /\ m_imdbRating movie = "N/A"
    /\ forall conversationId st1,
         exists r st2,
           generateRecommendation W movie conversationId st1 = (Ok r, st2)
           /\ r_worth_watching r = false.
Proof.
  intros H1 H2.
  destruct (normalizeMovieData_returns W movieData st) as (movie & st' & E & Hr & _).
  exists movie, st'. split; [exact E|].
  assert (Hna : m_imdbRating movie = "N/A").
  { rewrite Hr. unfold field2. rewrite (optOr_falsy _ _ H1), (optOr_falsy _ _ H2).
    reflexivity. }
  split; [exact Hna|]. intros conversationId st1.
  destruct (recommendationChain W (clock st1)
              (recommendationInputOf (conversationStore st1 !! conversationId) movie))
    as [reply|e] eqn:Ec.
  - destruct (generateRecommendation_generated _ _ _ _ _ Ec) as (st2 & ->).
    eexists; eexists. split; [reflexivity|]. simpl. rewrite Hna. reflexivity.
  - destruct (generateRecommendation_fallback _ _ _ _ _ Ec) as (st2 & ->).
    destruct (getSimilarMoviesByGenre _ _ _).
    eexists; eexists. split; [reflexivity|]. simpl. rewrite Hna. reflexivity.
Qed.

(** A record that has a title only. *)
Lemma missing_rating_not_worth_watching_witness :
  truthyString (({[ "Title" := "Ace" ]} : RawMovie) !! "imdbRating") = None
  /\ truthyString (({[ "Title" := "Ace" ]} : RawMovie) !! "imdbrating") = None
  /\ exists movie st',
       normalizeMovieData (failingWorld 0) {[ "Title" := "Ace" ]} emptyState
       = (Ok movie, st')
       /\ m_imdbRating movie = "N/A".
Proof.
  assert (H1 : truthyString (({[ "Title" := "Ace" ]} : RawMovie) !! "imdbRating") = None)
    by reflexivity.
  assert (H2 : truthyString (({[ "Title" := "Ace" ]} : RawMovie) !! "imdbrating") = None)
    by reflexivity.
  split; [exact H1|]. split; [exact H2|].
  destruct (missing_rating_not_worth_watching (failingWorld 0) {[ "Title" := "Ace" ]}
              emptyState H1 H2) as (movie & st' & E & Hna & _).
  exists movie, st'. auto.
Defined.

(** ** Truncation, again *)

(** X23: the truncation of a recommendation text is idempotent: a truncated
    text is short enough to be kept as it is. *)
Theorem truncateRecommendation_idempotent (recommendationText : string) :
  truncateRecommendation (truncateRecommendation recommendationText)
  = truncateRecommendation recommendationText.
Proof.
  apply truncateRecommendation_short. apply truncateRecommendation_length.
Qed.

(** ** The best title match *)

Lemma bestMatchLoop_best (searchTitle : string) (movies : list RawMovie)
  (best : RawMovie) (score : Z) :
  (forall m, In m movies -> is_Some (m !! "title")) ->
  exists b f,
    bestMatchLoop (normalizeTitle searchTitle) movies best score = Ok b
    /\ (score <= f)%Z
    /\ (forall m, In m movies -> (rowScore searchTitle m <= f)%Z)
    /\ ((b = best /\ f = score)
        \/ (In b movies /\ f = rowScore searchTitle b /\ (score < f)%Z)).
Proof.
  revert best score. induction movies as [|movie tl IH]; intros best score Htitles.
  - exists best, score. simpl. split; [reflexivity|]. split; [lia|].
    split; [intros m []|left; auto].
  - destruct (Htitles movie (or_introl eq_refl)) as [t Ht].
    assert (Htl : forall m, In m tl -> is_Some (m !! "title"))
      by (intros m Hm; apply Htitles; right; exact Hm).
    assert (Hsc : rowScore searchTitle movie
                  = titleScore (normalizeTitle searchTitle) (normalizeTitle t))
      by (unfold rowScore; rewrite Ht; reflexivity).
    cbn [bestMatchLoop]. rewrite Ht. rewrite <- Hsc.
    destruct (score <? rowScore searchTitle movie)%Z eqn:E.
    + apply Z.ltb_lt in E.
      destruct (IH movie (rowScore searchTitle movie) Htl) as (b & f & Eb & Hf & Hall & Hb).
      exists b, f. split; [exact Eb|]. split; [lia|]. split.
      * intros m [<-|Hm]; [lia|apply Hall, Hm].
      * right. destruct Hb as [[-> ->]|(Hin & -> & Hlt)].
        -- split; [left; reflexivity|]. split; [reflexivity|lia].
        -- split; [right; exact Hin|]. split; [reflexivity|lia].
    + apply Z.ltb_ge in E.
      destruct (IH best score Htl) as (b & f & Eb & Hf & Hall & Hb).
      exists b, f. split; [exact Eb|]. split; [lia|]. split.
      * intros m [<-|Hm]; [lia|apply Hall, Hm].
      * destruct Hb as [[-> ->]|(Hin & -> & Hlt)]; [left; auto|].
        right. split; [right; exact Hin|]. split; [reflexivity|lia].
Qed.

(** X24: among rows that all have a title, [findBestTitleMatch] returns a
    row of the list that no row outscores, unless no score is positive: then
    it returns the first row. *)
Theorem findBestTitleMatch_maximal (searchTitle : string) (first : RawMovie)
  (rest : list RawMovie) :
  (forall m, In m (first :: rest) -> is_Some (m !! "title")) ->
  exists best,
    findBestTitleMatch searchTitle (first :: rest) = Ok best
    /\ In best (first :: rest)
    /\ (forall m, In m (first :: rest) ->
                  (rowScore searchTitle m <= Z.max 0 (rowScore searchTitle best))%Z)
    /\ ((rowScore searchTitle best <= 0)%Z -> best = first).
Proof.
  intros Htitles. unfold findBestTitleMatch. cbn [head default].
  destruct (bestMatchLoop_best searchTitle (first :: rest) first 0 Htitles)
    as (b & f & Eb & Hf & Hall & Hb).
  exists b. split; [exact Eb|].
  destruct Hb as [[-> ->]|(Hin & -> & Hlt)].
  - split; [left; reflexivity|]. split; [|reflexivity].
    intros m Hm. specialize (Hall m Hm). lia.
  - split; [exact Hin|]. split; [|lia].
    intros m Hm. specialize (Hall m Hm). lia.
Qed.

(** Two rows searched for "heat wave". *)
Lemma findBestTitleMatch_maximal_witness :
  (forall m,
     In m [({[ "title" := "Heat" ]} : RawMovie); {[ "title" := "Heat Wave" ]}] ->
     is_Some (m !! "title"))
  /\ exists best,
       findBestTitleMatch "heat wave"
         [{[ "title" := "Heat" ]}; {[ "title" := "Heat Wave" ]}] = Ok best
       /\ In best [({[ "title" := "Heat" ]} : RawMovie); {[ "title" := "Heat Wave" ]}].
Proof.
  assert (H : forall m,
             In m [({[ "title" := "Heat" ]} : RawMovie); {[ "title" := "Heat Wave" ]}] ->
             is_Some (m !! "title")).
  { intros m [<-|[<-|[]]]; eexists; reflexivity. }
  split; [exact H|].
  destruct (findBestTitleMatch_maximal "heat wave" {[ "title" := "Heat" ]}
              [{[ "title" := "Heat Wave" ]}] H) as (best & E & Hin & _).
  exists best. split; [exact E|exact Hin].
Defined.

(** ** Loading a conversation *)

(** X25: [loadConversation] never throws and leaves the conversation in the
    in-memory store, so that loading it again returns the same conversation
    and changes nothing.  A stored conversation is returned without a
    request; otherwise one select is sent and, when it throws, the
    conversation is the empty one. *)
Theorem loadConversation_caches W (id : string) (st : ChainState) :
  let select := mkRequest Conversations Select [("eq", "conversation_id", id)]
                          NoPayload in
  exists c st',
    loadConversation W id st = (Ok c, st')
    /\ conversationStore st' !! id = Some c
    /\ loadConversation W id st' = (Ok c, st')
    /\ (forall stored,
          conversationStore st !! id = Some stored -> c = stored /\ st' = st)
    /\ (conversationStore st !! id = None ->
        requests st' = requests st ++ [select]
        /\ (forall e, supabase W (clock st) select = Throw e ->
                      c = emptyConversation)).
Proof.
  intros select.
  assert (Hagain : forall c st',
             conversationStore st' !! id = Some c ->
             loadConversation W id st' = (Ok c, st')).
  { intros c st' E. unfold loadConversation, bind, getStore. rewrite E. reflexivity. }
  unfold loadConversation at 1. unfold bind at 1. unfold getStore at 1.
  destruct (conversationStore st !! id) as [stored|] eqn:E.
  - exists stored, st. split; [reflexivity|]. split; [exact E|].
    split; [apply Hagain, E|]. split; [|discriminate].
    intros stored' [= <-]. auto.
  - unfold tryCatch, bind. rewrite request_run. fold select.
    destruct (supabase W (clock st) select) as [reply|e].
    + destruct (asConversation (data reply)) as [row|]; simpl;
        (eexists; eexists; split; [reflexivity|]; simpl;
         split; [apply lookup_insert_eq|];
         split; [apply Hagain; apply lookup_insert_eq|];
         split; [discriminate|]; intros _; split; [reflexivity|discriminate]).
    + simpl. eexists; eexists. split; [reflexivity|]. simpl.
      split; [apply lookup_insert_eq|].
      split; [apply Hagain; apply lookup_insert_eq|].
      split; [discriminate|]. intros _. split; reflexivity.
Qed.

(** ** The reply is the last stored message *)

Lemma last_pushMessage (m : Message) (ms : list Message) :
  last (pushMessage m ms) = Some m.
Proof.
  rewrite pushMessage_sliceLast. unfold sliceLast.
  rewrite last_lookup, length_drop, lookup_drop, length_app. cbn [List.length].
  replace (List.length ms + 1 - 10
           + Init.Nat.pred (List.length ms + 1 - (List.length ms + 1 - 10)))
    with (List.length ms) by lia.
  rewrite lookup_app_r by lia. rewrite Nat.sub_diag. reflexivity.
Qed.

Section Answers.

Context (W : World) (id : string).

Lemma stored_kept {A : Type} (m : M A) (st : ChainState) :
  keeps (sameTurns id) m ->
  is_Some (conversationStore st !! id) ->
  is_Some (conversationStore (snd (m st)) !! id).
Proof.
  intros Hm [c Hc]. destruct (Hm st c Hc) as (c' & Hc' & _). eauto.
Qed.

Lemma save_lastReply (message : string) (movieData : option Movie)
  (user : option string) (st : ChainState) :
  is_Some (conversationStore st !! id) ->
  exists st',
    saveAssistantMessage W id message movieData user st = (Ok tt, st')
    /\ lastReply id message st'.
Proof.
  intros [c Hc].
  destruct (saveAssistantMessage_state W id message movieData user st)
    as (st' & Hrun & _ & Hsame).
  exists st'. split; [exact Hrun|].
  rewrite Hc in Hsame. simpl in Hsame.
  eexists; eexists. split; [exact Hsame|].
  unfold addAssistantMessage. destruct movieData; cbn [messages];
    apply last_pushMessage.
Qed.

Lemma answers_bind {A : Type} (m : M A) (k : A -> M Response) :
  keeps (sameTurns id) m -> (forall a, answers id (k a)) ->
  answers id (bind m k).
Proof.
  intros Hm Hk st response st' message Hst Hrun Hmsg.
  unfold bind in Hrun. pose proof (stored_kept m st Hm Hst) as Hst1.
  destruct (m st) as [[a|e] st1]; [|discriminate].
  exact (Hk a st1 response st' message Hst1 Hrun Hmsg).
Qed.

Lemma answers_tryCatch (m : M Response) (h : string -> M Response) :
  keeps (sameTurns id) m -> answers id m -> (forall e, answers id (h e)) ->
  answers id (tryCatch m h).
Proof.
  intros Hkeep Hm Hh st response st' message Hst Hrun Hmsg.
  unfold tryCatch in Hrun. pose proof (stored_kept m st Hkeep Hst) as Hst1.
  destruct (m st) as [[a|e] st1] eqn:E.
  - injection Hrun as -> ->. exact (Hm st response st' message Hst E Hmsg).
  - exact (Hh e st1 response st' message Hst1 Hrun Hmsg).
Qed.

(** A save of the reply, then steps that leave the store alone. *)
Lemma answers_save (message : string) (movieData : option Movie)
  (user : option string) (k : unit -> M Response) :
  (forall u st response st',
     k u st = (Ok response, st') ->
     conversationStore st' = conversationStore st
     /\ replyMessage response = Some message) ->
  answers id (bind (saveAssistantMessage W id message movieData user) k).
Proof.
  intros Hk st response st' message' Hst Hrun Hmsg.
  unfold bind in Hrun.
  destruct (save_lastReply message movieData user st Hst) as (st1 & E & Hlast).
  rewrite E in Hrun. destruct (Hk tt st1 response st' Hrun) as [Hstore Hreply].
  rewrite Hreply in Hmsg. injection Hmsg as <-.
  destruct Hlast as (c & t & Hc & Hl). exists c, t. rewrite Hstore. auto.
Qed.

End Answers.

Section AnswersOf.

Context (W : World) (context : ChainContext).

Local Abbreviation id := (conversationId context).

Lemma answers_chatOnly (message : string) :
  answers id (chatOnly W context message).
Proof.
  unfold chatOnly. apply answers_save.
  intros u st response st' [= <- <-]. auto.
Qed.

Lemma answers_recommendMovie (movieData : RawMovie) :
  answers id (recommendMovie W context movieData).
Proof.
  unfold recommendMovie.
  apply answers_bind; [apply turns_normalizeMovieData|intros normalized].
  apply answers_bind.
  { destruct (userId context) as [u|]; [|apply keeps_ret, sameTurns_refl].
    destruct (String.eqb u ""); [apply keeps_ret, sameTurns_refl|].
    apply keeps_bind; [apply sameTurns_trans|apply turns_saveToDatabase|].
    intros savedData. destruct (truthyString _); apply keeps_ret, sameTurns_refl. }
  intros normalizedMovie.
  apply answers_bind; [apply turns_getExistingRecommendation|intros existing].
  destruct existing as [existingRecommendation|].
  - apply answers_bind; [apply keeps_getStore, sameTurns_refl|intros conversation].
    apply answers_save. intros u st response st' [= <- <-]. auto.
  - apply answers_bind; [apply turns_generateRecommendation|intros recommendation].
    apply answers_bind.
    { destruct (_ && _); [|apply keeps_ret, sameTurns_refl].
      apply keeps_bind; [apply sameTurns_trans|apply turns_request|].
      intros _. apply keeps_ret, sameTurns_refl. }
    intros _.
    apply answers_bind; [apply keeps_getStore, sameTurns_refl|intros current].
    apply answers_bind; [apply keeps_liftResult, sameTurns_refl|intros isRepeatedMovie].
    apply answers_save. intros u st response st'.
    unfold bind, getStore, ret. intros [= <- <-]. auto.
Qed.

Lemma answers_processMovieQuery :
  answers id (processMovieQuery W context).
Proof.
  unfold processMovieQuery.
  apply answers_bind; [apply turns_extractMovieTitles|intros movieTitles].
  destruct movieTitles as [|first rest].
  - apply answers_bind; [apply (turns_lastDiscussed W)|intros lastMovie].
    apply answers_chatOnly.
  - apply answers_bind; [apply (turns_lastDiscussed W)|intros lastMovie].
    apply answers_bind; [apply keeps_liftResult, sameTurns_refl|intros repeated].
    destruct repeated; [apply answers_chatOnly|].
    apply answers_bind; [apply turns_searchDatabase|intros fromStore].
    apply answers_bind.
    { destruct fromStore; [apply keeps_ret, sameTurns_refl|apply turns_searchOMDB]. }
    intros movieData. destruct movieData as [row|].
    + apply answers_recommendMovie.
    + apply answers_bind; [apply (turns_lastDiscussed W)|intros lastMovie'].
      apply answers_chatOnly.
Qed.

Lemma answers_handleGeneralConversation :
  answers id (bind (handleGeneralConversation W context)
                   (fun reply => ret (ChatResponse reply))).
Proof.
  intros st response st' message [conv E].
  unfold handleGeneralConversation, tryCatch, bind, getStore, getHistory,
    setHistory, tick, liftResult, ret, setStore.
  cbn [conversationStore chatHistory requests clock fst snd].
  rewrite E.
  destruct (_ && (1 <? _)%nat);
    cbn [conversationStore chatHistory requests clock fst snd];
    destruct (conversationChain W _ _ _) as [reply|e];
    match goal with
    | |- context [saveAssistantMessage W ?i ?m ?d ?u ?s] =>
        let Hs := fresh in
        assert (Hs : is_Some (conversationStore s !! i))
          by (cbn [conversationStore]; rewrite ?lookup_insert_eq, ?E; eauto);
        destruct (save_lastReply W i m d u s Hs) as (st2 & -> & Hlast)
    end;
    cbn [fst snd]; intros [= <- <-]; cbn [replyMessage cr_message];
    intros [= <-]; exact Hlast.
Qed.

End AnswersOf.

(** X26: [processQuery] always returns, and the message of a response that is
    not the error response is the last message stored for the conversation,
    said by the assistant. *)
Theorem processQuery_reply_is_last_message W (context : ChainContext)
  (st : ChainState) :
  exists response st',
    processQuery W context st = (Ok response, st')
    /\ forall message,
         replyMessage response = Some message ->
         exists c t,
           conversationStore st' !! conversationId context = Some c
           /\ last (messages c) = Some (mkMessage RoleAssistant message t).
Proof.
  destruct (loadConversation_returns W (conversationId context) st)
    as (loaded & st0 & Hload & Hstored).
  destruct (saveUserMessage_state W (conversationId context) (query context) st0)
    as (st1 & Hsave & _ & Hsame).
  rewrite Hstored in Hsame. simpl in Hsame.
  assert (Hrest : answers (conversationId context)
                    (if detectGeneralConversation (query context)
                     then bind (handleGeneralConversation W context)
                               (fun reply => ret (ChatResponse reply))
                     else processMovieQuery W context)).
  { destruct (detectGeneralConversation (query context));
      [apply answers_handleGeneralConversation|apply answers_processMovieQuery]. }
  unfold processQuery, tryCatch, bind. rewrite Hload, Hsave.
  destruct ((if detectGeneralConversation (query context)
             then bind (handleGeneralConversation W context)
                       (fun reply => ret (ChatResponse reply))
             else processMovieQuery W context) st1) as [[response|e] st2] eqn:Erest.
  - exists response, st2. unfold bind in Erest. rewrite Erest.
    split; [reflexivity|]. intros message Hmsg.
    apply (Hrest st1 response st2 message); [eauto| |exact Hmsg].
    unfold bind. exact Erest.
  - eexists; eexists. unfold bind in Erest. rewrite Erest.
    split; [reflexivity|]. intros message [=].
Qed.

(** ** The regex fallback returns plausible titles only *)

Lemma reach_refl (p : pos) : reach p p.
Proof. exists []. split; reflexivity. Qed.

Lemma reach_trans (p q r : pos) : reach p q -> reach q r -> reach p r.
Proof.
  intros (c1 & E1 & F1) (c2 & E2 & F2). exists (c1 ++ c2). split.
  - rewrite E1, E2. apply app_assoc.
  - rewrite F2, F1. destruct c2 as [|x c2] using rev_ind.
    + rewrite app_nil_r. reflexivity.
    + rewrite app_assoc, !last_snoc. reflexivity.
Qed.

Lemma reach_step (prev : option ascii) (c : ascii) (tl : list ascii) :
  reach (prev, c :: tl) (Some c, tl).
Proof. exists [c]. split; reflexivity. Qed.

Section Invariant.
Context (step : pos -> list pos) (P : pos -> Prop).
Hypothesis step_keeps : forall p q, P p -> In q (step p) -> P q.

Lemma repMore_inv (greedy : bool) (fuel : nat) :
  forall max p q, P p -> In q (repMore step greedy fuel max p) -> P q.
Proof.
  induction fuel as [|f IH]; intros max p q Hp Hq; simpl in Hq.
  - destruct Hq as [<-|[]]. exact Hp.
  - assert (Hmore : forall max',
               In q (flat_map (repMore step greedy f max')
                       (List.filter (fun q' => shorter q' p) (step p))) -> P q).
    { intros max' H. apply in_flat_map in H. destruct H as (m & Hm & H).
      apply List.filter_In in Hm. destruct Hm as [Hm _].
      exact (IH max' m q (step_keeps p m Hp Hm) H). }
    destruct max as [[|n]|].
    + destruct Hq as [<-|[]]. exact Hp.
    + destruct greedy.
      * apply in_app_or in Hq. destruct Hq as [Hq|[<-|[]]]; [eauto|exact Hp].
      * destruct Hq as [<-|Hq]; [exact Hp|eauto].
    + destruct greedy.
      * apply in_app_or in Hq. destruct Hq as [Hq|[<-|[]]]; [eauto|exact Hp].
      * destruct Hq as [<-|Hq]; [exact Hp|eauto].
Qed.

Lemma repMin_inv (k : pos -> list pos) :
  (forall p q, P p -> In q (k p) -> P q) ->
  forall min p q, P p -> In q (repMin step k min p) -> P q.
Proof.
  intros Hk. induction min as [|m IH]; intros p q Hp Hq; simpl in Hq.
  - exact (Hk p q Hp Hq).
  - apply in_flat_map in Hq. destruct Hq as (p' & Hp' & Hq).
    exact (IH p' q (step_keeps p p' Hp Hp') Hq).
Qed.

End Invariant.

(** A match reads characters of the subject, in order. *)
Lemma run_reach (icase : bool) (r : regex) :
  forall p q, In q (run icase r p) -> reach p q.
Proof.
  induction r as [| | |neg items|r1 IH1 r2 IH2|r1 IH1 r2 IH2|mn mx greedy r1 IH1
                  | | | |r1 IH1]; intros p q Hq; cbn [run] in Hq.
  - destruct Hq as [<-|[]]. apply reach_refl.
  - destruct Hq.
  - destruct p as [prev [|c tl]]; simpl in Hq; [destruct Hq|].
    destruct (isLineTerminator c); [destruct Hq|].
    destruct Hq as [<-|[]]. apply reach_step.
  - destruct p as [prev [|c tl]]; simpl in Hq; [destruct Hq|].
    destruct (classMem icase neg items c); [|destruct Hq].
    destruct Hq as [<-|[]]. apply reach_step.
  - apply in_flat_map in Hq. destruct Hq as (m & Hm & Hq).
    exact (reach_trans p m q (IH1 p m Hm) (IH2 m q Hq)).
  - apply in_app_or in Hq. destruct Hq as [Hq|Hq]; [exact (IH1 p q Hq)|exact (IH2 p q Hq)].
  - assert (Hstep : forall a b, reach p a -> In b (run icase r1 a) -> reach p b).
    { intros a b Ha Hb. exact (reach_trans p a b Ha (IH1 a b Hb)). }
    refine (repMin_inv (run icase r1) (reach p) Hstep _ _ mn p q (reach_refl p) Hq).
    intros a b Ha Hb.
    exact (repMore_inv (run icase r1) (reach p) Hstep greedy _ _ a b Ha Hb).
  - destruct (fst p); [destruct Hq|]. destruct Hq as [<-|[]]. apply reach_refl.
  - destruct (snd p); [|destruct Hq]. destruct Hq as [<-|[]]. apply reach_refl.
  - destruct (xorb (isWordBefore p) (isWordAfter p)); [|destruct Hq].
    destruct Hq as [<-|[]]. apply reach_refl.
  - destruct (run icase r1 p); [|destruct Hq]. destruct Hq as [<-|[]]. apply reach_refl.
Qed.

Lemma run_Seq_inv (icase : bool) (r1 r2 : regex) (p q : pos) :
  In q (run icase (Seq r1 r2) p) ->
  exists m, In m (run icase r1 p) /\ In q (run icase r2 m).
Proof. intros Hq. simpl in Hq. apply in_flat_map in Hq. exact Hq. Qed.

Lemma whitespace_class :
  forall c, classMem true false [CSpace] c = true -> isSpace c = true.
Proof. ascii_cases. Qed.

(** [\s+] reads at least one character and ends after a white-space
    character. *)
Lemma run_spaces (p q : pos) :
  In q (run true (Rep 1 None true (Class false [CSpace])) p) ->
  afterSpace q /\ List.length (snd q) < List.length (snd p).
Proof.
  intros Hq. cbn [run repMin option_map] in Hq.
  set (P := fun b : pos =>
              afterSpace b /\ List.length (snd b) < List.length (snd p)).
  assert (Hstep : forall a b,
             List.length (snd a) <= List.length (snd p) ->
             In b (run true (Class false [CSpace]) a) -> P b).
  { intros [prev [|c tl]] b Ha Hb; cbn [run snd] in Hb; [destruct Hb|].
    destruct (classMem true false [CSpace] c) eqn:Ec; [|destruct Hb].
    destruct Hb as [<-|[]]. split.
    - exists c. split; [reflexivity|exact (whitespace_class c Ec)].
    - simpl in *. lia. }
  apply in_flat_map in Hq. destruct Hq as (m & Hm & Hq).
  refine (repMore_inv _ P _ true _ _ m q (Hstep p m (le_n _) Hm) Hq).
  intros a b [_ Ha] Hb. apply (Hstep a b); [lia|exact Hb].
Qed.

(** A successful search found a match at a position of the subject. *)
Lemma search_sound (rx : RegExp) (l : list ascii) :
  forall skipped prev found,
    search rx skipped prev l = Some found ->
    exists p q, reach (prev, l) p
                /\ In q (run (re_icase rx) (re_ast rx) p).
Proof.
  induction l as [|c tl IH]; intros skipped prev found H; simpl in H.
  - destruct (run (re_icase rx) (re_ast rx) (prev, [])) as [|q qs] eqn:E;
      [discriminate|].
    exists (prev, []), q. split; [apply reach_refl|rewrite E; left; reflexivity].
  - destruct (run (re_icase rx) (re_ast rx) (prev, c :: tl)) as [|q qs] eqn:E.
    + destruct (IH _ _ _ H) as (p & q & Hp & Hq). exists p, q. split; [|exact Hq].
      exact (reach_trans _ _ _ (reach_step prev c tl) Hp).
    + exists (prev, c :: tl), q. split; [apply reach_refl|rewrite E; left; reflexivity].
Qed.

(** A match of [^], a title and [\s+]: the subject starts with a
    character of the title, and the match ends after a white-space
    character. *)
Lemma title_then_space (s : string) (m : pos) (first : list class_item)
  (more : regex) :
  In m (run true
          (Seq (Seq Bol (Seq (Class false first) more))
               (Rep 1 None true (Class false [CSpace])))
          (None, chars s)) ->
  exists c before sp,
    chars s = c :: before ++ sp :: snd m /\ isSpace sp = true.
Proof.
  intros Hm.
  apply run_Seq_inv in Hm. destruct Hm as (m2 & Hm2 & Hm).
  apply run_Seq_inv in Hm2. destruct Hm2 as (m0 & Hm0 & Hm2).
  simpl in Hm0. destruct Hm0 as [<-|[]].
  apply run_Seq_inv in Hm2. destruct Hm2 as (m1 & Hm1 & Hm2).
  cbn [run snd] in Hm1. destruct (chars s) as [|c tl]; [destruct Hm1|].
  destruct (classMem true false first c); [|destruct Hm1].
  destruct Hm1 as [<-|[]].
  destruct (run_reach _ _ _ _ Hm2) as (c2 & E2 & _). simpl in E2.
  destruct (run_spaces _ _ Hm) as [(sp & Fsp & Hsp) Hlt].
  destruct (run_reach _ _ _ _ Hm) as (c3 & E3 & F3).
  rewrite Fsp in F3.
  destruct c3 as [|x c3 _] using rev_ind.
  - rewrite E3 in Hlt. simpl in Hlt. lia.
  - rewrite last_snoc in F3. injection F3 as <-.
    exists c, (c2 ++ c3), sp. split; [|exact Hsp].
    f_equal. rewrite E2, E3. rewrite <- !app_assoc. reflexivity.
Qed.

Lemma run_Bol_start (icase : bool) (r1 r2 : regex) (p m : pos) :
  In m (run icase (Seq (Seq Bol r1) r2) p) -> fst p = None.
Proof.
  intros Hm. apply run_Seq_inv in Hm. destruct Hm as (m2 & Hm2 & _).
  apply run_Seq_inv in Hm2. destruct Hm2 as (m0 & Hm0 & _).
  simpl in Hm0. destruct (fst p); [destruct Hm0|reflexivity].
Qed.

Lemma dropSpaces_head (l : list ascii) (c : ascii) (tl : list ascii) :
  dropSpaces l = c :: tl -> isSpace c = false.
Proof.
  induction l as [|x l IH]; simpl; [discriminate|].
  destruct (isSpace x) eqn:E; [exact IH|]. intros [= <- _]. exact E.
Qed.

(** A trimmed string does not end with white space. *)
Lemma trim_last (s : string) (c : ascii) :
  last (chars (trim s)) = Some c -> isSpace c = false.
Proof.
  unfold trim, trimChars. rewrite chars_str.
  destruct (dropSpaces (rev (dropSpaces (chars s)))) as [|y l] eqn:E; simpl.
  - discriminate.
  - rewrite last_snoc. intros [= <-]. exact (dropSpaces_head _ _ _ E).
Qed.

Lemma lowerChar_space :
  forall c, isSpace c = true -> isSpace (lowerChar c) = true.
Proof. ascii_cases. Qed.

(** No stop word holds white space. *)
Lemma isCommonWord_space (word : string) (sp : ascii) :
  In sp (chars word) -> isSpace sp = true -> isCommonWord word = false.
Proof.
  intros Hin Hsp. destruct (isCommonWord word) eqn:E; [|reflexivity]. exfalso.
  apply inStrings_true in E.
  assert (H : forallb (fun w => forallb (fun c => negb (isSpace c)) (chars w))
                      commonWords = true) by (vm_compute; reflexivity).
  rewrite forallb_forall in H. specialize (H _ E). rewrite forallb_forall in H.
  unfold toLowerCase in H. rewrite chars_str in H.
  specialize (H (lowerChar sp) (in_map _ _ _ Hin)).
  rewrite (lowerChar_space sp Hsp) in H. discriminate.
Qed.

Ltac parsed H :=
  match type of H with
  | context [parse ?s] =>
      let r := eval vm_compute in (parse s) in
      let E := fresh "E" in
      assert (E : parse s = r) by (vm_compute; reflexivity);
      rewrite E in H; clear E
  end.

Ltac title_prefix H :=
  repeat match type of H with
         | In _ (run _ (Seq (Seq (Seq _ _) _) _) _) =>
             let m := fresh "m" in
             apply run_Seq_inv in H as (m & H & _)
         end.

(** A query that one of the direct patterns matches. *)
Lemma direct_pattern_title (query : string) :
  anyTest directPatterns (trim query) = true -> plausibleTitle (trim query).
Proof.
  intros H. unfold anyTest in H. apply existsb_exists in H.
  destruct H as (rx & Hrx & Ht). unfold test, exec in Ht.
  destruct (search rx 0 None (chars (trim query))) as [found|] eqn:Es;
    [clear Ht|discriminate].
  destruct (search_sound _ _ _ _ _ Es) as (p & q & Hp & Hq). clear Es.
  assert (Hm : exists m first more,
             In m (run true
                     (Seq (Seq Bol (Seq (Class false first) more))
                          (Rep 1 None true (Class false [CSpace])))
                     p)).
  { unfold directPatterns in Hrx.
    destruct Hrx as [<-|[<-|[<-|[]]]]; cbn [re_icase re_ast rei] in Hq;
      parsed Hq; title_prefix Hq; eauto. }
  clear Hq. destruct Hm as (m & first & more & Hm).
  pose proof (run_Bol_start _ _ _ _ _ Hm) as Hstart.
  destruct Hp as (skipped & Esk & Fsk). rewrite Hstart in Fsk.
  destruct skipped as [|x skipped _] using rev_ind;
    [|rewrite last_snoc in Fsk; discriminate].
  simpl in Esk. destruct p as [prev rest]. simpl in Hstart, Esk. subst prev rest.
  destruct (title_then_space _ _ _ _ Hm) as (c & before & sp & Echars & Hsp).
  split.
  - unfold JS.length. rewrite Echars. destruct (snd m) as [|y after] eqn:Eafter.
    + exfalso. pose proof (trim_last query sp) as Hlast.
      rewrite Echars in Hlast.
      change (c :: before ++ [sp]) with ((c :: before) ++ [sp]) in Hlast.
      rewrite last_snoc in Hlast. specialize (Hlast eq_refl). congruence.
    + simpl. rewrite length_app. simpl. lia.
  - apply (isCommonWord_space _ sp); [|exact Hsp].
    rewrite Echars. right. apply in_or_app. right. left. reflexivity.
Qed.

Lemma keepTitle_plausible (title : string) :
  keepTitle title = true -> plausibleTitle title.
Proof.
  unfold keepTitle. intros H. apply andb_true_iff in H. destruct H as [Hlen Hword].
  apply Nat.ltb_lt in Hlen. apply negb_true_iff in Hword.
  split; [lia|exact Hword].
Qed.

Lemma firstTitles_plausible (query : string) (patterns : list RegExp) :
  forall titles,
    firstTitles query patterns = Some titles -> Forall plausibleTitle titles.
Proof.
  induction patterns as [|pattern tl IH]; intros titles H; simpl in H.
  - discriminate.
  - destruct (List.filter keepTitle (map cleanMatch (matchAll pattern query)))
      as [|t ts] eqn:E; [exact (IH titles H)|].
    injection H as <-. rewrite <- E. apply List.Forall_forall. intros title Hin.
    apply List.filter_In in Hin. exact (keepTitle_plausible title (proj2 Hin)).
Qed.

(** X27: every title [extractTitlesWithRegex] returns has at least three
    characters and is not a stop word of [isCommonWord], on each of its
    four paths. *)
Theorem extractTitlesWithRegex_plausible (query : string) :
  Forall plausibleTitle (extractTitlesWithRegex query).
Proof.
  unfold extractTitlesWithRegex.
  destruct (anyTest directPatterns (trim query)) eqn:Hdirect.
  - constructor; [exact (direct_pattern_title query Hdirect)|constructor].
  - destruct (find (fun mt => includes (trim (toLowerCase query)) (fst mt))
                   specificMentions) as [[mention title]|] eqn:Ef.
    + apply find_some in Ef. destruct Ef as [Hin _].
      constructor; [|constructor].
      unfold specificMentions in Hin.
      repeat (destruct Hin as [[= _ <-]|Hin];
              [split; [vm_compute; lia|vm_compute; reflexivity]|]).
      destruct Hin.
    + destruct (firstTitles query specificPatterns) as [titles|] eqn:Et.
      * exact (firstTitles_plausible query specificPatterns titles Et).
      * destruct (isCommonWord _ || (_ <? 3)%nat) eqn:Ek; [constructor|].
        apply orb_false_iff in Ek. destruct Ek as [Hword Hlen].
        apply Nat.ltb_ge in Hlen.
        constructor; [split; [exact Hlen|exact Hword]|constructor].
Qed.

(** ** The edge function *)

Lemma processQuery_returns W (context : ChainContext) (st : ChainState) :
  exists response st', processQuery W context st = (Ok response, st').
Proof.
  unfold processQuery, tryCatch.
  match goal with |- context [bind ?m ?k st] =>
    destruct (bind m k st) as [[r|e] s] end; eauto.
Qed.

Lemma truthy_Some (q : string) : q <> "" -> truthy (Some q) = true.
Proof.
  intros H. simpl. destruct (String.eqb q "") eqn:E; [|reflexivity].
  apply String.eqb_eq in E. contradiction.
Qed.

Lemma dropSpaces_blank (l : list ascii) :
  forallb isSpace l = true -> dropSpaces l = [].
Proof.
  induction l as [|c l IH]; simpl; [reflexivity|]. intros H.
  apply andb_true_iff in H. destruct H as [-> H]. exact (IH H).
Qed.

Lemma trim_blank (q : string) : forallb isSpace (chars q) = true -> trim q = "".
Proof.
  intros H. unfold trim, trimChars. rewrite (dropSpaces_blank _ H). reflexivity.
Qed.

(** The session of a request, then the chain: what [answer] does with a
    complete payload. *)
Lemma answer_complete W (payload : RequestPayload) (q id : string)
  (st : ChainState) :
  p_query payload = Some q -> q <> "" ->
  p_conversationId payload = Some id -> id <> "" ->
  exists session st1,
    requests st1 = requests st
    /\ answer W (Ok tt) payload st
       = (let* result :=
            processQuery W {| userId := p_userId payload; query := trim q;
                              conversationId := id; sessionId := session |} in
          ret {| res_status := 200; res_body := DataBody result |}) st1.
Proof.
  intros Hq Hq' Hid Hid'. unfold answer.
  rewrite Hq, Hid, (truthy_Some q Hq'), (truthy_Some id Hid'). simpl.
  destruct (truthyString (p_sessionId payload)) as [s|].
  - eexists; eexists. split; [|reflexivity]. reflexivity.
  - eexists; eexists. split; [|reflexivity]. reflexivity.
Qed.

(** X28: a request that is not a preflight, whose body gives a non-empty
    query and a non-empty conversation identifier, is answered with status
    200 and a [data] body once the chain is constructed, whatever the store,
    the language model and the catalog do: a failure inside the chain never
    becomes a 500. *)
Theorem serve_chain_failures_are_200 W (req : HttpRequest)
  (payload : RequestPayload) (q id : string) (st : ChainState) :
  req_method req <> "OPTIONS" ->
  req_json req = Ok payload ->
  p_query payload = Some q -> q <> "" ->
  p_conversationId payload = Some id -> id <> "" ->
  exists response st',
    serve W (Ok tt) req st
    = ({| res_status := 200; res_body := DataBody response |}, st').
Proof.
  intros Hmethod Hjson Hq Hq' Hid Hid'. unfold serve.
  destruct (String.eqb (req_method req) "OPTIONS") eqn:E;
    [apply String.eqb_eq in E; contradiction|].
  rewrite Hjson. unfold bind at 1, liftResult at 1.
  destruct (answer_complete W payload q id st Hq Hq' Hid Hid')
    as (session & st1 & _ & ->).
  unfold bind, ret.
  destruct (processQuery_returns W
              {| userId := p_userId payload; query := trim q;
                 conversationId := id; sessionId := session |} st1)
    as (response & st' & ->).
  eauto.
Qed.

(** X29: a query made of white space only passes the "Query is required"
    check, which is made before trimming; the chain receives the empty
    query, takes it for general conversation and the answer is a 200 with
    a chat reply. *)
Theorem serve_blank_query W (req : HttpRequest) (payload : RequestPayload)
  (q id : string) (st : ChainState) :
  req_method req <> "OPTIONS" ->
  req_json req = Ok payload ->
  p_query payload = Some q -> q <> "" ->
  forallb isSpace (chars q) = true ->
  p_conversationId payload = Some id -> id <> "" ->
  exists reply st',
    serve W (Ok tt) req st
    = ({| res_status := 200; res_body := DataBody (ChatResponse reply) |}, st').
Proof.
  intros Hmethod Hjson Hq Hq' Hblank Hid Hid'. unfold serve.
  destruct (String.eqb (req_method req) "OPTIONS") eqn:E;
    [apply String.eqb_eq in E; contradiction|].
  rewrite Hjson. unfold bind at 1, liftResult at 1.
  destruct (answer_complete W payload q id st Hq Hq' Hid Hid')
    as (session & st1 & _ & ->).
  rewrite (trim_blank q Hblank). unfold bind, ret.
  destruct (processQuery_general_reply W
              {| userId := p_userId payload; query := "";
                 conversationId := id; sessionId := session |} st1)
    as (reply & st' & ->); [vm_compute; reflexivity|].
  eauto.
Qed.

(** A guest asking about a movie while the store and the language model
    are down. *)
Lemma serve_chain_failures_are_200_witness :
  req_method movieRequest <> "OPTIONS"
  /\ exists response st',
       serve (failingWorld 0) (Ok tt) movieRequest emptyState
       = ({| res_status := 200; res_body := DataBody response |}, st').
Proof.
  assert (Hmethod : req_method movieRequest <> "OPTIONS") by discriminate.
  split; [exact Hmethod|].
  exact (serve_chain_failures_are_200 (failingWorld 0) movieRequest _
           " Is Inception worth watching? " "conv-10" emptyState
           Hmethod eq_refl eq_refl ltac:(discriminate) eq_refl
           ltac:(discriminate)).
Defined.

(** A query of three spaces. *)
Lemma serve_blank_query_witness :
  forallb isSpace (chars "   ") = true
  /\ exists reply st',
       serve (failingWorld 0) (Ok tt) blankRequest emptyState
       = ({| res_status := 200; res_body := DataBody (ChatResponse reply) |}, st').
Proof.
  split; [reflexivity|].
  exact (serve_blank_query (failingWorld 0) blankRequest _ "   " "conv-9"
           emptyState ltac:(discriminate) eq_refl eq_refl ltac:(discriminate)
           eq_refl eq_refl ltac:(discriminate)).
Defined.
